(** * static-container-registry: generation of nginx configuration

    A shallow embedding of [static_container_registry.py] and the
    verification of its specification.

    Conventions of the embedding.
    - A Python [str] is a [string]: the UTF-8 bytes of the text.  Python
      orders strings by code point, which on UTF-8 text is the bytewise
      lexicographic order [String.le].
    - A path is the list of its components; [os.path.join] appends.
    - A generator is the list of the values it yields together with the
      exception, if any, that ends it ([gen]).
    - The dictionaries [images] and [tags] are only ever iterated through
      [sorted], so they are finite maps ([gmap]).
    - Each [yield] of [create_config] is a [fragment]: the template it
      formats and the arguments it gives to [format]; [render] is the
      text.  [create_config] is [create_config_fragments] rendered.
    - The image tree is a value ([node]).  [create_config] reads it while
      it discovers the images and again, later, for each digest; the two
      states are separate arguments, equal for a tree nobody touches.
    - The standard library's JSON reader and string encoder are an
      interface ([JsonLib]); SHA-256 is written out after FIPS 180-4.
    - The older script of the repository, [static-container-registry.py],
      is in [Legacy].  Its dictionary [images] is gone through in the
      order in which the names were inserted, so it is an association
      list there. *)

From Stdlib Require Import ZArith Ascii.
From Stdlib.Strings Require Import Byte.
From Stdlib Require SpecFloat.
From stdpp Require Import gmap strings list fin_maps sorting.

Local Open Scope Z_scope.
Set Warnings "-register-all".

(** ** Exceptions, results and generators *)

Inductive exn :=
| FileNotFoundError
| NotADirectoryError
| IsADirectoryError
| AttributeError
| UnicodeDecodeError.

Inductive res (A : Type) :=
| Ok (a : A)
| Raise (e : exn).
Arguments Ok {A} a.
Arguments Raise {A} e.

(** What a generator has produced when it stops: the values yielded, in
    order, and the exception that stopped it ([None] when it returned). *)
Record gen (A : Type) := Gen { yielded : list A; raised : option exn }.
Arguments Gen {A} yielded raised.
Arguments yielded {A} g.
Arguments raised {A} g.

Definition gen_return {A} : gen A := Gen [] None.
Definition gen_yield {A} (x : A) : gen A := Gen [x] None.
Definition gen_raise {A} (e : exn) : gen A := Gen [] (Some e).

(** Run [g1]; when it returns normally go on with [g2]. *)
Definition gen_seq {A} (g1 g2 : gen A) : gen A :=
  match raised g1 with
  | Some e => g1
  | None => Gen (yielded g1 ++ yielded g2) (raised g2)
  end.
Infix ";;;" := gen_seq (at level 65, right associativity).

(** [for x in xs: body(x)] *)
Fixpoint gen_for {A B} (xs : list A) (body : A → gen B) : gen B :=
  match xs with
  | [] => gen_return
  | x :: xs' => body x ;;; gen_for xs' body
  end.

(** ** The file system *)

Inductive node :=
| File (content : list byte)
| Dir (entries : list (string * node)).

Definition path := list string.

Fixpoint dir_lookup (name : string) (entries : list (string * node))
  : option node :=
  match entries with
  | [] => None
  | (n, x) :: rest => if decide (n = name) then Some x else dir_lookup name rest
  end.

Fixpoint resolve (fs : node) (p : path) : res node :=
  match p with
  | [] => Ok fs
  | seg :: p' =>
      match fs with
      | File _ => Raise NotADirectoryError
      | Dir entries =>
          match dir_lookup seg entries with
          | Some n => resolve n p'
          | None => Raise FileNotFoundError
          end
      end
  end.

Definition os_path_join (p : path) (segs : list string) : path := p ++ segs.

Definition os_path_isdir (fs : node) (p : path) : bool :=
  match resolve fs p with
  | Ok (Dir _) => true
  | _ => false
  end.

Definition os_path_isfile (fs : node) (p : path) : bool :=
  match resolve fs p with
  | Ok (File _) => true
  | _ => false
  end.

Definition os_listdir (fs : node) (p : path) : res (list string) :=
  match resolve fs p with
  | Ok (Dir entries) => Ok (entries.*1)
  | Ok (File _) => Raise NotADirectoryError
  | Raise e => Raise e
  end.

(** [open(p, ...)] followed by reading the whole file. *)
Definition open_read (fs : node) (p : path) : res (list byte) :=
  match resolve fs p with
  | Ok (File content) => Ok content
  | Ok (Dir _) => Raise IsADirectoryError
  | Raise e => Raise e
  end.

(** ** Python values, as [json.load] builds them *)

Inductive pyvalue :=
| PyNone
| PyBool (b : bool)
| PyInt (z : Z)
| PyFloat (f : SpecFloat.spec_float)
| PyStr (s : string)
| PyList (l : list pyvalue)
| PyDict (items : list (string * pyvalue)).

Definition is_nil {A} (l : list A) : bool :=
  match l with [] => true | _ => false end.

(** [bool(v)] *)
Definition truthy (v : pyvalue) : bool :=
  match v with
  | PyNone => false
  | PyBool b => b
  | PyInt z => negb (z =? 0)
  | PyFloat (SpecFloat.S754_zero _) => false
  | PyFloat _ => true
  | PyStr s => negb (bool_decide (s = EmptyString))
  | PyList l => negb (is_nil l)
  | PyDict items => negb (is_nil items)
  end.

Fixpoint dict_lookup (key : string) (items : list (string * pyvalue))
  : option pyvalue :=
  match items with
  | [] => None
  | (k, v) :: rest => if decide (k = key) then Some v else dict_lookup key rest
  end.

(** [v.get(key)]: only a dict has the method. *)
Definition py_get (v : pyvalue) (key : string) : res pyvalue :=
  match v with
  | PyDict items => Ok (default PyNone (dict_lookup key items))
  | _ => Raise AttributeError
  end.

(** A float equals an int when they denote the same number. *)
Definition float_eq_int (f : SpecFloat.spec_float) (z : Z) : bool :=
  match f with
  | SpecFloat.S754_zero _ => z =? 0
  | SpecFloat.S754_finite s m e =>
      let sm := if s then - Z.pos m else Z.pos m in
      if 0 <=? e then sm * 2 ^ e =? z else sm =? z * 2 ^ (- e)
  | _ => false
  end.

(** [v == z] for an int [z] *)
Definition py_eq_int (v : pyvalue) (z : Z) : bool :=
  match v with
  | PyInt x => x =? z
  | PyBool b => (if b then 1 else 0) =? z
  | PyFloat f => float_eq_int f z
  | _ => false
  end.

(** [v in l] for a list [l] of strings *)
Definition py_in_strs (v : pyvalue) (l : list string) : option string :=
  match v with
  | PyStr s => if bool_decide (s ∈ l) then Some s else None
  | _ => None
  end.

(** What [json.load(file)] does on the bytes of a file opened as UTF-8
    text. *)
Inductive load_result :=
| Loaded (v : pyvalue)
| JSONDecodeError
| LoadRaises (e : exn).

(** The two functions of the [json] module that the script calls:
    [json.load] on a file, and the JSON text [json.dumps] writes for a
    string. *)
Class JsonLib := {
  json_load : list byte → load_result;
  json_dumps_str : string → string;
}.

(** ** SHA-256 (FIPS 180-4), on 32-bit words held in [Z] *)

Module SHA256.

Definition mask32 : Z := 0xFFFFFFFF.
Definition w32 (x : Z) : Z := Z.land x mask32.
Definition add32 (x y : Z) : Z := w32 (x + y).
Definition rotr (n x : Z) : Z :=
  Z.lor (Z.shiftr x n) (w32 (Z.shiftl x (32 - n))).
Definition shr (n x : Z) : Z := Z.shiftr x n.
Definition not32 (x : Z) : Z := Z.lxor x mask32.

Definition Ch (x y z : Z) : Z :=
  Z.lxor (Z.land x y) (Z.land (not32 x) z).
Definition Maj (x y z : Z) : Z :=
  Z.lxor (Z.lxor (Z.land x y) (Z.land x z)) (Z.land y z).
Definition bsig0 (x : Z) : Z :=
  Z.lxor (Z.lxor (rotr 2 x) (rotr 13 x)) (rotr 22 x).
Definition bsig1 (x : Z) : Z :=
  Z.lxor (Z.lxor (rotr 6 x) (rotr 11 x)) (rotr 25 x).
Definition ssig0 (x : Z) : Z :=
  Z.lxor (Z.lxor (rotr 7 x) (rotr 18 x)) (shr 3 x).
Definition ssig1 (x : Z) : Z :=
  Z.lxor (Z.lxor (rotr 17 x) (rotr 19 x)) (shr 10 x).

(** The constants of the standard are not tabulated but computed as it
    defines them: [K] holds the first 32 bits of the fractional parts of
    the cube roots of the first 64 primes, the initial hash value those of
    the square roots of the first 8. *)
Definition is_prime (n : Z) : bool :=
  (1 <? n) && forallb (λ d, negb (n mod d =? 0))
                (filter (λ d, d * d ≤ n) (seqZ 2 (n - 2))).

Definition primes : list Z := filter (λ n, is_prime n = true) (seqZ 2 310).

(** The integer cube root of [x < 2^108], one bit at a time. *)
Definition cube_root (x : Z) : Z :=
  fold_left (λ r bit, let r' := r + 2 ^ bit in
                      if r' * r' * r' <=? x then r' else r)
            (reverse (seqZ 0 36)) 0.

Definition frac_cube_root (p : Z) : Z := w32 (cube_root (p * 2 ^ 96)).
Definition frac_sqrt (p : Z) : Z := w32 (Z.sqrt (p * 2 ^ 64)).

Definition K : list Z := Eval vm_compute in frac_cube_root <$> primes.

(** The eight working variables, and the hash value. *)
Record regs := Regs { ra : Z; rb : Z; rc : Z; rd : Z;
                      re : Z; rf : Z; rg : Z; rh : Z }.

Definition H0 : regs :=
  Eval vm_compute in
    match frac_sqrt <$> take 8 primes with
    | [a; b; c; d; e; f; g; h] => Regs a b c d e f g h
    | _ => Regs 0 0 0 0 0 0 0 0
    end.

Definition round (r : regs) (kw : Z * Z) : regs :=
  let t1 := add32 (add32 (add32 (add32 (rh r) (bsig1 (re r)))
                                (Ch (re r) (rf r) (rg r)))
                         kw.1) kw.2 in
  let t2 := add32 (bsig0 (ra r)) (Maj (ra r) (rb r) (rc r)) in
  Regs (add32 t1 t2) (ra r) (rb r) (rc r)
       (add32 (rd r) t1) (re r) (rf r) (rg r).

(** The message schedule, kept newest word first: [rev_w] holds
    W(t-1), W(t-2), ... *)
Fixpoint expand (n : nat) (rev_w : list Z) : list Z :=
  match n with
  | O => rev_w
  | S n' =>
      let w := add32 (add32 (add32 (ssig1 (nth 1 rev_w 0)) (nth 6 rev_w 0))
                            (ssig0 (nth 14 rev_w 0)))
                     (nth 15 rev_w 0) in
      expand n' (w :: rev_w)
  end.

Definition schedule (block : list Z) : list Z :=
  rev (expand 48 (rev block)).

Definition add_regs (x y : regs) : regs :=
  Regs (add32 (ra x) (ra y)) (add32 (rb x) (rb y))
       (add32 (rc x) (rc y)) (add32 (rd x) (rd y))
       (add32 (re x) (re y)) (add32 (rf x) (rf y))
       (add32 (rg x) (rg y)) (add32 (rh x) (rh y)).

(** One 512-bit block, given as sixteen words. *)
Definition process_block (h : regs) (block : list Z) : regs :=
  add_regs h (fold_left round (zip K (schedule block)) h).

Definition byte_val (b : byte) : Z := Z.of_N (Byte.to_N b).

Fixpoint be_bytes (n : nat) (x : Z) : list Z :=
  match n with
  | O => []
  | S n' => Z.land (Z.shiftr x (8 * Z.of_nat n')) 0xFF :: be_bytes n' x
  end.

Definition padding (len : Z) : list Z :=
  0x80 :: replicate (Z.to_nat ((55 - len) mod 64)) 0 ++ be_bytes 8 (8 * len).

Fixpoint words_of_bytes (l : list Z) : list Z :=
  match l with
  | b0 :: b1 :: b2 :: b3 :: rest =>
      Z.lor (Z.lor (Z.lor (Z.shiftl b0 24) (Z.shiftl b1 16)) (Z.shiftl b2 8)) b3
      :: words_of_bytes rest
  | _ => []
  end.

(** Feed the words one by one, hashing a block each time sixteen are in. *)
Definition absorb (st : regs * list Z) (w : Z) : regs * list Z :=
  let block := st.2 ++ [w] in
  if bool_decide (length block = 16%nat)
  then (process_block st.1 block, [])
  else (st.1, block).

Definition digest (msg : list byte) : regs :=
  let bytes := (byte_val <$> msg) ++ padding (Z.of_nat (length msg)) in
  (fold_left absorb (words_of_bytes bytes) (H0, [])).1.

Definition hex_digits : list ascii :=
  ["0"; "1"; "2"; "3"; "4"; "5"; "6"; "7";
   "8"; "9"; "a"; "b"; "c"; "d"; "e"; "f"]%char.

Definition hex_digit (x : Z) : ascii :=
  nth (Z.to_nat (Z.land x 0xF)) hex_digits "0"%char.

Definition hex_word (w : Z) : list ascii :=
  [hex_digit (Z.shiftr w 28); hex_digit (Z.shiftr w 24);
   hex_digit (Z.shiftr w 20); hex_digit (Z.shiftr w 16);
   hex_digit (Z.shiftr w 12); hex_digit (Z.shiftr w 8);
   hex_digit (Z.shiftr w 4); hex_digit w].

Definition hex_regs (r : regs) : list ascii :=
  hex_word (ra r) ++ hex_word (rb r) ++ hex_word (rc r) ++ hex_word (rd r) ++
  hex_word (re r) ++ hex_word (rf r) ++ hex_word (rg r) ++ hex_word (rh r).

Definition hexdigest (msg : list byte) : string :=
  String.string_of_list_ascii (hex_regs (digest msg)).

End SHA256.

(** ** [hashlib.sha256()] objects

    The object is the message fed to it so far: [update] appends, and
    [hexdigest] is the SHA-256 of everything fed. *)

Record sha256_obj := Sha256Obj { fed : list byte }.

Definition hashlib_sha256 : sha256_obj := Sha256Obj [].
Definition update (d : sha256_obj) (chunk : list byte) : sha256_obj :=
  Sha256Obj (fed d ++ chunk).
Definition hexdigest (d : sha256_obj) : string := SHA256.hexdigest (fed d).


(** ** Strings *)

Definition dq : string := String "034"%char EmptyString.
Definition nl : string := String "010"%char EmptyString.
Definition slash : ascii := "/"%char.

(** [s.lstrip(c)], [s.rstrip(c)] and [s.strip(c)] for a single
    character [c] *)
Fixpoint lstrip (c : ascii) (s : string) : string :=
  match s with
  | String a s' => if decide (a = c) then lstrip c s' else s
  | EmptyString => EmptyString
  end.
Fixpoint rstrip (c : ascii) (s : string) : string :=
  match s with
  | EmptyString => EmptyString
  | String a s' =>
      match rstrip c s' with
      | EmptyString => if decide (a = c) then EmptyString else String a EmptyString
      | r => String a r
      end
  end.
Definition strip (c : ascii) (s : string) : string := rstrip c (lstrip c s).

(** [sep.join(l)] *)
Fixpoint join (sep : string) (l : list string) : string :=
  match l with
  | [] => EmptyString
  | [x] => x
  | x :: rest => x +:+ sep +:+ join sep rest
  end.

(** ** [compute_digest] *)

(** The loop [for chunk in iter(lambda: file.read(size), b'')]: [file] is
    what is left to read.  A read takes at most [size] bytes, and the loop
    ends at the first empty read; [fuel] bounds the number of reads. *)
Fixpoint read_loop (size fuel : nat) (file : list byte) (digest : sha256_obj)
  : sha256_obj :=
  match fuel with
  | O => digest
  | S fuel' =>
      let chunk := take size file in
      if is_nil chunk then digest
      else read_loop size fuel' (drop size file) (update digest chunk)
  end.


Definition compute_digest (fs : node) (filename : path) : res string :=
  match open_read fs filename with
  | Raise e => Raise e
  | Ok content =>
      Ok (hexdigest
            (read_loop 4096 (S (length content)) content hashlib_sha256))
  end.

(** ** The fragments of configuration

    Each [yield] of [create_config] formats a template; a [fragment]
    records which template and the keyword arguments given to [format],
    and [render] is the template filled in. *)

Inductive fragment :=
| Constants
| TagsList (name name_prefix payload : string)
| ManifestByTag (name tag media_type name_prefix digest server_root : string)
| ManifestByDigest (name tag media_type name_prefix digest server_root : string)
| DigestAlreadyServed (name tag : string)
| Blobs (name_prefix server_root name paths : string).

(** [json.dumps] of the constant [TAG_INVALID] error document. *)
Definition tag_invalid : string :=
  "{" +:+ dq +:+ "errors" +:+ dq +:+ ": [{" +:+
  dq +:+ "code" +:+ dq +:+ ": " +:+ dq +:+ "TAG_INVALID" +:+ dq +:+ ", " +:+
  dq +:+ "message" +:+ dq +:+ ": " +:+
  dq +:+ "manifest tag did not match URI" +:+ dq +:+ ", " +:+
  dq +:+ "detail" +:+ dq +:+ ": " +:+ dq +:+ dq +:+ "}]}".

Definition CONSTANTS : string :=
  nl +:+
  "location = /v2 {" +:+ nl +:+
  "    return 301 /v2/;" +:+ nl +:+
  "}" +:+ nl +:+
  nl +:+
  "location = /v2/ {" +:+ nl +:+
  "    return 200 'ok';" +:+ nl +:+
  "}" +:+ nl +:+
  nl +:+
  "location @404_tag {" +:+ nl +:+
  "    internal;" +:+ nl +:+
  "    types { } default_type " +:+ dq +:+ "application/json" +:+ dq +:+ ";" +:+ nl +:+
  "    return 404 '" +:+ tag_invalid +:+ "';" +:+ nl +:+
  "}" +:+ nl.

Definition render (f : fragment) : string :=
  match f with
  | Constants => CONSTANTS
  | TagsList name name_prefix payload =>
      nl +:+
      "location = /v2/" +:+ name_prefix +:+ name +:+ "/tags/list {" +:+ nl +:+
      "    types { } default_type " +:+ dq +:+ "application/json" +:+ dq +:+ ";" +:+ nl +:+
      "    return 200 '" +:+ payload +:+ "';" +:+ nl +:+
      "}" +:+ nl
  | ManifestByTag name tag media_type name_prefix digest server_root =>
      nl +:+
      "location = " +:+ dq +:+ "/v2/" +:+ name_prefix +:+ name +:+
        "/manifests/" +:+ tag +:+ dq +:+ " {" +:+ nl +:+
      "    alias " +:+ server_root +:+ "/" +:+ name +:+ "/" +:+ tag +:+ "/;" +:+ nl +:+
      "    types { } default_type " +:+ dq +:+ media_type +:+ dq +:+ ";" +:+ nl +:+
      "    add_header 'Docker-Content-Digest' 'sha256:" +:+ digest +:+ "';" +:+ nl +:+
      "    try_files manifest.json =404;" +:+ nl +:+
      "    error_page 404 @404_tag;" +:+ nl +:+
      "}" +:+ nl
  | ManifestByDigest name tag media_type name_prefix digest server_root =>
      nl +:+
      "location = " +:+ dq +:+ "/v2/" +:+ name_prefix +:+ name +:+
        "/manifests/sha256:" +:+ digest +:+ dq +:+ " {" +:+ nl +:+
      "    alias " +:+ server_root +:+ "/" +:+ name +:+ "/" +:+ tag +:+ "/;" +:+ nl +:+
      "    types { } default_type " +:+ dq +:+ media_type +:+ dq +:+ ";" +:+ nl +:+
      "    add_header 'Docker-Content-Digest' 'sha256:" +:+ digest +:+ "';" +:+ nl +:+
      "    try_files manifest.json =404;" +:+ nl +:+
      "    error_page 404 @404_tag;" +:+ nl +:+
      "}" +:+ nl
  | DigestAlreadyServed name tag =>
      nl +:+
      "# Digest for " +:+ dq +:+ name +:+ ":" +:+ tag +:+ dq +:+ " already served" +:+ nl
  | Blobs name_prefix server_root name paths =>
      nl +:+
      "location ~ " +:+ dq +:+ "/v2/" +:+ name_prefix +:+ name +:+
        "/blobs/sha256:([a-f0-9]{64})" +:+ dq +:+ " {" +:+ nl +:+
      "    alias " +:+ server_root +:+ "/" +:+ name +:+ "/;" +:+ nl +:+
      "    try_files " +:+ paths +:+ " =404;" +:+ nl +:+
      "}" +:+ nl
  end.

(** ** The script *)

Definition MANIFEST_JSON : string := "manifest.json".

Definition DOCKER_MANIFEST_V2 : string :=
  "application/vnd.docker.distribution.manifest.v2+json".
Definition OCI_MANIFEST_V1 : string :=
  "application/vnd.oci.image.manifest.v1+json".

(** [sorted(d.items())] and [sorted(d.keys())] on a dictionary with
    string keys.  The keys of a dictionary are distinct, so comparing
    two items never gets past their keys. *)
Definition item_le {V} (a b : string * V) : Prop := String.le a.1 b.1.

Definition sorted_items {V} (d : gmap string V) : list (string * V) :=
  merge_sort item_le (map_to_list d).

Definition sorted_keys {V} (d : gmap string V) : list string :=
  merge_sort String.le (map_to_list d).*1.

(** [images.setdefault(name, {})[tag] = media_type] *)
Definition add_image (images : gmap string (gmap string string))
    (found : string * string * string) : gmap string (gmap string string) :=
  let '(name, tag, media_type) := found in
  <[name := <[tag := media_type]> (default ∅ (images !! name))]> images.

Definition collect_images (found : list (string * string * string))
  : gmap string (gmap string string) :=
  fold_left add_image found ∅.

Section Script.
Context `{JsonLib}.

(** The [with open(manifest, 'r', encoding='utf-8')] block of
    [find_images]: a [JSONDecodeError] leaves [data = None], any other
    exception escapes. *)
Definition load_manifest (fs : node) (manifest : path) : res pyvalue :=
  match open_read fs manifest with
  | Raise e => Raise e
  | Ok content =>
      match json_load content with
      | Loaded data => Ok data
      | JSONDecodeError => Ok PyNone
      | LoadRaises e => Raise e
      end
  end.

(** The body of the loop [for tag in os.listdir(curr)]. *)
Definition find_images_tag (fs : node) (root : path) (name tag : string)
  : gen (string * string * string) :=
  let curr := os_path_join root [name; tag] in
  if negb (os_path_isdir fs curr) then gen_return else
  let manifest := os_path_join curr [MANIFEST_JSON] in
  if negb (os_path_isfile fs manifest) then gen_return else
  match load_manifest fs manifest with
  | Raise e => gen_raise e
  | Ok data =>
      if negb (truthy data) then gen_return else
      match py_get data "schemaVersion" with
      | Raise e => gen_raise e
      | Ok schema_version =>
          if negb (py_eq_int schema_version 2) then gen_return else
          match py_get data "mediaType" with
          | Raise e => gen_raise e
          | Ok media_type =>
              match py_in_strs media_type
                      [DOCKER_MANIFEST_V2; OCI_MANIFEST_V1] with
              | None => gen_return
              | Some media_type => gen_yield (name, tag, media_type)
              end
          end
      end
  end.

(** The body of the loop [for name in os.listdir(root)]. *)
Definition find_images_name (fs : node) (root : path) (name : string)
  : gen (string * string * string) :=
  let curr := os_path_join root [name] in
  if negb (os_path_isdir fs curr) then gen_return else
  match os_listdir fs curr with
  | Raise e => gen_raise e
  | Ok tags => gen_for tags (find_images_tag fs root name)
  end.

Definition find_images (fs : node) (root : path)
  : gen (string * string * string) :=
  match os_listdir fs root with
  | Raise e => gen_raise e
  | Ok names => gen_for names (find_images_name fs root)
  end.

(** [json.dumps({'name': name, 'tags': tags})] *)
Definition json_dumps_tag_list (name : string) (tags : list string) : string :=
  "{" +:+ json_dumps_str "name" +:+ ": " +:+ json_dumps_str name +:+ ", " +:+
  json_dumps_str "tags" +:+ ": [" +:+ join ", " (json_dumps_str <$> tags) +:+
  "]}".

(** The loop [for (tag, media_type) in sorted(tags.items())] of
    [create_config], with the set [seen_digests] it updates. *)
Fixpoint manifest_routes (fs : node) (root : path)
    (server_root name_prefix name : string)
    (items : list (string * string)) (seen_digests : gset string)
  : gen fragment :=
  match items with
  | [] => gen_return
  | (tag, media_type) :: rest =>
      match compute_digest fs
              (os_path_join root [name; tag; MANIFEST_JSON]) with
      | Raise e => gen_raise e
      | Ok hexdigest =>
          gen_yield (ManifestByTag name tag media_type
                       (lstrip slash name_prefix) hexdigest server_root) ;;;
          (if bool_decide (hexdigest ∉ seen_digests)
           then gen_yield (ManifestByDigest name tag media_type
                             (lstrip slash name_prefix) hexdigest server_root)
           else gen_yield (DigestAlreadyServed name tag)) ;;;
          manifest_routes fs root server_root name_prefix name rest
            ({[hexdigest]} ∪ seen_digests)
      end
  end.

(** The body of the loop [for (name, tags) in sorted(images.items())]. *)
Definition image_routes (fs : node) (root : path)
    (server_root name_prefix : string)
    (image : string * gmap string string) : gen fragment :=
  let '(name, tags) := image in
  gen_yield (TagsList name (lstrip slash name_prefix)
               (json_dumps_tag_list name (sorted_keys tags))) ;;;
  manifest_routes fs root server_root name_prefix name (sorted_items tags) ∅ ;;;
  gen_yield (Blobs (lstrip slash name_prefix) server_root name
               (join " " ((λ tag, tag +:+ "/$1") <$> sorted_keys tags))).

(** [create_config], from the dictionary [images] on. *)
Definition inventory_routes (fs : node) (root : path)
    (server_root name_prefix : string)
    (images : gmap string (gmap string string)) : gen fragment :=
  gen_for (sorted_items images) (image_routes fs root server_root name_prefix).

(** [create_config] after the constants: the dictionary [images] is
    filled from all of [find_images] before the first image is written.
    The image tree is read twice: [find_images] walks it (as [fs_scan]),
    and [compute_digest] reads the manifests while the routes are
    written (as [fs_emit]). *)
Definition discovered_routes (fs_scan fs_emit : node) (root : path)
    (server_root name_prefix : string) : gen fragment :=
  let found := find_images fs_scan root in
  match raised found with
  | Some e => gen_raise e
  | None =>
      inventory_routes fs_emit root server_root name_prefix
        (collect_images (yielded found))
  end.

Definition create_config_fragments (fs_scan fs_emit : node) (root : path)
    (server_root name_prefix : string) (with_constants only_constants : bool)
  : gen fragment :=
  (if with_constants then gen_yield Constants else gen_return) ;;;
  if only_constants then gen_return else
  discovered_routes fs_scan fs_emit root server_root name_prefix.

Definition create_config (fs_scan fs_emit : node) (root : path)
    (server_root name_prefix : string) (with_constants only_constants : bool)
  : gen string :=
  let g := create_config_fragments fs_scan fs_emit root server_root
             name_prefix with_constants only_constants in
  Gen (render <$> yielded g) (raised g).

(** *** [main] *)

Record cli_args := CliArgs {
  arg_name_prefix : option string;
  arg_omit_constants : bool;
  arg_only_constants : bool;
  arg_server_root : option string;
  arg_root : path;
}.

(** [x or ''] for an optional string argument *)
Definition or_empty (x : option string) : string := default EmptyString x.

(** The absolute path of [root] as text. *)
Definition path_str (p : path) : string :=
  match p with
  | [] => "/"
  | _ => String.concat EmptyString ((λ seg, "/" +:+ seg) <$> p)
  end.

(** ['{}/'.format((args.name_prefix or '').strip('/'))] *)
Definition main_name_prefix (args : cli_args) : string :=
  strip slash (or_empty (arg_name_prefix args)) +:+ "/".

(** [args.server_root or root] *)
Definition main_server_root (args : cli_args) : string :=
  match arg_server_root args with
  | Some s => if bool_decide (s = EmptyString) then path_str (arg_root args) else s
  | None => path_str (arg_root args)
  end.

(** What [main] writes to [sys.stdout], or [None] when the argument
    parser rejects the command line: [--omit-constants] and
    [--only-constants] are in a mutually exclusive group. *)
Definition main (args : cli_args) (fs_scan fs_emit : node)
  : option (gen string) :=
  if arg_omit_constants args && arg_only_constants args then None else
  let name_prefix := main_name_prefix args in
  let with_constants := negb (arg_omit_constants args) in
  let only_constants := arg_only_constants args in
  let root := arg_root args in
  let server_root := main_server_root args in
  Some (create_config fs_scan fs_emit root server_root name_prefix
          with_constants only_constants).

End Script.

(** ** Concrete inputs

    A [JsonLib] for the examples: [json.dumps] of a string as it is for
    ASCII text, and [json.load] tabulated on the few documents the example
    trees hold. *)

Definition backslash : string := String "092"%char EmptyString.

Definition escape_ascii (c : ascii) : string :=
  if decide (c = "034"%char) then backslash +:+ dq
  else if decide (c = "092"%char) then backslash +:+ backslash
  else if decide (c = "010"%char) then backslash +:+ "n"
  else if decide (c = "013"%char) then backslash +:+ "r"
  else if decide (c = "009"%char) then backslash +:+ "t"
  else if decide (c = "012"%char) then backslash +:+ "f"
  else if decide (c = "008"%char) then backslash +:+ "b"
  else if bool_decide (32 ≤ nat_of_ascii c < 127)%nat then String c EmptyString
  else backslash +:+ "u00" +:+
       String (SHA256.hex_digit (Z.shiftr (Z.of_nat (nat_of_ascii c)) 4))
         (String (SHA256.hex_digit (Z.of_nat (nat_of_ascii c))) EmptyString).

Fixpoint escape_string (s : string) : string :=
  match s with
  | EmptyString => EmptyString
  | String c s' => escape_ascii c +:+ escape_string s'
  end.

Definition ascii_json_dumps_str (s : string) : string :=
  dq +:+ escape_string s +:+ dq.

Definition manifest_text (media_type : string) : string :=
  "{" +:+ dq +:+ "schemaVersion" +:+ dq +:+ ": 2, " +:+
  dq +:+ "mediaType" +:+ dq +:+ ": " +:+ dq +:+ media_type +:+ dq +:+ "}".

Definition manifest_value (media_type : string) : pyvalue :=
  PyDict [("schemaVersion", PyInt 2); ("mediaType", PyStr media_type)].

Definition table_json_load (content : list byte) : load_result :=
  let text := String.string_of_list_byte content in
  if decide (text = manifest_text DOCKER_MANIFEST_V2)
  then Loaded (manifest_value DOCKER_MANIFEST_V2)
  else if decide (text = manifest_text OCI_MANIFEST_V1)
  then Loaded (manifest_value OCI_MANIFEST_V1)
  else if decide (text = "[1]") then Loaded (PyList [PyInt 1])
  else if decide (text = "{}") then Loaded (PyDict [])
  else JSONDecodeError.

Definition table_json : JsonLib :=
  {| json_load := table_json_load; json_dumps_str := ascii_json_dumps_str |}.

Definition manifest_file (media_type : string) : node :=
  File (String.list_byte_of_string (manifest_text media_type)).

(** [app/v1] and [app/v2] hold the same manifest; [lib/x] holds none. *)
Definition tree_app : node :=
  Dir [("app", Dir [("v2", Dir [("manifest.json", manifest_file DOCKER_MANIFEST_V2)]);
                    ("v1", Dir [("manifest.json", manifest_file DOCKER_MANIFEST_V2)])]);
       ("lib", Dir [("x", Dir [])])].

(** The same tree, listed by the file system in another order. *)
Definition tree_app_relisted : node :=
  Dir [("lib", Dir [("x", Dir [])]);
       ("app", Dir [("v1", Dir [("manifest.json", manifest_file DOCKER_MANIFEST_V2)]);
                    ("v2", Dir [("manifest.json", manifest_file DOCKER_MANIFEST_V2)])])].

(** [tree_app] after [app/v2/manifest.json] was removed. *)
Definition tree_app_v2_gone : node :=
  Dir [("app", Dir [("v2", Dir []);
                    ("v1", Dir [("manifest.json", manifest_file DOCKER_MANIFEST_V2)])]);
       ("lib", Dir [("x", Dir [])])].

(** An image whose manifest is the JSON array [[1]]. *)
Definition tree_array_manifest : node :=
  Dir [("app", Dir [("v1", Dir [("manifest.json",
                                 File (String.list_byte_of_string "[1]"))])])].

(** Two images, three tags, one and the same manifest. *)
Definition tree_two_images : node :=
  Dir [("foo", Dir [("v1", Dir [("manifest.json", manifest_file OCI_MANIFEST_V1)])]);
       ("bar", Dir [("v2", Dir [("manifest.json", manifest_file OCI_MANIFEST_V1)]);
                    ("v1", Dir [("manifest.json", manifest_file OCI_MANIFEST_V1)])])].

Definition found_two_images : list (string * string * string) :=
  [("foo", "v1", OCI_MANIFEST_V1);
   ("bar", "v2", OCI_MANIFEST_V1);
   ("bar", "v1", OCI_MANIFEST_V1)].

Definition images_two : gmap string (gmap string string) :=
  collect_images found_two_images.

Definition tags_bar : gmap string string :=
  <["v1" := OCI_MANIFEST_V1]> (<["v2" := OCI_MANIFEST_V1]> ∅).

(** The SHA-256 of the OCI manifest of the examples. *)
Definition oci_digest : string :=
  "d69e8ea6ee409e20a594645cd05d6eb0cb313e540f4d027a6492ad588aa2faff".

(** ** What the statements observe *)

(** The (name, tag) pair of a discovered entry. *)
Definition found_key (x : string * string * string) : string * string :=
  (x.1.1, x.1.2).

(** A discovery result in which a (name, tag) pair has one media type. *)
Definition functional_found (found : list (string * string * string)) : Prop :=
  ∀ x y, x ∈ found → y ∈ found → found_key x = found_key y → x = y.

(** The image a fragment belongs to, and its tag when it is about one. *)
Definition frag_name (f : fragment) : option string :=
  match f with
  | Constants => None
  | TagsList name _ _ => Some name
  | ManifestByTag name _ _ _ _ _ => Some name
  | ManifestByDigest name _ _ _ _ _ => Some name
  | DigestAlreadyServed name _ => Some name
  | Blobs _ _ name _ => Some name
  end.

Definition frag_tag (f : fragment) : option string :=
  match f with
  | ManifestByTag _ tag _ _ _ _ => Some tag
  | ManifestByDigest _ tag _ _ _ _ => Some tag
  | DigestAlreadyServed _ tag => Some tag
  | _ => None
  end.

(** The tag-addressed manifest routes of image [name]. *)
Definition is_tag_route (name : string) (f : fragment) : bool :=
  match f with
  | ManifestByTag n _ _ _ _ _ => bool_decide (n = name)
  | _ => false
  end.

(** The digest-addressed manifest routes of image [name] for [digest]. *)
Definition is_digest_route (name digest : string) (f : fragment) : bool :=
  match f with
  | ManifestByDigest n _ _ _ d _ => bool_decide (n = name) && bool_decide (d = digest)
  | _ => false
  end.

(** The blob routes of image [name]. *)
Definition is_blob_route (name : string) (f : fragment) : bool :=
  match f with
  | Blobs _ _ n _ => bool_decide (n = name)
  | _ => false
  end.

(** The manifest fragments (routes and comments) of image [name]. *)
Definition is_manifest_fragment (name : string) (f : fragment) : bool :=
  match f with
  | ManifestByTag n _ _ _ _ _ | ManifestByDigest n _ _ _ _ _
  | DigestAlreadyServed n _ => bool_decide (n = name)
  | _ => false
  end.

(** The digest that [create_config] computes for a tag (line 139). *)
Definition digest_of (fs : node) (root : path) (name tag : string) : res string :=
  compute_digest fs (os_path_join root [name; tag; MANIFEST_JSON]).

(** All the manifests of the items of image [name] can be read. *)
Definition readable (fs : node) (root : path) (name : string)
    (items : list (string * string)) : Prop :=
  Forall (λ item, ∃ d, digest_of fs root name item.1 = Ok d) items.

#[global] Instance exn_eq_dec : EqDecision exn.
Proof. solve_decision. Defined.
#[global] Instance res_eq_dec `{EqDecision A} : EqDecision (res A).
Proof. solve_decision. Defined.
#[global] Instance fragment_eq_dec : EqDecision fragment.
Proof. solve_decision. Defined.

Definition all_readable (fs : node) (root : path)
    (images : gmap string (gmap string string)) : Prop :=
  ∀ name tags tag media_type,
    images !! name = Some tags → tags !! tag = Some media_type →
    ∃ d, digest_of fs root name tag = Ok d.

(** An exact-match [location] block for [uri] with the directives [body]. *)
Definition exact_location (uri body : string) : string :=
  nl +:+ "location = " +:+ dq +:+ uri +:+ dq +:+ " {" +:+ nl +:+ body +:+ "}" +:+ nl.

(** The directives that serve the manifest of [name]:[tag]: the file
    [manifest.json] of the tag's directory under the server root, with the
    tag's media type as content type and the digest header, and the
    [@404_tag] fallback when the file is missing. *)
Definition serve_manifest (server_root name tag media_type digest : string)
  : string :=
  "    alias " +:+ server_root +:+ "/" +:+ name +:+ "/" +:+ tag +:+ "/;" +:+ nl +:+
  "    types { } default_type " +:+ dq +:+ media_type +:+ dq +:+ ";" +:+ nl +:+
  "    add_header 'Docker-Content-Digest' 'sha256:" +:+ digest +:+ "';" +:+ nl +:+
  "    try_files manifest.json =404;" +:+ nl +:+
  "    error_page 404 @404_tag;" +:+ nl.

(** The [@404_tag] handler declared among the constants. *)
Definition handler_404_tag : string :=
  "location @404_tag {" +:+ nl +:+
  "    internal;" +:+ nl +:+
  "    types { } default_type " +:+ dq +:+ "application/json" +:+ dq +:+ ";" +:+ nl +:+
  "    return 404 '" +:+ tag_invalid +:+ "';" +:+ nl +:+
  "}" +:+ nl.

(** The regular expression of the blob route of an image. *)
Definition blob_pattern (name_prefix name : string) : string :=
  "/v2/" +:+ name_prefix +:+ name +:+ "/blobs/sha256:([a-f0-9]{64})".

(** A regular-expression [location] block that serves from the image's
    directory the first of [paths] that exists, and 404 otherwise. *)
Definition regex_location_try_files (pattern server_root name paths : string)
  : string :=
  nl +:+ "location ~ " +:+ dq +:+ pattern +:+ dq +:+ " {" +:+ nl +:+
  "    alias " +:+ server_root +:+ "/" +:+ name +:+ "/;" +:+ nl +:+
  "    try_files " +:+ paths +:+ " =404;" +:+ nl +:+
  "}" +:+ nl.

(** The first, and the last, character of [s] is [c]. *)
Definition starts_with (c : ascii) (s : string) : Prop :=
  match s with
  | String a _ => a = c
  | EmptyString => False
  end.

Fixpoint ends_with (c : ascii) (s : string) : Prop :=
  match s with
  | EmptyString => False
  | String a EmptyString => a = c
  | String _ s' => ends_with c s'
  end.

(** The pattern of the location that a route declares. *)
Definition frag_location (f : fragment) : option string :=
  match f with
  | TagsList name name_prefix _ =>
      Some ("/v2/" +:+ name_prefix +:+ name +:+ "/tags/list")
  | ManifestByTag name tag _ name_prefix _ _ =>
      Some ("/v2/" +:+ name_prefix +:+ name +:+ "/manifests/" +:+ tag)
  | ManifestByDigest name _ _ name_prefix digest _ =>
      Some ("/v2/" +:+ name_prefix +:+ name +:+ "/manifests/sha256:" +:+ digest)
  | Blobs name_prefix _ name _ => Some (blob_pattern name_prefix name)
  | Constants | DigestAlreadyServed _ _ => None
  end.

(** A parsed manifest that discovery accepts, in the words of the
    specification: a truthy value that has [schemaVersion] equal to 2 and
    a [mediaType] that is one of the two supported ones. *)
Definition valid_manifest (data : pyvalue) (media_type : string) : Prop :=
  truthy data = true
  ∧ ∃ items,
      data = PyDict items
      ∧ py_eq_int (default PyNone (dict_lookup "schemaVersion" items)) 2 = true
      ∧ dict_lookup "mediaType" items = Some (PyStr media_type)
      ∧ media_type ∈ [DOCKER_MANIFEST_V2; OCI_MANIFEST_V1].

(** [root/name] and [root/name/tag] are directories, and
    [root/name/tag/manifest.json] is a file that parses to a valid
    manifest of the given media type. *)
Definition discoverable `{JsonLib} (fs : node) (root : path)
    (name tag media_type : string) : Prop :=
  os_path_isdir fs (os_path_join root [name]) = true
  ∧ os_path_isdir fs (os_path_join root [name; tag]) = true
  ∧ ∃ content data,
      open_read fs (os_path_join root [name; tag; MANIFEST_JSON]) = Ok content
      ∧ json_load content = Loaded data
      ∧ valid_manifest data media_type.

(** No manifest under [root] makes [json.load] raise anything but
    [JSONDecodeError], and none parses to a truthy value that is not an
    object. *)
Definition objects_only `{JsonLib} (fs : node) (root : path) : Prop :=
  ∀ name tag content,
    open_read fs (os_path_join root [name; tag; MANIFEST_JSON]) = Ok content →
    match json_load content with
    | Loaded data => truthy data = true → ∃ items, data = PyDict items
    | JSONDecodeError => True
    | LoadRaises _ => False
    end.

(** The command line [--name-prefix p], with a server root. *)
Definition args_prefix (p : option string) : cli_args :=
  CliArgs p false false (Some "/srv") [].

(** C8 as it is stated: for a non-empty prefix [p], every route is rooted
    at [/v2/], the stripped prefix, one slash, and the name. *)
Definition name_prefix_claim_as_stated `{JsonLib} (p : string) : Prop :=
  p ≠ EmptyString →
  ∀ fs_scan fs_emit root server_root with_constants only_constants f uri,
    f ∈ yielded (create_config_fragments fs_scan fs_emit root server_root
                   (main_name_prefix (args_prefix (Some p)))
                   with_constants only_constants) →
    frag_location f = Some uri →
    ∃ name rest,
      frag_name f = Some name
      ∧ uri = "/v2/" +:+ strip slash p +:+ "/" +:+ name +:+ "/" +:+ rest.

(** ** What the further properties observe *)

(** The directory [p], when it can be listed, lists every name once. *)
Definition listed_once (fs : node) (p : path) : Prop :=
  ∀ names, os_listdir fs p = Ok names → NoDup names.

(** The comments of image [name], and its digest-addressed routes whatever
    the digest. *)
Definition is_comment (name : string) (f : fragment) : bool :=
  match f with
  | DigestAlreadyServed n _ => bool_decide (n = name)
  | _ => false
  end.

Definition is_by_digest (name : string) (f : fragment) : bool :=
  match f with
  | ManifestByDigest n _ _ _ _ _ => bool_decide (n = name)
  | _ => false
  end.

(** The command line [args] with [--name-prefix] replaced. *)
Definition with_name_prefix (p : option string) (args : cli_args) : cli_args :=
  CliArgs p (arg_omit_constants args) (arg_only_constants args)
    (arg_server_root args) (arg_root args).

(** ** The older script, [static-container-registry.py]

    The repository still carries the script as it was before manifests
    got a route each: it accepts Docker manifests only, serves every
    manifest from one regular-expression location, and keeps the tags of
    an image in a set.  Its dictionary [images] is not sorted when the
    routes are written: a [dict] is gone through in the order in which the
    keys were inserted. *)

Module Legacy.

Inductive fragment :=
| Constants
| ManifestsLocation (server_root name_prefix : string)
| TagsList (name name_prefix payload : string)
| Blobs (name_prefix server_root name paths : string).

(** The constants are a plain string here, and do not hold the handler
    [@404_tag]. *)
Definition CONSTANTS : string :=
  nl +:+
  "location = /v2 {" +:+ nl +:+
  "    return 301 /v2/;" +:+ nl +:+
  "}" +:+ nl +:+
  nl +:+
  "location = /v2/ {" +:+ nl +:+
  "    return 200 'ok';" +:+ nl +:+
  "}" +:+ nl.

Definition manifests_location (server_root name_prefix : string) : string :=
  nl +:+
  "location @404_tag {" +:+ nl +:+
  "    internal;" +:+ nl +:+
  "    types { } default_type " +:+ dq +:+ "application/json" +:+ dq +:+ ";" +:+ nl +:+
  "    return 404 '" +:+ tag_invalid +:+ "';" +:+ nl +:+
  "}" +:+ nl +:+
  nl +:+
  "location ~ " +:+ dq +:+ "/v2/" +:+ lstrip slash name_prefix +:+
    "(.*" +:+ ")/manifests/(.*" +:+ ")" +:+ dq +:+ " {" +:+ nl +:+
  "    # `$http_accept` is only the *first* `Accept` header :-/" +:+ nl +:+
  "    #if ($http_accept !~* " +:+ dq +:+
    "application/vnd.docker.distribution.manifest.v2+json" +:+ dq +:+ ") {" +:+ nl +:+
  "    #    return 406;" +:+ nl +:+
  "    #}" +:+ nl +:+
  nl +:+
  "    alias " +:+ server_root +:+ "/;" +:+ nl +:+
  "    types { } default_type " +:+ dq +:+
    "application/vnd.docker.distribution.manifest.v2+json" +:+ dq +:+ ";" +:+ nl +:+
  "    try_files $1/$2/manifest.json =404;" +:+ nl +:+
  "    error_page 404 @404_tag;" +:+ nl +:+
  "}" +:+ nl.

Definition render (f : fragment) : string :=
  match f with
  | Constants => CONSTANTS
  | ManifestsLocation server_root name_prefix =>
      manifests_location server_root name_prefix
  | TagsList name name_prefix payload =>
      nl +:+
      "location = /v2/" +:+ name_prefix +:+ name +:+ "/tags/list {" +:+ nl +:+
      "    types { } default_type " +:+ dq +:+ "application/json" +:+ dq +:+ ";" +:+ nl +:+
      "    return 200 '" +:+ payload +:+ "';" +:+ nl +:+
      "}" +:+ nl
  | Blobs name_prefix server_root name paths =>
      nl +:+
      "location ~ " +:+ dq +:+ "/v2/" +:+ name_prefix +:+ name +:+
        "/blobs/sha256:([a-f0-9]{64})" +:+ dq +:+ " {" +:+ nl +:+
      "    alias " +:+ server_root +:+ "/" +:+ name +:+ "/;" +:+ nl +:+
      "    try_files " +:+ paths +:+ " =404;" +:+ nl +:+
      "}" +:+ nl
  end.

(** [v != s] for a string [s] *)
Definition py_ne_str (v : pyvalue) (s : string) : bool :=
  match v with
  | PyStr x => negb (bool_decide (x = s))
  | _ => true
  end.

(** [images.setdefault(name, set()).add(tag)]: a new name goes to the end
    of the dictionary, a known one stays where it is. *)
Fixpoint add_image (images : list (string * gset string)) (name tag : string)
  : list (string * gset string) :=
  match images with
  | [] => [(name, {[tag]})]
  | (n, tags) :: rest =>
      if decide (n = name) then (n, {[tag]} ∪ tags) :: rest
      else (n, tags) :: add_image rest name tag
  end.

Definition collect_images (found : list (string * string))
  : list (string * gset string) :=
  fold_left (λ images x, add_image images x.1 x.2) found [].

(** [sorted(tags)] *)
Definition sorted_tags (tags : gset string) : list string :=
  merge_sort String.le (elements tags).

Section Script.
Context `{JsonLib}.

(** [json.load] on the bytes of a file that was opened with
    [open(manifest, 'r')]: the text is decoded as the locale has it, not
    as UTF-8. *)
Variable locale_load : list byte → load_result.

(** The [with open(manifest, 'r')] block of [find_images]. *)
Definition load_manifest (fs : node) (manifest : path) : res pyvalue :=
  match open_read fs manifest with
  | Raise e => Raise e
  | Ok content =>
      match locale_load content with
      | Loaded data => Ok data
      | JSONDecodeError => Ok PyNone
      | LoadRaises e => Raise e
      end
  end.

(** The body of the loop [for tag in os.listdir(curr)]. *)
Definition find_images_tag (fs : node) (root : path) (name tag : string)
  : gen (string * string) :=
  let curr := os_path_join root [name; tag] in
  if negb (os_path_isdir fs curr) then gen_return else
  let manifest := os_path_join curr [MANIFEST_JSON] in
  if negb (os_path_isfile fs manifest) then gen_return else
  match load_manifest fs manifest with
  | Raise e => gen_raise e
  | Ok data =>
      if negb (truthy data) then gen_return else
      match py_get data "schemaVersion" with
      | Raise e => gen_raise e
      | Ok schema_version =>
          if negb (py_eq_int schema_version 2) then gen_return else
          match py_get data "mediaType" with
          | Raise e => gen_raise e
          | Ok media_type =>
              if py_ne_str media_type DOCKER_MANIFEST_V2 then gen_return
              else gen_yield (name, tag)
          end
      end
  end.

(** The body of the loop [for name in os.listdir(root)]. *)
Definition find_images_name (fs : node) (root : path) (name : string)
  : gen (string * string) :=
  let curr := os_path_join root [name] in
  if negb (os_path_isdir fs curr) then gen_return else
  match os_listdir fs curr with
  | Raise e => gen_raise e
  | Ok tags => gen_for tags (find_images_tag fs root name)
  end.

Definition find_images (fs : node) (root : path) : gen (string * string) :=
  match os_listdir fs root with
  | Raise e => gen_raise e
  | Ok names => gen_for names (find_images_name fs root)
  end.

(** The body of the loop [for (name, tags) in images.items()]. *)
Definition image_routes (server_root name_prefix : string)
    (image : string * gset string) : gen fragment :=
  let '(name, tags) := image in
  gen_yield (TagsList name (lstrip slash name_prefix)
               (json_dumps_tag_list name (sorted_tags tags))) ;;;
  gen_yield (Blobs (lstrip slash name_prefix) server_root name
               (join " " ((λ tag, tag +:+ "/$1") <$> sorted_tags tags))).

Definition create_config_fragments (fs : node) (root : path)
    (server_root name_prefix : string) : gen fragment :=
  gen_yield Constants ;;;
  gen_yield (ManifestsLocation server_root name_prefix) ;;;
  let found := find_images fs root in
  match raised found with
  | Some e => gen_raise e
  | None =>
      gen_for (collect_images (yielded found))
        (image_routes server_root name_prefix)
  end.

Definition create_config (fs : node) (root : path)
    (server_root name_prefix : string) : gen string :=
  let g := create_config_fragments fs root server_root name_prefix in
  Gen (render <$> yielded g) (raised g).

End Script.
End Legacy.

(** The names of a list in the order in which they first occur. *)
Fixpoint first_occurrences (l : list string) : list string :=
  match l with
  | [] => []
  | x :: l' => x :: filter (λ y, y ≠ x) (first_occurrences l')
  end.

(** The tags that a discovery of the older script found for [name]. *)
Definition tags_found (found : list (string * string)) (name : string)
  : gset string :=
  list_to_set (omap (λ x, if decide (x.1 = name) then Some x.2 else None) found).

(** The entry of the older script for a discovered entry of the current
    one: Docker manifests only, without the media type. *)
Definition docker_only (x : string * string * string) : option (string * string) :=
  if decide (x.2 = DOCKER_MANIFEST_V2) then Some x.1 else None.

(** The fragment of the current script that has the text of a fragment of
    the older one, for the two fragments of an image. *)
Definition current_fragment (f : Legacy.fragment) : option fragment :=
  match f with
  | Legacy.TagsList name name_prefix payload =>
      Some (TagsList name name_prefix payload)
  | Legacy.Blobs name_prefix server_root name paths =>
      Some (Blobs name_prefix server_root name paths)
  | _ => None
  end.

(** [zoo] is listed before [app], and [app/b] holds an OCI manifest. *)
Definition tree_mixed : node :=
  Dir [("zoo", Dir [("1", Dir [("manifest.json", manifest_file DOCKER_MANIFEST_V2)])]);
       ("app", Dir [("b", Dir [("manifest.json", manifest_file OCI_MANIFEST_V1)]);
                    ("a", Dir [("manifest.json", manifest_file DOCKER_MANIFEST_V2)])])].

(** A run [g1] that is [g2] cut short: the same run, or one that an
    exception ended after it had yielded a part of what [g2] yields, from
    the start. *)
Definition cut_short {A} (g1 g2 : gen A) : Prop :=
  g1 = g2 ∨ (is_Some (raised g1) ∧ yielded g1 `prefix_of` yielded g2).

(** * Verification *)

(** ** Generators *)

Section gen_facts.
Context {A : Type}.
Implicit Types (g : gen A) (x : A).

Lemma gen_seq_return_l g : gen_return ;;; g = g.
Proof. by destruct g. Qed.

Lemma gen_seq_raised_l g1 g2 e : raised g1 = Some e → g1 ;;; g2 = g1.
Proof. unfold gen_seq. by intros ->. Qed.

Lemma gen_seq_yield x g : gen_yield x ;;; g = Gen (x :: yielded g) (raised g).
Proof. done. Qed.

Lemma raised_seq_None g1 g2 :
  raised (g1 ;;; g2) = None ↔ raised g1 = None ∧ raised g2 = None.
Proof.
  unfold gen_seq. destruct (raised g1) eqn:E; simpl; [rewrite E|]; naive_solver.
Qed.

Lemma yielded_seq_None g1 g2 :
  raised g1 = None → yielded (g1 ;;; g2) = yielded g1 ++ yielded g2.
Proof. unfold gen_seq. by intros ->. Qed.

Lemma yielded_seq_prefix g1 g2 :
  yielded g1 `prefix_of` yielded (g1 ;;; g2).
Proof.
  unfold gen_seq. destruct (raised g1); simpl; [done|]. by apply prefix_app_r.
Qed.

Lemma elem_of_yielded_seq x g1 g2 :
  x ∈ yielded (g1 ;;; g2) → x ∈ yielded g1 ∨ x ∈ yielded g2.
Proof.
  unfold gen_seq. destruct (raised g1); simpl; [by left|].
  by rewrite elem_of_app.
Qed.

Lemma seq_raised_Some g1 g2 e :
  raised g2 = Some e → is_Some (raised (g1 ;;; g2)).
Proof.
  unfold gen_seq. destruct (raised g1) eqn:E; simpl; [rewrite E|]; eauto.
Qed.
End gen_facts.

Section gen_for_facts.
Context {A B : Type}.
Implicit Types (l : list A) (body : A → gen B).

Lemma raised_gen_for_None l body :
  raised (gen_for l body) = None ↔ Forall (λ x, raised (body x) = None) l.
Proof.
  induction l as [|x l IH]; simpl.
  - split; [constructor|done].
  - rewrite raised_seq_None, Forall_cons. by rewrite IH.
Qed.

Lemma yielded_gen_for_None l body :
  raised (gen_for l body) = None →
  yielded (gen_for l body) = l ≫= (λ x, yielded (body x)).
Proof.
  induction l as [|x l IH]; simpl; [done|].
  intros [??]%raised_seq_None. rewrite yielded_seq_None by done.
  by rewrite IH.
Qed.

Lemma yielded_gen_for_prefix l body :
  yielded (gen_for l body) `prefix_of` l ≫= (λ x, yielded (body x)).
Proof.
  induction l as [|x l IH]; simpl; [done|].
  unfold gen_seq. destruct (raised (body x)); simpl.
  - by apply prefix_app_r.
  - by apply prefix_app.
Qed.

Lemma elem_of_yielded_gen_for y l body :
  y ∈ yielded (gen_for l body) → ∃ x, x ∈ l ∧ y ∈ yielded (body x).
Proof.
  intros Hy. eapply elem_of_prefix in Hy; [|apply yielded_gen_for_prefix].
  apply list_elem_of_bind in Hy. naive_solver.
Qed.

Lemma gen_for_raised_Some l body x e :
  x ∈ l → raised (body x) = Some e → is_Some (raised (gen_for l body)).
Proof.
  intros Hx He. destruct (raised (gen_for l body)) eqn:E; [eauto|].
  apply raised_gen_for_None in E. rewrite Forall_forall in E.
  specialize (E x Hx). congruence.
Qed.

Lemma gen_for_ext l body1 body2 :
  (∀ x, x ∈ l → body1 x = body2 x) → gen_for l body1 = gen_for l body2.
Proof.
  induction l as [|x l IH]; simpl; [done|]. intros Hb.
  rewrite Hb by left. f_equal. apply IH. intros. apply Hb. by right.
Qed.
End gen_for_facts.

(** ** [compute_digest] *)

Section read_loop.
Variable size : nat.
Hypothesis size_pos : (0 < size)%nat.

Lemma is_nil_take_false (l : list byte) : l ≠ [] → is_nil (take size l) = false.
Proof. destruct size, l; simpl; (done || lia). Qed.

Lemma length_drop_lt (l : list byte) :
  l ≠ [] → (length (drop size l) < length l)%nat.
Proof. intros ?. rewrite length_drop. destruct l; cbn [length]; [done|lia]. Qed.

(** With enough reads allowed for, the loop ends on the empty read,
    having fed the digest the whole file. *)
Lemma read_loop_feeds_all (fuel : nat) (file : list byte) (d : sha256_obj) :
  (length file < fuel)%nat → read_loop size fuel file d = update d file.
Proof.
  revert file d. induction fuel as [|fuel IH]; intros file d Hlen; [lia|].
  cbn [read_loop]. destruct (decide (file = [])) as [->|Hne].
  - rewrite take_nil. destruct d. unfold update. cbn. by rewrite app_nil_r.
  - rewrite is_nil_take_false by done.
    rewrite IH.
    + unfold update. cbn [fed]. by rewrite <-(assoc_L (++)), take_drop.
    + pose proof (length_drop_lt file Hne). lia.
Qed.

Lemma read_loop_fuel (fuel1 fuel2 : nat) (file : list byte) (d : sha256_obj) :
  (length file < fuel1)%nat → (length file < fuel2)%nat →
  read_loop size fuel1 file d = read_loop size fuel2 file d.
Proof. intros. by rewrite !read_loop_feeds_all. Qed.




End read_loop.





Lemma compute_digest_content (fs : node) (filename : path) (content : list byte) :
  open_read fs filename = Ok content →
  compute_digest fs filename = Ok (SHA256.hexdigest content).
Proof.
  unfold compute_digest. intros ->.
  rewrite read_loop_feeds_all by lia. done.
Qed.

Lemma compute_digest_raise (fs : node) (filename : path) (e : exn) :
  open_read fs filename = Raise e → compute_digest fs filename = Raise e.
Proof. unfold compute_digest. by intros ->. Qed.


(** ** [sorted] on the items and keys of a dictionary *)

Section sorted_dict.
Context {V : Type}.
Implicit Types (d : gmap string V) (k : string) (v : V).

#[local] Instance item_le_trans : Transitive (@item_le V).
Proof. intros x y z. unfold item_le. apply transitivity. Qed.
#[local] Instance item_le_total : Total (@item_le V).
Proof. intros x y. unfold item_le. apply total, _. Qed.

Lemma sorted_items_perm d : sorted_items d ≡ₚ map_to_list d.
Proof. apply merge_sort_Permutation. Qed.

Lemma elem_of_sorted_items d k v : (k, v) ∈ sorted_items d ↔ d !! k = Some v.
Proof. by rewrite sorted_items_perm, elem_of_map_to_list. Qed.

Lemma sorted_items_sorted d : StronglySorted item_le (sorted_items d).
Proof. apply StronglySorted_merge_sort; apply _. Qed.

Lemma sorted_items_NoDup d : NoDup (sorted_items d).*1.
Proof. rewrite sorted_items_perm. apply NoDup_fst_map_to_list. Qed.

Lemma sorted_keys_perm d : sorted_keys d ≡ₚ (map_to_list d).*1.
Proof. apply merge_sort_Permutation. Qed.

Lemma sorted_keys_sorted d : StronglySorted String.le (sorted_keys d).
Proof. apply StronglySorted_merge_sort; apply _. Qed.

Lemma sorted_keys_NoDup d : NoDup (sorted_keys d).
Proof. rewrite sorted_keys_perm. apply NoDup_fst_map_to_list. Qed.

Lemma elem_of_sorted_keys d k : k ∈ sorted_keys d ↔ is_Some (d !! k).
Proof.
  rewrite sorted_keys_perm, list_elem_of_fmap. split.
  - intros ([k' v] & -> & Hkv). apply elem_of_map_to_list in Hkv. eauto.
  - intros [v Hv]. exists (k, v). by rewrite elem_of_map_to_list.
Qed.

(** The keys of the sorted items are the sorted keys: both iterations of
    a dictionary visit the keys in the same order. *)
Lemma sorted_items_keys d : (sorted_items d).*1 = sorted_keys d.
Proof.
  apply (StronglySorted_unique String.le).
  - apply (StronglySorted_fmap fst item_le String.le); [by intros [][]|].
    apply sorted_items_sorted.
  - apply sorted_keys_sorted.
  - by rewrite sorted_items_perm, sorted_keys_perm.
Qed.

(** Any sorted listing of the items is [sorted_items]: the order of the
    output does not depend on how [sorted] sorts. *)
Lemma sorted_items_unique d (l : list (string * V)) :
  l ≡ₚ map_to_list d → Sorted item_le l → l = sorted_items d.
Proof.
  intros Hl Hs. apply (Sorted_unique_strong item_le).
  - intros [k1 v1] [k2 v2] H1 H2 Hle1 Hle2. unfold item_le in *. simpl in *.
    assert (k1 = k2) as -> by by apply (anti_symm String.le).
    rewrite Hl in H1. apply elem_of_sorted_items in H2.
    apply elem_of_map_to_list in H1. congruence.
  - done.
  - apply Sorted_merge_sort, _.
  - by rewrite sorted_items_perm.
Qed.
End sorted_dict.

(** ** The dictionary [images] *)

Lemma collect_images_snoc found x :
  collect_images (found ++ [x]) = add_image (collect_images found) x.
Proof. unfold collect_images. by rewrite fold_left_app. Qed.

Lemma add_image_comm images x y :
  found_key x ≠ found_key y ∨ x = y →
  add_image (add_image images x) y = add_image (add_image images y) x.
Proof.
  destruct x as [[n1 t1] m1], y as [[n2 t2] m2]. unfold found_key. simpl.
  intros [Hne|[= -> -> ->]]; [|done].
  destruct (decide (n1 = n2)) as [->|Hn].
  - assert (t1 ≠ t2) by congruence.
    rewrite !lookup_insert_eq. simpl. rewrite !insert_insert_eq.
    f_equal. by apply insert_insert_ne.
  - rewrite !(lookup_insert_ne _ n1 n2), !(lookup_insert_ne _ n2 n1) by done.
    by apply insert_insert_ne.
Qed.

Lemma collect_images_perm found1 found2 :
  functional_found found1 → found1 ≡ₚ found2 →
  collect_images found1 = collect_images found2.
Proof.
  intros Hfun Hperm. unfold collect_images.
  rewrite <-!fold_left_rev_right.
  apply (foldr_permutation (=) (λ x images, add_image images x) ∅).
  - intros j1 x1 j2 x2 images _ H1 H2. apply add_image_comm.
    apply list_elem_of_lookup_2, list_elem_of_In, in_rev, list_elem_of_In in H1.
    apply list_elem_of_lookup_2, list_elem_of_In, in_rev, list_elem_of_In in H2.
    destruct (decide (found_key x2 = found_key x1)) as [Heq|]; [|by left].
    right. by apply Hfun.
  - by rewrite <-!Permutation_rev.
Qed.

Lemma collect_images_elem_of found name tag media_type :
  (name, tag, media_type) ∈ found →
  ∃ tags, collect_images found !! name = Some tags ∧ is_Some (tags !! tag).
Proof.
  induction found as [|[[n t] m] found IH] using rev_ind.
  { by intros ?%elem_of_nil. }
  rewrite collect_images_snoc. simpl.
  intros [Hin|Hin%list_elem_of_singleton]%elem_of_app.
  - destruct (IH Hin) as (tags & Htags & Htag).
    destruct (decide (n = name)) as [->|Hn].
    + rewrite lookup_insert_eq, Htags. simpl. eexists; split; [done|].
      destruct (decide (t = tag)) as [->|Ht].
      * rewrite lookup_insert_eq. eauto.
      * by rewrite lookup_insert_ne.
    + rewrite lookup_insert_ne by done. eauto.
  - simplify_eq. rewrite lookup_insert_eq. eexists; split; [done|].
    rewrite lookup_insert_eq. eauto.
Qed.

Lemma collect_images_lookup found name tags tag media_type :
  collect_images found !! name = Some tags → tags !! tag = Some media_type →
  (name, tag, media_type) ∈ found.
Proof.
  revert tags. induction found as [|[[n t] m] found IH] using rev_ind.
  { intros tags. unfold collect_images. simpl. by rewrite lookup_empty. }
  intros tags. rewrite collect_images_snoc. simpl.
  rewrite elem_of_app, list_elem_of_singleton.
  destruct (decide (n = name)) as [->|Hn].
  - rewrite lookup_insert_eq. intros [= <-].
    destruct (decide (t = tag)) as [->|Ht].
    + rewrite lookup_insert_eq. intros [= ->]. by right.
    + rewrite lookup_insert_ne by done.
      destruct (collect_images found !! name) as [tags'|] eqn:E; simpl.
      * intros ?. left. by eapply IH.
      * by rewrite lookup_empty.
  - rewrite lookup_insert_ne by done. intros ??. left. by eapply IH.
Qed.

Lemma collect_images_nonempty found name tags :
  collect_images found !! name = Some tags → ∃ tag media_type, tags !! tag = Some media_type.
Proof.
  revert tags. induction found as [|[[n t] m] found IH] using rev_ind.
  { intros tags. unfold collect_images. simpl. by rewrite lookup_empty. }
  intros tags. rewrite collect_images_snoc. simpl.
  destruct (decide (n = name)) as [->|Hn].
  - rewrite lookup_insert_eq. intros [= <-]. exists t, m. apply lookup_insert_eq.
  - rewrite lookup_insert_ne by done. apply IH.
Qed.

Lemma collect_images_tags found name tags tag :
  collect_images found !! name = Some tags →
  is_Some (tags !! tag) ↔ ∃ media_type, (name, tag, media_type) ∈ found.
Proof.
  intros Himage. split.
  - intros [mt Htag]. exists mt. by eapply collect_images_lookup.
  - intros [mt (tags' & Himage' & Htag)%collect_images_elem_of].
    by simplify_eq.
Qed.

(** ** The manifest routes of one image *)

Section manifest_routes.
Variables (fs : node) (root : path) (server_root name_prefix name : string).

Abbreviation routes := (manifest_routes fs root server_root name_prefix name).
Abbreviation dg := (digest_of fs root name).
Abbreviation by_tag item d :=
  (ManifestByTag name item.1 item.2 (lstrip slash name_prefix) d server_root).
Abbreviation by_digest item d :=
  (ManifestByDigest name item.1 item.2 (lstrip slash name_prefix) d server_root).

Lemma routes_cons_ok tag media_type rest seen d :
  dg tag = Ok d →
  routes ((tag, media_type) :: rest) seen
  = Gen (by_tag (tag, media_type) d
         :: (if bool_decide (d ∉ seen) then by_digest (tag, media_type) d
             else DigestAlreadyServed name tag)
         :: yielded (routes rest ({[d]} ∪ seen)))
        (raised (routes rest ({[d]} ∪ seen))).
Proof.
  unfold digest_of. intros Hd. cbn [manifest_routes]. rewrite Hd.
  by destruct (bool_decide (d ∉ seen)).
Qed.

Lemma routes_cons_raise tag media_type rest seen e :
  dg tag = Raise e → routes ((tag, media_type) :: rest) seen = gen_raise e.
Proof. unfold digest_of. intros Hd. cbn [manifest_routes]. by rewrite Hd. Qed.

Lemma routes_raised_None items seen :
  raised (routes items seen) = None ↔ readable fs root name items.
Proof.
  unfold readable. revert seen.
  induction items as [|[tag mt] items IH]; intros seen.
  { split; [constructor|done]. }
  rewrite Forall_cons. destruct (dg tag) as [d|e] eqn:Hd.
  - rewrite (routes_cons_ok _ _ _ _ d) by done. simpl. rewrite IH, Hd.
    naive_solver.
  - rewrite (routes_cons_raise _ _ _ _ e) by done. simpl. rewrite Hd.
    naive_solver.
Qed.

(** Every fragment comes from an item whose digest was computed. *)
Lemma routes_elem_of f items seen :
  f ∈ yielded (routes items seen) →
  ∃ item d, item ∈ items ∧ dg item.1 = Ok d ∧
    (f = by_tag item d ∨ f = by_digest item d
     ∨ f = DigestAlreadyServed name item.1).
Proof.
  revert seen. induction items as [|[tag mt] items IH]; intros seen.
  { by intros ?%elem_of_nil. }
  destruct (dg tag) as [d|e] eqn:Hd.
  - rewrite (routes_cons_ok _ _ _ _ d) by done. simpl.
    rewrite !elem_of_cons. intros [->|[->|Hf]].
    + exists (tag, mt), d. rewrite elem_of_cons. naive_solver.
    + exists (tag, mt), d. rewrite elem_of_cons.
      destruct (bool_decide (d ∉ seen)); naive_solver.
    + destruct (IH _ Hf) as (item & d' & ? & ? & ?).
      exists item, d'. rewrite elem_of_cons. naive_solver.
  - rewrite (routes_cons_raise _ _ _ _ e) by done. by intros ?%elem_of_nil.
Qed.

(** All the tag-addressed routes are written, one per item, in order. *)
Lemma routes_by_tag items seen :
  readable fs root name items →
  ∃ ds, Forall2 (λ item d, dg item.1 = Ok d) items ds ∧
    filter (is_tag_route name) (yielded (routes items seen))
    = zip_with (λ item d, by_tag item d) items ds.
Proof.
  revert seen. induction items as [|[tag mt] items IH]; intros seen.
  { intros _. exists []. split; [constructor|done]. }
  intros [[d Hd] Hr]%Forall_cons. simpl in Hd.
  destruct (IH ({[d]} ∪ seen) Hr) as (ds & Hds & Hfilter).
  exists (d :: ds). split; [by constructor|].
  rewrite (routes_cons_ok _ _ _ _ d) by done. cbn [yielded].
  rewrite filter_cons_True by (by apply bool_decide_pack).
  rewrite filter_cons_False
    by (destruct (bool_decide (d ∉ seen)); simpl; tauto).
  by rewrite Hfilter.
Qed.

(** No digest-addressed route is written for a digest already seen. *)
Lemma routes_by_digest_seen items seen d :
  d ∈ seen → filter (is_digest_route name d) (yielded (routes items seen)) = [].
Proof.
  revert seen. induction items as [|[tag mt] items IH]; intros seen Hseen; [done|].
  destruct (dg tag) as [d'|e] eqn:Hd.
  - rewrite (routes_cons_ok _ _ _ _ d') by done. cbn [yielded].
    rewrite filter_cons_False by (simpl; tauto).
    rewrite filter_cons_False.
    + apply IH. set_solver.
    + case_bool_decide as Hd'; simpl; [|tauto].
      rewrite andb_True. intros [_ ?%bool_decide_unpack]. set_solver.
  - by rewrite (routes_cons_raise _ _ _ _ e).
Qed.

(** The digest-addressed route of a digest not seen before is written
    once, for the first item that has the digest. *)
Lemma routes_by_digest_first l1 item l2 seen d :
  readable fs root name (l1 ++ item :: l2) →
  d ∉ seen → Forall (λ item', dg item'.1 ≠ Ok d) l1 → dg item.1 = Ok d →
  filter (is_digest_route name d) (yielded (routes (l1 ++ item :: l2) seen))
  = [by_digest item d].
Proof.
  revert seen. induction l1 as [|[tag mt] l1 IH]; intros seen Hr Hseen Hl1 Hd.
  - destruct item as [tag mt]. cbn [fst snd app] in *.
    rewrite (routes_cons_ok _ _ _ _ d) by done. cbn [yielded].
    rewrite filter_cons_False by (simpl; tauto).
    rewrite bool_decide_true by done.
    rewrite filter_cons_True
      by (simpl; rewrite andb_True; split; by apply bool_decide_pack).
    rewrite routes_by_digest_seen; [done|set_solver].
  - apply Forall_cons in Hl1 as [Hne Hl1]. simpl in Hne.
    apply Forall_cons in Hr as [[d' Hd'] Hr]. simpl in Hd'.
    rewrite <-app_comm_cons, (routes_cons_ok _ _ _ _ d') by done.
    cbn [yielded]. rewrite filter_cons_False by (simpl; tauto).
    rewrite filter_cons_False.
    + apply IH; [done| |done..]. apply not_elem_of_union. split; [|done].
      rewrite elem_of_singleton. congruence.
    + destruct (bool_decide (d' ∉ seen)); simpl; [|tauto].
      rewrite andb_True. intros [_ ?%bool_decide_unpack]. congruence.
Qed.

(** No digest-addressed route is written for a digest no item has. *)
Lemma routes_by_digest_none items seen d :
  Forall (λ item, dg item.1 ≠ Ok d) items →
  filter (is_digest_route name d) (yielded (routes items seen)) = [].
Proof.
  revert seen. induction items as [|[tag mt] items IH]; intros seen; [done|].
  intros [Hne Hitems]%Forall_cons. simpl in Hne.
  destruct (dg tag) as [d'|e] eqn:Hd.
  - rewrite (routes_cons_ok _ _ _ _ d') by done. cbn [yielded].
    rewrite filter_cons_False by (simpl; tauto).
    rewrite filter_cons_False; [by apply IH|].
    destruct (bool_decide (d' ∉ seen)); simpl; [|tauto].
    rewrite andb_True. intros [_ ?%bool_decide_unpack]. congruence.
  - by rewrite (routes_cons_raise _ _ _ _ e).
Qed.

(** An item whose digest was seen, or belongs to an earlier item, gets
    the comment. *)
Lemma routes_already_served l1 item l2 seen d :
  readable fs root name (l1 ++ item :: l2) → dg item.1 = Ok d →
  d ∈ seen ∨ Exists (λ item', dg item'.1 = Ok d) l1 →
  DigestAlreadyServed name item.1
    ∈ yielded (routes (l1 ++ item :: l2) seen).
Proof.
  revert seen. induction l1 as [|[tag mt] l1 IH]; intros seen Hr Hd Hprev.
  - destruct Hprev as [Hseen|?%Exists_nil]; [|done].
    destruct item as [tag mt]. cbn [fst snd app] in *.
    rewrite (routes_cons_ok _ _ _ _ d) by done. cbn [yielded].
    rewrite bool_decide_false by tauto. set_solver.
  - apply Forall_cons in Hr as [[d' Hd'] Hr]. simpl in Hd'.
    rewrite <-app_comm_cons, (routes_cons_ok _ _ _ _ d') by done.
    cbn [yielded]. do 2 apply list_elem_of_further.
    apply IH; [done..|].
    destruct Hprev as [?|[Hhd|?]%Exists_cons]; [left; set_solver| |by right].
    simpl in Hhd. left. assert (d' = d) by congruence. set_solver.
Qed.
End manifest_routes.

(** ** Lists *)

Lemma filter_nil_Forall {A} (P : A → Prop) `{!∀ x, Decision (P x)} (l : list A) :
  Forall (λ x, ¬ P x) l → filter P l = [].
Proof.
  induction 1 as [|x l Hx _ IH]; [done|]. by rewrite filter_cons_False.
Qed.

(** The first element of a list that has a property. *)
Lemma list_first_split {A} (P : A → Prop) `{!∀ x, Decision (P x)} (l : list A) :
  Exists P l →
  ∃ l1 x l2, l = l1 ++ x :: l2 ∧ Forall (λ y, ¬ P y) l1 ∧ P x.
Proof.
  induction l as [|y l IH]; [by intros ?%Exists_nil|].
  intros HE. destruct (decide (P y)) as [Hy|Hy].
  - exists [], y, l. by repeat split.
  - apply Exists_cons in HE as [?|HE]; [done|].
    destruct (IH HE) as (l1 & x & l2 & -> & Hl1 & Hx).
    exists (y :: l1), x, l2. repeat split; [|done]. by constructor.
Qed.

(** Filtering the fragments of a keyed list of producers for what only
    the producer of key [k] makes. *)
Lemma filter_bind_key {A B} (P : B → Prop) `{!∀ y, Decision (P y)}
    (l : list (string * A)) (g : string * A → list B) (k : string) (v : A) :
  NoDup l.*1 → (k, v) ∈ l →
  (∀ kv y, kv ∈ l → y ∈ g kv → P y → kv.1 = k) →
  filter P (l ≫= g) = filter P (g (k, v)).
Proof.
  induction l as [|[k0 v0] l IH]; [by intros _ ?%elem_of_nil|].
  rewrite fmap_cons, NoDup_cons. cbn [fst]. intros [Hk0 Hnd] Hin HP.
  rewrite bind_cons, filter_app.
  assert (∀ kv y, kv ∈ l → y ∈ g kv → P y → kv.1 = k) as HP'.
  { intros kv y ?. apply HP. by right. }
  apply elem_of_cons in Hin as [[= <- <-]|Hin].
  - rewrite (filter_nil_Forall P (l ≫= g)); [by rewrite app_nil_r|].
    apply Forall_forall. intros y ([k' v'] & Hy & Hkv)%list_elem_of_bind HPy.
    specialize (HP' _ _ Hkv Hy HPy). simpl in HP'. subst k'.
    apply Hk0, list_elem_of_fmap. by exists (k, v').
  - rewrite (filter_nil_Forall P (g (k0, v0))); [by apply IH|].
    apply Forall_forall. intros y Hy HPy.
    specialize (HP (k0, v0) y ltac:(by left) Hy HPy). simpl in HP. subst k0.
    apply Hk0, list_elem_of_fmap. by exists (k, v).
Qed.

(** ** The routes of one image, and of the inventory *)

Section inventory.
Context `{JsonLib}.
Variables (fs : node) (root : path) (server_root name_prefix : string).

Abbreviation tags_list name tags :=
  (TagsList name (lstrip slash name_prefix)
     (json_dumps_tag_list name (sorted_keys tags))).
Abbreviation blobs name tags :=
  (Blobs (lstrip slash name_prefix) server_root name
     (join " " ((λ tag, tag +:+ "/$1") <$> sorted_keys tags))).

Lemma image_routes_unfold name (tags : gmap string string) :
  let r := manifest_routes fs root server_root name_prefix name
             (sorted_items tags) ∅ in
  image_routes fs root server_root name_prefix (name, tags)
  = match raised r with
    | Some e => Gen (tags_list name tags :: yielded r) (Some e)
    | None => Gen (tags_list name tags :: yielded r ++ [blobs name tags]) None
    end.
Proof.
  cbn zeta. unfold image_routes. rewrite gen_seq_yield.
  unfold gen_seq at 1.
  destruct (manifest_routes _ _ _ _ _ _ _) as [ys [e|]]; by simpl.
Qed.

Lemma image_readable name (tags : gmap string string) :
  (∀ tag media_type, tags !! tag = Some media_type →
     ∃ d, digest_of fs root name tag = Ok d) →
  readable fs root name (sorted_items tags).
Proof.
  intros Hr. apply Forall_forall. intros [tag mt] Hin.
  apply elem_of_sorted_items in Hin. by eapply Hr.
Qed.

Lemma image_routes_readable name (tags : gmap string string) :
  readable fs root name (sorted_items tags) →
  image_routes fs root server_root name_prefix (name, tags)
  = Gen (tags_list name tags
         :: yielded (manifest_routes fs root server_root name_prefix name
                       (sorted_items tags) ∅)
         ++ [blobs name tags]) None.
Proof.
  intros Hr. rewrite image_routes_unfold. cbn zeta.
  by rewrite (proj2 (routes_raised_None _ _ _ _ _ _ _) Hr).
Qed.

Lemma image_routes_name name (tags : gmap string string) f :
  f ∈ yielded (image_routes fs root server_root name_prefix (name, tags)) →
  frag_name f = Some name.
Proof.
  rewrite image_routes_unfold. cbn zeta.
  assert (∀ f, f ∈ yielded (manifest_routes fs root server_root name_prefix
                              name (sorted_items tags) ∅) →
               frag_name f = Some name) as Hroutes.
  { intros f' (item & d & _ & _ & [->|[->| ->]])%routes_elem_of; done. }
  destruct (raised _); cbn [yielded]; rewrite ?elem_of_cons, ?elem_of_app,
    ?list_elem_of_singleton; naive_solver.
Qed.

Lemma inventory_raised_None images :
  all_readable fs root images →
  raised (inventory_routes fs root server_root name_prefix images) = None.
Proof.
  intros Hr. apply raised_gen_for_None, Forall_forall.
  intros [name tags] Hin%elem_of_sorted_items.
  rewrite image_routes_readable; [done|].
  apply image_readable. intros ??. by apply Hr.
Qed.

Lemma inventory_yielded images :
  all_readable fs root images →
  yielded (inventory_routes fs root server_root name_prefix images)
  = sorted_items images ≫=
      (λ image, yielded (image_routes fs root server_root name_prefix image)).
Proof. intros Hr. by apply yielded_gen_for_None, inventory_raised_None. Qed.

(** What the inventory yields for one image is what that image's loop
    body yields: nothing crosses from one image to another. *)
Lemma inventory_filter_image (P : fragment → Prop) `{!∀ f, Decision (P f)}
    images name tags :
  all_readable fs root images → images !! name = Some tags →
  (∀ f, P f → frag_name f = Some name) →
  filter P (yielded (inventory_routes fs root server_root name_prefix images))
  = filter P (yielded (image_routes fs root server_root name_prefix (name, tags))).
Proof.
  intros Hr Hname HP. rewrite inventory_yielded by done.
  apply (filter_bind_key P (sorted_items images)
           (λ image, yielded (image_routes fs root server_root name_prefix image))
           name tags).
  - apply sorted_items_NoDup.
  - by apply elem_of_sorted_items.
  - intros [name' tags'] f _ Hf HPf. simpl.
    apply image_routes_name in Hf. apply HP in HPf. congruence.
Qed.
End inventory.

Section claims_routes.
Context `{JsonLib}.
Variables (fs : node) (root : path) (server_root name_prefix : string).

Abbreviation inventory images :=
  (inventory_routes fs root server_root name_prefix images).
Abbreviation image name tags :=
  (image_routes fs root server_root name_prefix (name, tags)).
Abbreviation manifests name tags :=
  (manifest_routes fs root server_root name_prefix name (sorted_items tags) ∅).

Lemma filter_image_manifests (P : fragment → Prop) `{!∀ f, Decision (P f)}
    name (tags : gmap string string) :
  readable fs root name (sorted_items tags) →
  (∀ f, P f → is_manifest_fragment name f) →
  filter P (yielded (image name tags)) = filter P (yielded (manifests name tags)).
Proof.
  intros Hr HP. rewrite image_routes_readable by done. cbn [yielded].
  rewrite filter_cons_False by (by intros ?%HP).
  rewrite filter_app, filter_cons_False by (by intros ?%HP).
  by rewrite filter_nil, app_nil_r.
Qed.

Lemma is_manifest_fragment_name name f :
  is_manifest_fragment name f → frag_name f = Some name.
Proof. destruct f; simpl; try done; by intros ->%bool_decide_unpack. Qed.

Lemma is_tag_route_manifest name f :
  is_tag_route name f → is_manifest_fragment name f.
Proof. by destruct f. Qed.

Lemma is_digest_route_manifest name d f :
  is_digest_route name d f → is_manifest_fragment name f.
Proof. destruct f; simpl; try done. by intros [??]%andb_True. Qed.

(** C1: when the emitter goes through an inventory whose manifests can
    all be read, then for every image: all its tag-addressed routes are
    written, in sorted tag order; for every digest that occurs among its
    tags exactly one digest-addressed route is written, and it is the one
    of the least tag with that digest; every other tag with that digest
    gets the comment; no digest-addressed route is written for any other
    digest.  The statement is per image, so a digest shared by two images
    has its route in each. *)
Theorem digest_routes_deduplicated (images : gmap string (gmap string string)) :
  all_readable fs root images →
  raised (inventory images) = None
  ∧ ∀ name tags, images !! name = Some tags →
      (∃ ds,
          Forall2 (λ item d, digest_of fs root name item.1 = Ok d)
            (sorted_items tags) ds
          ∧ filter (is_tag_route name) (yielded (inventory images))
            = zip_with
                (λ item d, ManifestByTag name item.1 item.2
                             (lstrip slash name_prefix) d server_root)
                (sorted_items tags) ds)
      ∧ (∀ d,
           (∀ tag, is_Some (tags !! tag) → digest_of fs root name tag ≠ Ok d) →
           filter (is_digest_route name d) (yielded (inventory images)) = [])
      ∧ (∀ d tag0,
           is_Some (tags !! tag0) → digest_of fs root name tag0 = Ok d →
           ∃ tag media_type,
             tags !! tag = Some media_type
             ∧ digest_of fs root name tag = Ok d
             ∧ (∀ tag', is_Some (tags !! tag') →
                        digest_of fs root name tag' = Ok d → String.le tag tag')
             ∧ filter (is_digest_route name d) (yielded (inventory images))
               = [ManifestByDigest name tag media_type
                    (lstrip slash name_prefix) d server_root]
             ∧ (∀ tag', is_Some (tags !! tag') →
                        digest_of fs root name tag' = Ok d → tag' ≠ tag →
                        DigestAlreadyServed name tag' ∈ yielded (inventory images))).
Proof.
  intros Hall. split; [by apply inventory_raised_None|].
  intros name tags Hname.
  assert (readable fs root name (sorted_items tags)) as Hr.
  { apply image_readable. intros ??. by apply Hall. }
  split_and!.
  - destruct (routes_by_tag fs root server_root name_prefix name
                (sorted_items tags) ∅ Hr) as (ds & Hds & Hfilter).
    exists ds. split; [done|].
    rewrite (inventory_filter_image _ _ _ _ _ images name tags); [|done..|].
    + rewrite filter_image_manifests; [done..|]. apply is_tag_route_manifest.
    + intros f ?. by apply is_manifest_fragment_name, is_tag_route_manifest.
  - intros d Hnone.
    rewrite (inventory_filter_image _ _ _ _ _ images name tags); [|done..|].
    + rewrite filter_image_manifests;
        [|done|by apply is_digest_route_manifest].
      apply routes_by_digest_none, Forall_forall.
      intros [tag mt] Hin%elem_of_sorted_items. simpl. apply Hnone. eauto.
    + intros f ?.
      by eapply is_manifest_fragment_name, is_digest_route_manifest.
  - intros d tag0 [mt0 Htag0] Hd0.
    destruct (list_first_split (λ item, digest_of fs root name item.1 = Ok d)
                (sorted_items tags)) as (l1 & [tag mt] & l2 & Hitems & Hl1 & Hd).
    { apply Exists_exists. exists (tag0, mt0).
      by rewrite elem_of_sorted_items. }
    cbn [fst] in Hd.
    assert (∀ tag' mt', tags !! tag' = Some mt' →
              digest_of fs root name tag' = Ok d → tag' ≠ tag →
              (tag', mt') ∈ l2) as Hlater.
    { intros tag' mt' Hin%elem_of_sorted_items Hd' Hne.
      rewrite Hitems, elem_of_app, elem_of_cons in Hin.
      destruct Hin as [Hin|[[= -> ->]|Hin]]; [|done..].
      rewrite Forall_forall in Hl1. by destruct (Hl1 _ Hin). }
    assert ((tag, mt) ∈ sorted_items tags) as Hin.
    { rewrite Hitems. set_solver. }
    apply elem_of_sorted_items in Hin.
    exists tag, mt. split_and!; [done..| | |].
    + intros tag' [mt' Htag'] Hd'.
      destruct (decide (tag' = tag)) as [->|Hne]; [done|].
      pose proof (sorted_items_sorted tags) as Hs. rewrite Hitems in Hs.
      apply StronglySorted_app_1_r, StronglySorted_cons in Hs as [Hs _].
      rewrite Forall_forall in Hs.
      apply (Hs (tag', mt')). by eapply Hlater.
    + rewrite (inventory_filter_image _ _ _ _ _ images name tags); [|done..|].
      * rewrite filter_image_manifests;
          [|done|by apply is_digest_route_manifest].
        rewrite Hitems. apply (routes_by_digest_first _ _ _ _ _ l1 (tag, mt));
          [by rewrite <-Hitems|set_solver|done..].
      * intros f ?.
        by eapply is_manifest_fragment_name, is_digest_route_manifest.
    + intros tag' [mt' Htag'] Hd' Hne.
      destruct (list_elem_of_split _ _ (Hlater _ _ Htag' Hd' Hne))
        as (l2a & l2b & ->).
      rewrite inventory_yielded by done. apply list_elem_of_bind.
      exists (name, tags). split; [|by apply elem_of_sorted_items].
      rewrite image_routes_readable by done. cbn [yielded].
      apply list_elem_of_further, elem_of_app. left.
      rewrite Hitems.
      replace (l1 ++ (tag, mt) :: l2a ++ (tag', mt') :: l2b)
        with ((l1 ++ (tag, mt) :: l2a) ++ (tag', mt') :: l2b)
        by by rewrite <-(assoc_L (++)).
      apply (routes_already_served _ _ _ _ _ _ (tag', mt') _ _ d).
      * rewrite <-(assoc_L (++)). simpl. by rewrite <-Hitems.
      * done.
      * right. apply Exists_app. right. by left.
Qed.
End claims_routes.

(** ** The text of the routes *)

Lemma string_app_cons a s1 s2 : String a s1 +:+ s2 = String a (s1 +:+ s2).
Proof. reflexivity. Qed.

Lemma string_app_assoc s1 s2 s3 : (s1 +:+ s2) +:+ s3 = s1 +:+ (s2 +:+ s3).
Proof. induction s1 as [|a s1 IH]; [done|]. by rewrite !string_app_cons, IH. Qed.

Lemma render_by_tag name tag media_type name_prefix digest server_root :
  render (ManifestByTag name tag media_type name_prefix digest server_root)
  = exact_location ("/v2/" +:+ name_prefix +:+ name +:+ "/manifests/" +:+ tag)
      (serve_manifest server_root name tag media_type digest).
Proof.
  unfold render, exact_location, serve_manifest.
  by rewrite !string_app_assoc.
Qed.

Lemma render_by_digest name tag media_type name_prefix digest server_root :
  render (ManifestByDigest name tag media_type name_prefix digest server_root)
  = exact_location
      ("/v2/" +:+ name_prefix +:+ name +:+ "/manifests/sha256:" +:+ digest)
      (serve_manifest server_root name tag media_type digest).
Proof.
  unfold render, exact_location, serve_manifest.
  by rewrite !string_app_assoc.
Qed.

Lemma render_blobs name_prefix server_root name paths :
  render (Blobs name_prefix server_root name paths)
  = regex_location_try_files (blob_pattern name_prefix name) server_root name paths.
Proof.
  unfold render, regex_location_try_files, blob_pattern.
  by rewrite !string_app_assoc.
Qed.

Lemma constants_handler : ∃ before, CONSTANTS = before +:+ handler_404_tag.
Proof.
  exists (nl +:+ "location = /v2 {" +:+ nl +:+ "    return 301 /v2/;" +:+ nl +:+
          "}" +:+ nl +:+ nl +:+ "location = /v2/ {" +:+ nl +:+
          "    return 200 'ok';" +:+ nl +:+ "}" +:+ nl +:+ nl).
  unfold CONSTANTS, handler_404_tag. by rewrite !string_app_assoc.
Qed.

Section claims_text.
Context `{JsonLib}.
Variables (fs : node) (root : path) (server_root name_prefix : string).

Lemma routes_by_tag_elem_of name items seen tag media_type d :
  readable fs root name items → (tag, media_type) ∈ items →
  digest_of fs root name tag = Ok d →
  ManifestByTag name tag media_type (lstrip slash name_prefix) d server_root
    ∈ yielded (manifest_routes fs root server_root name_prefix name items seen).
Proof.
  revert seen. induction items as [|[tag' mt'] items IH]; intros seen.
  { by intros _ ?%elem_of_nil. }
  intros [[d' Hd'] Hr]%Forall_cons Hin Hd. cbn [fst] in Hd'.
  rewrite (routes_cons_ok _ _ _ _ _ _ _ _ _ d') by done. cbn [yielded].
  apply elem_of_cons in Hin as [[= <- <-]|Hin].
  - assert (d' = d) as -> by congruence. by left.
  - do 2 right. by apply IH.
Qed.

(** The fragments of the inventory that belong to an image are those its
    loop body yields. *)
Lemma inventory_elem_of_image images name tags f :
  images !! name = Some tags →
  f ∈ yielded (inventory_routes fs root server_root name_prefix images) →
  frag_name f = Some name →
  f ∈ yielded (image_routes fs root server_root name_prefix (name, tags)).
Proof.
  intros Hname Hf Hfn.
  apply elem_of_yielded_gen_for in Hf as ([name' tags'] & Hin & Hf).
  pose proof (image_routes_name _ _ _ _ _ _ _ Hf) as Hfn'.
  apply elem_of_sorted_items in Hin. by simplify_eq.
Qed.

Lemma image_elem_of_inventory images name tags f :
  all_readable fs root images → images !! name = Some tags →
  f ∈ yielded (image_routes fs root server_root name_prefix (name, tags)) →
  f ∈ yielded (inventory_routes fs root server_root name_prefix images).
Proof.
  intros Hall Hname Hf. rewrite inventory_yielded by done.
  apply list_elem_of_bind. exists (name, tags).
  split; [done|]. by apply elem_of_sorted_items.
Qed.

(** C4: when the emitter goes through an inventory whose manifests can
    all be read, exactly one blob route is written for every image; all
    the manifest routes of the image come before it; it is the
    regular-expression location for
    [/v2/{name_prefix}{name}/blobs/sha256:([a-f0-9]{64})] whose
    [try_files] lists [{tag}/$1] for the tags of the image in sorted
    order, each tag once, and then [=404]. *)
Theorem blob_route_per_image (images : gmap string (gmap string string))
    (name : string) (tags : gmap string string) :
  all_readable fs root images → images !! name = Some tags →
  let out := inventory_routes fs root server_root name_prefix images in
  let paths := join " " ((λ tag, tag +:+ "/$1") <$> sorted_keys tags) in
  let blob := Blobs (lstrip slash name_prefix) server_root name paths in
  filter (is_blob_route name) (yielded out) = [blob]
  ∧ (∃ before after,
       yielded out = before ++ blob :: after
       ∧ Forall (λ f, ¬ is_manifest_fragment name f) after)
  ∧ render blob
    = regex_location_try_files
        (blob_pattern (lstrip slash name_prefix) name) server_root name paths
  ∧ StronglySorted String.le (sorted_keys tags)
  ∧ NoDup (sorted_keys tags)
  ∧ (∀ tag, tag ∈ sorted_keys tags ↔ is_Some (tags !! tag)).
Proof.
  intros Hall Hname. cbn zeta.
  assert (readable fs root name (sorted_items tags)) as Hr.
  { apply image_readable. intros ??. by apply Hall. }
  split_and!.
  - rewrite (inventory_filter_image _ _ _ _ _ images name tags); [|done..|].
    + rewrite image_routes_readable by done. cbn [yielded].
      rewrite filter_cons_False by (simpl; tauto).
      rewrite filter_app, filter_cons_True by (by apply bool_decide_pack).
      rewrite filter_nil, (filter_nil_Forall (is_blob_route name)); [done|].
      apply Forall_forall.
      intros f (item & d & _ & _ & [->|[->| ->]])%routes_elem_of;
        simpl; tauto.
    + destruct f; simpl; try done. by intros ->%bool_decide_unpack.
  - assert ((name, tags) ∈ sorted_items images) as Hin
      by by apply elem_of_sorted_items.
    destruct (list_elem_of_split _ _ Hin) as (l1 & l2 & Hl).
    pose proof (sorted_items_NoDup images) as Hnd.
    rewrite Hl, fmap_app, fmap_cons in Hnd.
    apply NoDup_app in Hnd as (_ & _ & [Hnl2 _]%NoDup_cons). cbn [fst] in Hnl2.
    rewrite inventory_yielded, Hl, bind_app, bind_cons by done.
    rewrite image_routes_readable by done. cbn [yielded].
    exists
      ((l1 ≫= λ image,
          yielded (image_routes fs root server_root name_prefix image))
       ++ TagsList name (lstrip slash name_prefix)
            (json_dumps_tag_list name (sorted_keys tags))
       :: yielded (manifest_routes fs root server_root name_prefix name
                     (sorted_items tags) ∅)),
      (l2 ≫= λ image,
          yielded (image_routes fs root server_root name_prefix image)).
    split.
    { rewrite <-!(assoc_L (++)). simpl. by rewrite <-(assoc_L (++)). }
    apply Forall_forall.
    intros f ([name' tags'] & Hf & Hin')%list_elem_of_bind Hm.
    apply image_routes_name in Hf.
    apply is_manifest_fragment_name in Hm.
    apply Hnl2, list_elem_of_fmap. exists (name', tags').
    split; [simpl; congruence|done].
  - apply render_blobs.
  - apply sorted_keys_sorted.
  - apply sorted_keys_NoDup.
  - apply elem_of_sorted_keys.
Qed.

(** C9: when the emitter goes through an inventory whose manifests can
    all be read, then for every tag of every image the tag-addressed
    route is written: the exact-match location
    [/v2/{name_prefix}{name}/manifests/{tag}] that serves the tag's
    [manifest.json] with the recorded media type, the digest of the
    manifest file and the [@404_tag] fallback.  Every digest-addressed
    route written for the image is the exact-match location
    [/v2/{name_prefix}{name}/manifests/sha256:{digest}] with the very
    same directives as the tag-addressed route of one of its tags.  The
    handler [@404_tag] is part of the constants. *)
Theorem manifest_routes_serving (images : gmap string (gmap string string))
    (name : string) (tags : gmap string string) :
  all_readable fs root images → images !! name = Some tags →
  let out := inventory_routes fs root server_root name_prefix images in
  let pfx := lstrip slash name_prefix in
  (∀ tag media_type, tags !! tag = Some media_type →
     ∃ d, digest_of fs root name tag = Ok d
       ∧ ManifestByTag name tag media_type pfx d server_root ∈ yielded out
       ∧ render (ManifestByTag name tag media_type pfx d server_root)
         = exact_location ("/v2/" +:+ pfx +:+ name +:+ "/manifests/" +:+ tag)
             (serve_manifest server_root name tag media_type d))
  ∧ (∀ f d, f ∈ yielded out → is_digest_route name d f →
       ∃ tag media_type,
         tags !! tag = Some media_type
         ∧ digest_of fs root name tag = Ok d
         ∧ f = ManifestByDigest name tag media_type pfx d server_root
         ∧ ManifestByTag name tag media_type pfx d server_root ∈ yielded out
         ∧ render f
           = exact_location
               ("/v2/" +:+ pfx +:+ name +:+ "/manifests/sha256:" +:+ d)
               (serve_manifest server_root name tag media_type d))
  ∧ (∃ before, render Constants = before +:+ handler_404_tag).
Proof.
  intros Hall Hname. cbn zeta.
  assert (readable fs root name (sorted_items tags)) as Hr.
  { apply image_readable. intros ??. by apply Hall. }
  assert (∀ tag media_type d, tags !! tag = Some media_type →
            digest_of fs root name tag = Ok d →
            ManifestByTag name tag media_type (lstrip slash name_prefix) d
              server_root
            ∈ yielded (inventory_routes fs root server_root name_prefix images))
    as Hby_tag.
  { intros tag mt d Htag Hd.
    apply (image_elem_of_inventory images name tags); [done..|].
    rewrite image_routes_readable by done. cbn [yielded].
    right. apply elem_of_app. left.
    apply routes_by_tag_elem_of; [done| |done].
    by apply elem_of_sorted_items. }
  split_and!.
  - intros tag mt Htag. destruct (Hall _ _ _ _ Hname Htag) as [d Hd].
    exists d. split_and!; [done|by apply Hby_tag|apply render_by_tag].
  - intros f d Hf Hroute.
    assert (frag_name f = Some name) as Hfn.
    { by eapply is_manifest_fragment_name, is_digest_route_manifest. }
    apply (inventory_elem_of_image images name tags) in Hf; [|done..].
    rewrite image_routes_readable in Hf by done. cbn [yielded] in Hf.
    rewrite elem_of_cons, elem_of_app, list_elem_of_singleton in Hf.
    destruct Hf as [->|[Hf| ->]]; [done| |done].
    apply routes_elem_of in Hf as ([tag mt] & d' & Hin & Hd' & Hf).
    cbn [fst snd] in *. apply elem_of_sorted_items in Hin.
    destruct Hf as [->|[->| ->]]; [done| |done].
    simpl in Hroute. apply andb_True in Hroute as [_ <-%bool_decide_unpack].
    exists tag, mt.
    split_and!; [done|done|done|by apply Hby_tag|apply render_by_digest].
  - apply constants_handler.
Qed.
End claims_text.

(** ** [create_config] *)

Section create_config.
Context `{JsonLib}.
Variables (root : path) (server_root name_prefix : string).

Lemma create_config_fragments_unfold fs_scan fs_emit with_constants only_constants :
  create_config_fragments fs_scan fs_emit root server_root name_prefix
    with_constants only_constants
  = let rest := if only_constants then gen_return
                else discovered_routes fs_scan fs_emit root server_root
                       name_prefix in
    if with_constants then Gen (Constants :: yielded rest) (raised rest)
    else rest.
Proof.
  unfold create_config_fragments. cbn zeta.
  destruct with_constants; [done|]. by rewrite gen_seq_return_l.
Qed.

Lemma discovered_routes_found fs_scan fs_emit :
  raised (find_images fs_scan root) = None →
  discovered_routes fs_scan fs_emit root server_root name_prefix
  = inventory_routes fs_emit root server_root name_prefix
      (collect_images (yielded (find_images fs_scan root))).
Proof. unfold discovered_routes. by intros ->. Qed.

Lemma discovered_routes_raised fs_scan fs_emit e :
  raised (find_images fs_scan root) = Some e →
  discovered_routes fs_scan fs_emit root server_root name_prefix = gen_raise e.
Proof. unfold discovered_routes. by intros ->. Qed.

(** The constants are not among the routes of the images. *)
Lemma discovered_routes_no_constants fs_scan fs_emit :
  Constants ∉ yielded (discovered_routes fs_scan fs_emit root server_root
                         name_prefix).
Proof.
  unfold discovered_routes. destruct (raised _); [by intros ?%elem_of_nil|].
  intros ([name tags] & _ & Hf)%elem_of_yielded_gen_for.
  by apply image_routes_name in Hf.
Qed.

(** C6: a manifest that was discovered but cannot be read when its
    digest is due makes [compute_digest] raise the error of the file
    system; [create_config] then ends with an exception, and has written
    no manifest fragment for that image and tag: neither of the two
    routes, nor the comment. *)
Theorem digest_failure_stops_emission (fs_scan fs_emit : node)
    (with_constants : bool) (name tag media_type : string) (e : exn) :
  raised (find_images fs_scan root) = None →
  (name, tag, media_type) ∈ yielded (find_images fs_scan root) →
  open_read fs_emit (os_path_join root [name; tag; MANIFEST_JSON]) = Raise e →
  let out := create_config_fragments fs_scan fs_emit root server_root
               name_prefix with_constants false in
  compute_digest fs_emit (os_path_join root [name; tag; MANIFEST_JSON]) = Raise e
  ∧ is_Some (raised out)
  ∧ raised (create_config fs_scan fs_emit root server_root name_prefix
              with_constants false) = raised out
  ∧ ∀ f, f ∈ yielded out → frag_name f = Some name → frag_tag f ≠ Some tag.
Proof.
  intros Hscan Hfound Hopen. cbn zeta.
  pose proof (compute_digest_raise _ _ _ Hopen) as Hdigest.
  destruct (collect_images_elem_of _ _ _ _ Hfound)
    as (tags & Hname & [media_type' Htag]).
  assert (∀ d, digest_of fs_emit root name tag ≠ Ok d) as Hnot_ok.
  { intros d. unfold digest_of. by rewrite Hdigest. }
  rewrite create_config_fragments_unfold. cbn zeta.
  rewrite discovered_routes_found by done.
  set (images := collect_images _) in *.
  set (inv := inventory_routes fs_emit root server_root name_prefix images).
  assert (is_Some (raised inv)) as Hraised.
  { destruct (raised (image_routes fs_emit root server_root name_prefix
                        (name, tags))) as [e'|] eqn:Hr.
    - eapply (gen_for_raised_Some _ _ (name, tags)); [|done].
      by apply elem_of_sorted_items.
    - rewrite image_routes_unfold in Hr. cbn zeta in Hr.
      destruct (raised (manifest_routes _ _ _ _ _ _ _)) eqn:Hr'; [done|].
      apply routes_raised_None in Hr'. unfold readable in Hr'.
      rewrite Forall_forall in Hr'.
      destruct (Hr' (tag, media_type')) as [d Hd].
      + by apply elem_of_sorted_items.
      + by destruct (Hnot_ok d). }
  assert (∀ f, f ∈ yielded inv → frag_name f = Some name →
               frag_tag f ≠ Some tag) as Hnone.
  { intros f Hf Hfn.
    apply (inventory_elem_of_image _ _ _ _ images name tags) in Hf; [|done..].
    rewrite image_routes_unfold in Hf. cbn zeta in Hf.
    assert (f ∈ yielded (manifest_routes fs_emit root server_root name_prefix
                           name (sorted_items tags) ∅) → frag_tag f ≠ Some tag)
      as Hroutes.
    { intros ([tag' mt'] & d & _ & Hd & Hf')%routes_elem_of. cbn [fst snd] in *.
      assert (tag' ≠ tag) by (intros ->; by destruct (Hnot_ok d)).
      destruct Hf' as [->|[->| ->]]; simpl; congruence. }
    destruct (raised (manifest_routes _ _ _ _ _ _ _)); cbn [yielded] in Hf;
      rewrite ?elem_of_cons, ?elem_of_app, ?list_elem_of_singleton in Hf;
      destruct_or!; subst; auto; done. }
  split_and!; [done| | |].
  - by destruct with_constants.
  - unfold create_config. cbn [raised].
    rewrite create_config_fragments_unfold. cbn zeta.
    by rewrite discovered_routes_found.
  - intros f Hf Hfn. apply Hnone; [|done].
    destruct with_constants; [|done].
    cbn [yielded] in Hf. apply elem_of_cons in Hf as [->|Hf]; done.
Qed.
End create_config.

(** ** [find_images] *)

Section find_images.
Context `{JsonLib}.
Variables (fs : node) (root : path).

(** A tag directory yields nothing or its own triple. *)
Lemma find_images_tag_yielded name tag x :
  x ∈ yielded (find_images_tag fs root name tag) →
  yielded (find_images_tag fs root name tag) = [x]
  ∧ x.1.1 = name ∧ x.1.2 = tag.
Proof.
  unfold find_images_tag.
  repeat case_match; cbn [yielded gen_return gen_raise gen_yield];
    rewrite ?elem_of_nil, ?list_elem_of_singleton; try done.
  by intros ->.
Qed.

Lemma find_images_elem_of x :
  x ∈ yielded (find_images fs root) →
  x ∈ yielded (find_images_tag fs root x.1.1 x.1.2).
Proof.
  unfold find_images. destruct (os_listdir fs root) as [names|e];
    [|by intros ?%elem_of_nil].
  intros (name & _ & Hx)%elem_of_yielded_gen_for.
  unfold find_images_name in Hx.
  destruct (negb _); [by apply elem_of_nil in Hx|].
  destruct (os_listdir fs _) as [tags|e]; [|by apply elem_of_nil in Hx].
  apply elem_of_yielded_gen_for in Hx as (tag & _ & Hx).
  by destruct (find_images_tag_yielded _ _ _ Hx) as (_ & -> & ->).
Qed.

(** Discovery gives a (name, tag) pair one media type. *)
Lemma find_images_functional : functional_found (yielded (find_images fs root)).
Proof.
  intros x y Hx%find_images_elem_of Hy%find_images_elem_of [= Hn Ht].
  rewrite Hn, Ht in Hx.
  destruct (find_images_tag_yielded _ _ _ Hx) as (Hx' & _).
  destruct (find_images_tag_yielded _ _ _ Hy) as (Hy' & _).
  congruence.
Qed.
End find_images.

(** ** The output does not depend on the order of discovery *)

Lemma StronglySorted_prefix {A} (R : relation A) (l1 l2 : list A) :
  l1 `prefix_of` l2 → StronglySorted R l2 → StronglySorted R l1.
Proof. intros [k ->]. apply StronglySorted_app_1_l. Qed.

Lemma StronglySorted_const (k : string) (l : list string) :
  Forall (λ x, x = k) l → StronglySorted String.le l.
Proof.
  induction 1 as [|x l -> Hl IH]; constructor; [done|].
  eapply Forall_impl; [done|]. by intros ? ->.
Qed.

Lemma omap_prefix {A B} (f : A → option B) (l1 l2 : list A) :
  l1 `prefix_of` l2 → omap f l1 `prefix_of` omap f l2.
Proof. intros [k ->]. rewrite omap_app. by apply prefix_app_r. Qed.

Lemma filter_prefix {A} (P : A → Prop) `{!∀ x, Decision (P x)} (l1 l2 : list A) :
  l1 `prefix_of` l2 → filter P l1 `prefix_of` filter P l2.
Proof. intros [k ->]. rewrite filter_app. by apply prefix_app_r. Qed.

Lemma filter_all {A} (P : A → Prop) `{!∀ x, Decision (P x)} (l : list A) :
  Forall P l → filter P l = l.
Proof.
  induction 1 as [|x l Hx _ IH]; [done|]. by rewrite filter_cons_True, IH.
Qed.

Lemma omap_bind_list {A B C} (f : B → option C) (g : A → list B) (l : list A) :
  omap f (l ≫= g) = l ≫= (λ x, omap f (g x)).
Proof.
  induction l as [|x l IH]; [done|]. by rewrite !bind_cons, omap_app, IH.
Qed.

(** Blocks that each repeat the key of their item, laid out in the order
    of sorted items, are sorted. *)
Lemma sorted_blocks {A} (l : list (string * A)) (g : string * A → list string) :
  StronglySorted item_le l →
  (∀ kv, Forall (λ x, x = kv.1) (g kv)) →
  StronglySorted String.le (l ≫= g).
Proof.
  intros Hl Hg. induction Hl as [|kv l Hl IH Hkv]; [constructor|].
  rewrite bind_cons. apply StronglySorted_app_2; [|by eapply StronglySorted_const|done].
  intros x1 x2 Hx1 (kv' & Hx2 & Hin)%list_elem_of_bind.
  pose proof (Hg kv) as Hg1. pose proof (Hg kv') as Hg2.
  rewrite Forall_forall in Hg1, Hg2. rewrite Forall_forall in Hkv.
  rewrite (Hg1 _ Hx1), (Hg2 _ Hx2). by apply Hkv.
Qed.

Section order.
Context `{JsonLib}.
Variables (root : path) (server_root name_prefix : string).

Lemma manifest_routes_ext fs1 fs2 name items seen :
  (∀ item, item ∈ items →
     digest_of fs1 root name item.1 = digest_of fs2 root name item.1) →
  manifest_routes fs1 root server_root name_prefix name items seen
  = manifest_routes fs2 root server_root name_prefix name items seen.
Proof.
  revert seen. induction items as [|[tag mt] items IH]; intros seen Hd; [done|].
  cbn [manifest_routes].
  pose proof (Hd (tag, mt) ltac:(by left)) as Hd1. unfold digest_of in Hd1.
  cbn [fst] in Hd1. rewrite Hd1.
  destruct (compute_digest fs2 _); [|done].
  rewrite IH; [done|]. intros item ?. apply Hd. by right.
Qed.

Lemma inventory_routes_ext fs1 fs2 (images : gmap string (gmap string string)) :
  (∀ name tags tag media_type,
     images !! name = Some tags → tags !! tag = Some media_type →
     digest_of fs1 root name tag = digest_of fs2 root name tag) →
  inventory_routes fs1 root server_root name_prefix images
  = inventory_routes fs2 root server_root name_prefix images.
Proof.
  intros Hd. apply gen_for_ext.
  intros [name tags] Hin%elem_of_sorted_items. unfold image_routes.
  rewrite (manifest_routes_ext fs1 fs2); [done|].
  intros [tag mt] Htag%elem_of_sorted_items. by eapply Hd.
Qed.

(** The tags of the fragments of the manifest loop follow the items. *)
Lemma manifest_routes_tags_sorted fs name items seen :
  StronglySorted item_le items →
  StronglySorted String.le
    (omap frag_tag
       (yielded (manifest_routes fs root server_root name_prefix name items seen))).
Proof.
  intros Hs. revert seen.
  induction Hs as [|[tag mt] items Hs IH Hle]; intros seen; [constructor|].
  destruct (digest_of fs root name tag) as [d|e] eqn:Hd.
  - rewrite (routes_cons_ok _ _ _ _ _ _ _ _ _ d) by done. cbn [yielded].
    assert (Forall (String.le tag)
              (omap frag_tag (yielded (manifest_routes fs root server_root
                 name_prefix name items ({[d]} ∪ seen))))) as Hrest.
    { apply Forall_forall. intros t (f & Hf & Ht)%list_elem_of_omap.
      apply routes_elem_of in Hf as (item & d' & Hin & _ & Hf).
      rewrite Forall_forall in Hle. specialize (Hle _ Hin).
      destruct Hf as [->|[->| ->]]; simpl in Ht; by simplify_eq. }
    destruct (bool_decide (d ∉ seen)); simpl;
      (constructor; [constructor; [apply IH|done]|by constructor]).
  - rewrite (routes_cons_raise _ _ _ _ _ _ _ _ _ e) by done. constructor.
Qed.

Lemma image_routes_tags_sorted fs name (tags : gmap string string) :
  StronglySorted String.le
    (omap frag_tag
       (yielded (image_routes fs root server_root name_prefix (name, tags)))).
Proof.
  rewrite image_routes_unfold. cbn zeta.
  pose proof (manifest_routes_tags_sorted fs name (sorted_items tags) ∅
                (sorted_items_sorted tags)) as Hs.
  destruct (raised _); cbn [yielded];
    change (?x :: ?l) with ([x] ++ l); rewrite !omap_app; simpl; [done|].
  by rewrite app_nil_r.
Qed.

(** The images are written in the order of their names. *)
Lemma inventory_names_sorted fs (images : gmap string (gmap string string)) :
  StronglySorted String.le
    (omap frag_name
       (yielded (inventory_routes fs root server_root name_prefix images))).
Proof.
  eapply StronglySorted_prefix.
  { apply omap_prefix, yielded_gen_for_prefix. }
  rewrite omap_bind_list. apply sorted_blocks; [apply sorted_items_sorted|].
  intros [name tags]. apply Forall_forall.
  intros n (f & Hf & Hn)%list_elem_of_omap.
  apply image_routes_name in Hf. simpl. congruence.
Qed.

(** The fragments of an image are written in the order of its tags. *)
Lemma inventory_tags_sorted fs (images : gmap string (gmap string string)) name :
  StronglySorted String.le
    (omap frag_tag
       (filter (λ f, frag_name f = Some name)
          (yielded (inventory_routes fs root server_root name_prefix images)))).
Proof.
  eapply StronglySorted_prefix.
  { apply omap_prefix, filter_prefix, yielded_gen_for_prefix. }
  destruct (images !! name) as [tags|] eqn:Hname.
  - rewrite (filter_bind_key _ (sorted_items images)
               (λ image, yielded (image_routes fs root server_root
                                    name_prefix image)) name tags).
    + rewrite filter_all; [apply image_routes_tags_sorted|].
      apply Forall_forall. intros f. apply image_routes_name.
    + apply sorted_items_NoDup.
    + by apply elem_of_sorted_items.
    + intros [name' tags'] f _ Hf Hfn. apply image_routes_name in Hf.
      simpl. congruence.
  - rewrite filter_nil_Forall; [constructor|].
    apply Forall_forall.
    intros f ([name' tags'] & Hf & Hin)%list_elem_of_bind Hfn.
    apply image_routes_name in Hf. apply elem_of_sorted_items in Hin.
    congruence.
Qed.
End order.

Section determinism.
Context `{JsonLib}.
Variables (root : path) (server_root name_prefix : string).

Lemma inventory_tags_list_keys fs (images : gmap string (gmap string string)) f :
  f ∈ yielded (inventory_routes fs root server_root name_prefix images) →
  match f with
  | TagsList name _ payload =>
      ∃ keys, StronglySorted String.le keys
              ∧ payload = json_dumps_tag_list name keys
  | Blobs _ _ _ paths =>
      ∃ keys, StronglySorted String.le keys
              ∧ paths = join " " ((λ tag, tag +:+ "/$1") <$> keys)
  | _ => True
  end.
Proof.
  intros ([name tags] & _ & Hf)%elem_of_yielded_gen_for.
  rewrite image_routes_unfold in Hf. cbn zeta in Hf.
  assert (f ∈ yielded (manifest_routes fs root server_root name_prefix name
                         (sorted_items tags) ∅) →
          match f with TagsList _ _ _ | Blobs _ _ _ _ => False | _ => True end)
    as Hroutes.
  { by intros (item & d & _ & _ & [->|[->| ->]])%routes_elem_of. }
  destruct (raised _); cbn [yielded] in Hf;
    rewrite ?elem_of_cons, ?elem_of_app, ?list_elem_of_singleton in Hf;
    destruct_or!; subst;
    try (exists (sorted_keys tags); split; [apply sorted_keys_sorted|done]);
    specialize (Hroutes ltac:(done)); by destruct f.
Qed.

(** C3: the output is a function of what was discovered and of the
    manifests' digests, and of nothing else: two runs with the same
    arguments whose discoveries found the same entries, in whatever
    order the directories were listed, and whose manifests have the same
    digests, write the same text and end the same way.  In the output
    the images come in the order of their names, the fragments of an
    image in the order of its tags, and the tags in a tag list and in a
    blob route's [try_files] are in order as well. *)
Theorem create_config_deterministic (fs1 fs2 : node)
    (with_constants only_constants : bool) :
  raised (find_images fs1 root) = raised (find_images fs2 root) →
  yielded (find_images fs1 root) ≡ₚ yielded (find_images fs2 root) →
  (∀ name tag media_type,
     (name, tag, media_type) ∈ yielded (find_images fs1 root) →
     digest_of fs1 root name tag = digest_of fs2 root name tag) →
  let out := create_config_fragments fs1 fs1 root server_root name_prefix
               with_constants only_constants in
  create_config fs1 fs1 root server_root name_prefix with_constants only_constants
  = create_config fs2 fs2 root server_root name_prefix with_constants only_constants
  ∧ StronglySorted String.le (omap frag_name (yielded out))
  ∧ (∀ name, StronglySorted String.le
               (omap frag_tag
                  (filter (λ f, frag_name f = Some name) (yielded out))))
  ∧ (∀ f, f ∈ yielded out →
       match f with
       | TagsList name _ payload =>
           ∃ keys, StronglySorted String.le keys
                   ∧ payload = json_dumps_tag_list name keys
       | Blobs _ _ _ paths =>
           ∃ keys, StronglySorted String.le keys
                   ∧ paths = join " " ((λ tag, tag +:+ "/$1") <$> keys)
       | _ => True
       end).
Proof.
  intros Hraised Hperm Hdigest. cbn zeta.
  assert (discovered_routes fs1 fs1 root server_root name_prefix
          = discovered_routes fs2 fs2 root server_root name_prefix) as Heq.
  { unfold discovered_routes. rewrite <-Hraised.
    destruct (raised (find_images fs1 root)); [done|].
    rewrite <-(collect_images_perm _ _ (find_images_functional fs1 root) Hperm).
    apply inventory_routes_ext. intros name tags tag mt Hname Htag.
    eapply Hdigest, collect_images_lookup; done. }
  split_and!.
  - unfold create_config, create_config_fragments. by rewrite Heq.
  - rewrite create_config_fragments_unfold. cbn zeta.
    assert (StronglySorted String.le
              (omap frag_name
                 (yielded (discovered_routes fs1 fs1 root server_root name_prefix))))
      as Hs.
    { unfold discovered_routes. destruct (raised _); [constructor|].
      apply inventory_names_sorted. }
    destruct with_constants, only_constants; try done; constructor.
  - intros name. rewrite create_config_fragments_unfold. cbn zeta.
    assert (StronglySorted String.le
              (omap frag_tag
                 (filter (λ f, frag_name f = Some name)
                    (yielded (discovered_routes fs1 fs1 root server_root
                                name_prefix))))) as Hs.
    { unfold discovered_routes. destruct (raised _); [constructor|].
      apply inventory_tags_sorted. }
    destruct with_constants, only_constants; cbn [yielded gen_return];
      rewrite ?filter_cons_False by done; try done; constructor.
  - intros f. rewrite create_config_fragments_unfold. cbn zeta.
    assert (f ∈ yielded (discovered_routes fs1 fs1 root server_root name_prefix) →
            match f with
            | TagsList name _ payload =>
                ∃ keys, StronglySorted String.le keys
                        ∧ payload = json_dumps_tag_list name keys
            | Blobs _ _ _ paths =>
                ∃ keys, StronglySorted String.le keys
                        ∧ paths = join " " ((λ tag, tag +:+ "/$1") <$> keys)
            | _ => True
            end) as Hd.
    { unfold discovered_routes.
      destruct (raised _); [by intros ?%elem_of_nil|].
      apply inventory_tags_list_keys. }
    destruct with_constants, only_constants; cbn [yielded gen_return];
      rewrite ?elem_of_cons, ?elem_of_nil; intros; destruct_or?; subst;
      try done; by apply Hd.
Qed.
End determinism.

(** ** The name prefix *)

Lemma lstrip_not_starts_with c s : ¬ starts_with c (lstrip c s).
Proof. induction s as [|a s IH]; simpl; [tauto|]. by case_decide. Qed.

Lemma lstrip_id c s : ¬ starts_with c s → lstrip c s = s.
Proof. destruct s as [|a s]; simpl; [done|]. intros ?. by case_decide. Qed.

Lemma rstrip_not_starts_with c s : ¬ starts_with c s → ¬ starts_with c (rstrip c s).
Proof.
  destruct s as [|a s]; simpl; [tauto|]. intros Ha.
  destruct (rstrip c s); [case_decide|]; simpl; tauto.
Qed.

Lemma rstrip_not_ends_with c s : ¬ ends_with c (rstrip c s).
Proof.
  induction s as [|a s IH]; simpl; [tauto|].
  destruct (rstrip c s) as [|b r] eqn:E; [case_decide; simpl; tauto|].
  simpl in *. done.
Qed.

Lemma strip_not_starts_with c s : ¬ starts_with c (strip c s).
Proof. apply rstrip_not_starts_with, lstrip_not_starts_with. Qed.

Lemma strip_not_ends_with c s : ¬ ends_with c (strip c s).
Proof. apply rstrip_not_ends_with. Qed.

Lemma lstrip_app_nonempty c s1 s2 :
  s1 ≠ EmptyString → ¬ starts_with c s1 → lstrip c (s1 +:+ s2) = s1 +:+ s2.
Proof.
  destruct s1 as [|a s1]; [done|]. intros _ Ha.
  rewrite string_app_cons. apply lstrip_id. by simpl.
Qed.

(** The routes after a location: the text of a route is its [location]
    line, then the rest. *)
Lemma render_location f uri :
  frag_location f = Some uri →
  ∃ op rest, op ∈ ["= "; "= " +:+ dq; "~ " +:+ dq]
             ∧ render f = nl +:+ "location " +:+ op +:+ uri +:+ rest.
Proof.
  destruct f; intros [= <-]; unfold render, blob_pattern.
  - exists "= ". eexists. split; [set_solver|].
    rewrite !string_app_assoc. reflexivity.
  - exists ("= " +:+ dq). eexists. split; [set_solver|].
    rewrite !string_app_assoc. reflexivity.
  - exists ("= " +:+ dq). eexists. split; [set_solver|].
    rewrite !string_app_assoc. reflexivity.
  - exists ("~ " +:+ dq). eexists. split; [set_solver|].
    rewrite !string_app_assoc. reflexivity.
Qed.

Section prefix.
Context `{JsonLib}.

(** Every route is rooted at [/v2/], then the stripped prefix the
    emitter was given, then the image's name. *)
Lemma create_config_locations fs_scan fs_emit root server_root name_prefix
    with_constants only_constants f uri :
  f ∈ yielded (create_config_fragments fs_scan fs_emit root server_root
                 name_prefix with_constants only_constants) →
  frag_location f = Some uri →
  ∃ name rest,
    frag_name f = Some name
    ∧ uri = "/v2/" +:+ lstrip slash name_prefix +:+ name +:+ "/" +:+ rest.
Proof.
  rewrite create_config_fragments_unfold. cbn zeta. intros Hf Hloc.
  assert (f ∈ yielded (discovered_routes fs_scan fs_emit root server_root
                         name_prefix)) as Hd.
  { destruct with_constants, only_constants; cbn [yielded gen_return] in Hf;
      rewrite ?elem_of_cons, ?elem_of_nil in Hf; destruct_or?; subst; done. }
  clear Hf. unfold discovered_routes in Hd.
  destruct (raised _); [by apply elem_of_nil in Hd|].
  apply elem_of_yielded_gen_for in Hd as ([name tags] & _ & Hf).
  rewrite image_routes_unfold in Hf. cbn zeta in Hf.
  assert (f ∈ yielded (manifest_routes fs_emit root server_root name_prefix name
                         (sorted_items tags) ∅) →
          ∃ name rest, frag_name f = Some name
            ∧ uri = "/v2/" +:+ lstrip slash name_prefix +:+ name +:+ "/" +:+ rest)
    as Hroutes.
  { intros ([tag mt] & d & _ & _ & [->|[->| ->]])%routes_elem_of;
      simplify_eq/=; eauto. }
  destruct (raised _); cbn [yielded] in Hf;
    rewrite ?elem_of_cons, ?elem_of_app, ?list_elem_of_singleton in Hf;
    destruct_or!; subst; auto; simplify_eq/=; eauto.
Qed.

(** The emitter only looks at its prefix with the leading slashes
    removed. *)
Lemma create_config_fragments_lstrip fs_scan fs_emit root server_root
    name_prefix1 name_prefix2 with_constants only_constants :
  lstrip slash name_prefix1 = lstrip slash name_prefix2 →
  create_config_fragments fs_scan fs_emit root server_root name_prefix1
    with_constants only_constants
  = create_config_fragments fs_scan fs_emit root server_root name_prefix2
      with_constants only_constants.
Proof.
  intros Hp. unfold create_config_fragments, discovered_routes. f_equal.
  destruct only_constants; [done|]. destruct (raised _); [done|].
  apply gen_for_ext. intros [name tags] _. unfold image_routes.
  rewrite Hp. do 2 f_equal.
  generalize (∅ : gset string).
  induction (sorted_items tags) as [|[tag mt] items IH]; intros seen; [done|].
  cbn [manifest_routes]. destruct (compute_digest _ _); [|done].
  by rewrite Hp, IH.
Qed.

(** C8, as amended: for every name prefix that is not empty once its
    leading and trailing slashes are stripped, the prefix that is
    interpolated is the stripped prefix followed by one slash; the
    stripped prefix neither starts nor ends with a slash; and every
    route is rooted at [/v2/{stripped prefix}/{name}/]. *)
Theorem name_prefix_normalized (args : cli_args) (p : string) :
  arg_name_prefix args = Some p → strip slash p ≠ EmptyString →
  let q := strip slash p in
  lstrip slash (main_name_prefix args) = q +:+ "/"
  ∧ ¬ starts_with slash q ∧ ¬ ends_with slash q
  ∧ ∀ fs_scan fs_emit root server_root with_constants only_constants f uri,
      f ∈ yielded (create_config_fragments fs_scan fs_emit root server_root
                     (main_name_prefix args) with_constants only_constants) →
      frag_location f = Some uri →
      ∃ name rest,
        frag_name f = Some name
        ∧ uri = "/v2/" +:+ q +:+ "/" +:+ name +:+ "/" +:+ rest.
Proof.
  intros Hp Hq. cbn zeta.
  assert (lstrip slash (main_name_prefix args) = strip slash p +:+ "/") as Hl.
  { unfold main_name_prefix, or_empty. rewrite Hp. simpl.
    apply lstrip_app_nonempty; [done|apply strip_not_starts_with]. }
  split_and!; [done|apply strip_not_starts_with|apply strip_not_ends_with|].
  intros fs_scan fs_emit root server_root wc oc f uri Hf Hloc.
  destruct (create_config_locations _ _ _ _ _ _ _ _ _ Hf Hloc)
    as (name & rest & Hname & ->).
  exists name, rest. split; [done|]. by rewrite Hl, !string_app_assoc.
Qed.

(** C10: without a name prefix (the flag absent, or given as the empty
    string) [main] passes the prefix ["/"], which the emitter strips to
    the empty string: the output is that of an emitter called with the
    empty prefix, and every route is rooted at [/v2/{name}/]. *)
Theorem empty_name_prefix (args : cli_args) :
  arg_name_prefix args = None ∨ arg_name_prefix args = Some EmptyString →
  main_name_prefix args = "/"
  ∧ lstrip slash (main_name_prefix args) = EmptyString
  ∧ ∀ fs_scan fs_emit root server_root with_constants only_constants,
      create_config fs_scan fs_emit root server_root (main_name_prefix args)
        with_constants only_constants
      = create_config fs_scan fs_emit root server_root EmptyString
          with_constants only_constants
      ∧ ∀ f uri,
          f ∈ yielded (create_config_fragments fs_scan fs_emit root server_root
                         (main_name_prefix args) with_constants only_constants) →
          frag_location f = Some uri →
          ∃ name rest,
            frag_name f = Some name ∧ uri = "/v2/" +:+ name +:+ "/" +:+ rest.
Proof.
  intros Hp.
  assert (main_name_prefix args = "/") as Hm.
  { unfold main_name_prefix, or_empty. by destruct Hp as [-> | ->]. }
  rewrite Hm. split_and!; [done..|].
  intros fs_scan fs_emit root server_root wc oc. split.
  - unfold create_config.
    by rewrite (create_config_fragments_lstrip _ _ _ _ "/" EmptyString).
  - intros f uri Hf Hloc.
    destruct (create_config_locations _ _ _ _ _ _ _ _ _ Hf Hloc)
      as (name & rest & Hname & ->).
    by exists name, rest.
Qed.

(** C2 on a manifest that is JSON but not an object: [data.get] raises
    [AttributeError], and discovery stops there instead of skipping the
    entry. *)
Theorem find_images_non_object_raises (content : list byte) (data : pyvalue) :
  json_load content = Loaded data → truthy data = true →
  (∀ items, data ≠ PyDict items) →
  let fs := Dir [("app", Dir [("v1", Dir [("manifest.json", File content)])])] in
  find_images fs [] = Gen [] (Some AttributeError)
  ∧ ∀ server_root name_prefix,
      create_config fs fs [] server_root name_prefix true false
      = Gen [CONSTANTS] (Some AttributeError).
Proof.
  intros Hload Htruthy Hdict. cbn zeta.
  assert (find_images
            (Dir [("app", Dir [("v1", Dir [("manifest.json", File content)])])])
            [] = Gen [] (Some AttributeError)) as Hfind.
  { cbv -[json_load truthy py_get]. rewrite Hload, Htruthy.
    destruct data; try done. by destruct (Hdict items). }
  split; [done|]. intros server_root name_prefix.
  unfold create_config, create_config_fragments, discovered_routes.
  by rewrite Hfind.
Qed.
End prefix.

(** ** Discovery where every manifest is an object or is not JSON *)

Section find_images_spec.
Context `{JsonLib}.
Variables (fs : node) (root : path).

Lemma manifest_path_join name tag :
  os_path_join (os_path_join root [name; tag]) [MANIFEST_JSON]
  = os_path_join root [name; tag; MANIFEST_JSON].
Proof. unfold os_path_join. by rewrite <-(assoc_L (++)). Qed.

Lemma isfile_open_read p :
  os_path_isfile fs p = true ↔ ∃ content, open_read fs p = Ok content.
Proof.
  unfold os_path_isfile, open_read.
  destruct (resolve fs p) as [[content|entries]|e]; naive_solver.
Qed.

Lemma py_in_strs_Some data l media_type :
  py_in_strs data l = Some media_type ↔ data = PyStr media_type ∧ media_type ∈ l.
Proof.
  destruct data; simpl; try naive_solver. case_bool_decide; naive_solver.
Qed.

(** What one tag directory contributes. *)
Lemma find_images_tag_spec name tag :
  objects_only fs root →
  raised (find_images_tag fs root name tag) = None
  ∧ ∀ x, x ∈ yielded (find_images_tag fs root name tag) ↔
      ∃ media_type,
        x = (name, tag, media_type)
        ∧ os_path_isdir fs (os_path_join root [name; tag]) = true
        ∧ ∃ content data,
            open_read fs (os_path_join root [name; tag; MANIFEST_JSON]) = Ok content
            ∧ json_load content = Loaded data
            ∧ valid_manifest data media_type.
Proof.
  intros Hobj. unfold find_images_tag, load_manifest.
  rewrite manifest_path_join.
  destruct (os_path_isdir fs (os_path_join root [name; tag])) eqn:Hdir;
    cbn [negb]; [|split; [done|]; intros x; rewrite elem_of_nil; naive_solver].
  destruct (os_path_isfile fs _) eqn:Hfile; cbn [negb].
  2:{ split; [done|]. intros x. rewrite elem_of_nil. split; [done|].
      intros (mt & _ & _ & content & data & Hopen & _).
      assert (os_path_isfile fs (os_path_join root [name; tag; MANIFEST_JSON])
              = true) by (apply isfile_open_read; eauto). congruence. }
  apply isfile_open_read in Hfile as [content Hopen]. rewrite Hopen.
  pose proof (Hobj name tag content Hopen) as Hload.
  destruct (json_load content) as [data| |e] eqn:Hjson; [| |done].
  2:{ split; [done|]. intros x. cbn. rewrite elem_of_nil. split; [done|].
      intros (mt & _ & _ & content' & data & Hopen' & Hjson' & _).
      congruence. }
  match goal with
  | |- raised ?G = None ∧ _ =>
      enough (raised G = None
              ∧ ∀ x, x ∈ yielded G ↔
                  ∃ mt, x = (name, tag, mt) ∧ valid_manifest data mt) as [Hr Hy]
  end.
  { split; [done|]. intros x. rewrite Hy. split.
    - intros (mt & -> & Hvalid). exists mt. split_and!; eauto.
    - intros (mt & -> & _ & content' & data' & Hopen' & Hjson' & Hvalid).
      exists mt. split; [done|]. simplify_eq.
      rewrite Hjson in Hjson'. by simplify_eq. }
  unfold valid_manifest.
  destruct (truthy data) eqn:Htruthy; cbn [negb].
  2:{ split; [done|]. intros x. rewrite elem_of_nil. naive_solver. }
  destruct (Hload eq_refl) as [items ->]. cbn [py_get].
  destruct (py_eq_int (default PyNone (dict_lookup "schemaVersion" items)) 2)
    eqn:Hschema; cbn [negb].
  2:{ split; [done|]. intros x. rewrite elem_of_nil. split; [done|].
      intros (mt & _ & _ & items' & [= <-] & Hs & _). congruence. }
  destruct (py_in_strs _ _) as [mt|] eqn:Hmedia.
  - apply py_in_strs_Some in Hmedia as [Hmt Hin]. split; [done|].
    intros x. cbn [yielded gen_yield]. rewrite list_elem_of_singleton. split.
    + intros ->. exists mt. split_and!; try done. exists items.
      split_and!; try done.
      destruct (dict_lookup "mediaType" items); simpl in Hmt; by subst.
    + intros (mt' & -> & _ & items' & [= <-] & _ & Hmt' & _).
      rewrite Hmt' in Hmt. simpl in Hmt. congruence.
  - split; [done|]. intros x. cbn. rewrite elem_of_nil. split; [done|].
    intros (mt' & _ & _ & items' & [= <-] & _ & Hmt' & Hin).
    rewrite Hmt' in Hmedia. simpl in Hmedia.
    by rewrite bool_decide_true in Hmedia.
Qed.

(** Where every manifest is an object or is not JSON, discovery goes
    through the whole tree and yields exactly the entries that the
    specification describes: the part of C2 that holds. *)
Lemma find_images_objects_only names :
  os_listdir fs root = Ok names → objects_only fs root →
  raised (find_images fs root) = None
  ∧ ∀ name tag media_type,
      (name, tag, media_type) ∈ yielded (find_images fs root) ↔
      name ∈ names
      ∧ (∃ tags, os_listdir fs (os_path_join root [name]) = Ok tags ∧ tag ∈ tags)
      ∧ discoverable fs root name tag media_type.
Proof.
  intros Hnames Hobj. unfold find_images. rewrite Hnames.
  assert (∀ name, raised (find_images_name fs root name) = None) as Hraised.
  { intros name. unfold find_images_name.
    destruct (os_path_isdir fs _) eqn:Hdir; cbn [negb]; [|done].
    destruct (os_listdir fs (os_path_join root [name])) as [tags|e] eqn:Htags.
    - apply raised_gen_for_None, Forall_forall. intros tag _.
      by apply find_images_tag_spec.
    - unfold os_path_isdir in Hdir. unfold os_listdir in Htags.
      by destruct (resolve fs (os_path_join root [name])) as [[]|]. }
  split.
  { apply raised_gen_for_None, Forall_forall. by intros name _. }
  intros name tag mt.
  rewrite yielded_gen_for_None
    by (apply raised_gen_for_None, Forall_forall; by intros ? _).
  rewrite list_elem_of_bind. unfold discoverable. split.
  - intros (name' & Hx & Hname'). unfold find_images_name in Hx.
    destruct (os_path_isdir fs (os_path_join root [name'])) eqn:Hdir;
      cbn [negb] in Hx; [|by apply elem_of_nil in Hx].
    destruct (os_listdir fs (os_path_join root [name'])) as [tags|e] eqn:Htags;
      [|by apply elem_of_nil in Hx].
    apply elem_of_yielded_gen_for in Hx as (tag' & Htag' & Hx).
    apply find_images_tag_spec in Hx as (mt' & [= <- <- <-] & ? & ?); [|done].
    split_and!; eauto.
  - intros (Hname & (tags & Htags & Htag) & Hdir & Hdir' & Hvalid).
    exists name. split; [|done]. unfold find_images_name.
    rewrite Hdir, Htags. cbn [negb].
    rewrite yielded_gen_for_None.
    + apply list_elem_of_bind. exists tag. split; [|done].
      apply find_images_tag_spec; [done|]. eauto.
    + apply raised_gen_for_None, Forall_forall. intros tag' _.
      by apply find_images_tag_spec.
Qed.

(** What discovery found can be read: on an unchanged tree the digest of
    every discovered manifest is computed. *)
Lemma find_images_readable name tag media_type :
  (name, tag, media_type) ∈ yielded (find_images fs root) →
  ∃ d, digest_of fs root name tag = Ok d.
Proof.
  intros Hx%find_images_elem_of. cbn [fst snd] in Hx.
  unfold find_images_tag in Hx. rewrite manifest_path_join in Hx.
  destruct (negb (os_path_isdir fs _)); [by apply elem_of_nil in Hx|].
  destruct (os_path_isfile fs _) eqn:Hfile; cbn [negb] in Hx;
    [|by apply elem_of_nil in Hx].
  apply isfile_open_read in Hfile as [content Hopen].
  exists (SHA256.hexdigest content). by apply compute_digest_content.
Qed.

Lemma discovered_all_readable :
  all_readable fs root (collect_images (yielded (find_images fs root))).
Proof.
  intros name tags tag mt Hname Htag.
  eapply find_images_readable, collect_images_lookup; done.
Qed.

(** On an unchanged tree, [create_config] returns when discovery does. *)
Lemma create_config_unchanged_returns server_root name_prefix
    with_constants only_constants :
  raised (find_images fs root) = None →
  raised (create_config fs fs root server_root name_prefix
            with_constants only_constants) = None.
Proof.
  intros Hfind. unfold create_config. cbn [raised].
  rewrite create_config_fragments_unfold. cbn zeta.
  assert (raised (discovered_routes fs fs root server_root name_prefix) = None).
  { rewrite discovered_routes_found by done.
    apply inventory_raised_None, discovered_all_readable. }
  by destruct with_constants, only_constants.
Qed.
End find_images_spec.

(** ** The flags of the constants *)

(** C7: what [main] writes for each combination of [--omit-constants]
    and [--only-constants].  Both: the argument parser rejects the
    command line.  [--only-constants]: the constants and nothing else,
    whatever the tree holds - also a tree on which discovery would raise.
    [--omit-constants]: the fragments of the images, without the
    constants.  Neither: the constants, then the fragments of the images.
    And the fragments of the images are those of discovery: each is about
    an entry that [find_images] yielded; when [find_images] raises, its
    exception ends the run before any of them; and when it returns and
    the manifests can be read - as they can on an unchanged tree - the
    run returns and has written, for every entry that [find_images]
    yielded, the tag list of its image (the discovered tags of the image,
    each once, in order), the route of its tag with the media type that
    discovery recorded, and the blob route of its image. *)
Theorem constants_flags `{JsonLib} (args : cli_args) (fs_scan fs_emit : node) :
  let root := arg_root args in
  let server_root := main_server_root args in
  let pfx := lstrip slash (main_name_prefix args) in
  let found := find_images fs_scan root in
  let images :=
    discovered_routes fs_scan fs_emit root server_root (main_name_prefix args) in
  (Constants ∉ yielded images)
  ∧ match arg_omit_constants args, arg_only_constants args with
    | true, true => main args fs_scan fs_emit = None
    | false, true => main args fs_scan fs_emit = Some (Gen [CONSTANTS] None)
    | true, false =>
        main args fs_scan fs_emit
        = Some (Gen (render <$> yielded images) (raised images))
    | false, false =>
        main args fs_scan fs_emit
        = Some (Gen (CONSTANTS :: (render <$> yielded images)) (raised images))
    end
  ∧ (∀ f, f ∈ yielded images →
       ∃ name tag media_type,
         frag_name f = Some name ∧ (name, tag, media_type) ∈ yielded found)
  ∧ (∀ e, raised found = Some e → images = gen_raise e)
  ∧ (raised found = None → fs_emit = fs_scan →
     all_readable fs_emit root (collect_images (yielded found)))
  ∧ (raised found = None →
     all_readable fs_emit root (collect_images (yielded found)) →
     raised images = None
     ∧ ∀ name tag media_type,
         (name, tag, media_type) ∈ yielded found →
         ∃ d keys,
           digest_of fs_emit root name tag = Ok d
           ∧ StronglySorted String.le keys ∧ NoDup keys
           ∧ (∀ tag', tag' ∈ keys ↔ ∃ media_type', (name, tag', media_type') ∈ yielded found)
           ∧ TagsList name pfx (json_dumps_tag_list name keys) ∈ yielded images
           ∧ ManifestByTag name tag media_type pfx d server_root ∈ yielded images
           ∧ Blobs pfx server_root name
               (join " " ((λ tag', tag' +:+ "/$1") <$> keys)) ∈ yielded images).
Proof.
  cbn zeta. split_and!.
  - apply discovered_routes_no_constants.
  - unfold main, create_config.
    destruct (arg_omit_constants args), (arg_only_constants args);
      cbn [andb negb]; rewrite ?create_config_fragments_unfold; done.
  - intros f Hf. unfold discovered_routes in Hf.
    destruct (raised (find_images fs_scan (arg_root args)));
      [by apply elem_of_nil in Hf|].
    apply elem_of_yielded_gen_for in Hf as ([name tags] & Hin & Hf).
    apply elem_of_sorted_items in Hin. apply image_routes_name in Hf.
    destruct (collect_images_nonempty _ _ _ Hin) as (tag & mt & Htag).
    exists name, tag, mt. split; [done|]. by eapply collect_images_lookup.
  - intros e He. by apply discovered_routes_raised.
  - intros _ ->. apply discovered_all_readable.
  - intros Hfound Hall. rewrite discovered_routes_found by done.
    split; [by apply inventory_raised_None|].
    intros name tag mt Hin.
    destruct (collect_images_elem_of _ _ _ _ Hin) as (tags & Himage & [mt' Htag]).
    assert (mt' = mt) as ->.
    { pose proof (collect_images_lookup _ _ _ _ _ Himage Htag) as Hin'.
      by injection (find_images_functional _ _ _ _ Hin' Hin eq_refl). }
    destruct (Hall name tags tag mt Himage Htag) as [d Hd].
    assert (readable fs_emit (arg_root args) name (sorted_items tags)) as Hr.
    { apply image_readable. intros ??. by apply Hall. }
    exists d, (sorted_keys tags). split_and!.
    + done.
    + apply sorted_keys_sorted.
    + apply sorted_keys_NoDup.
    + intros tag'. rewrite elem_of_sorted_keys. by apply collect_images_tags.
    + eapply image_elem_of_inventory; [done..|].
      rewrite image_routes_readable by done. by left.
    + eapply image_elem_of_inventory; [done..|].
      rewrite image_routes_readable by done. right. apply elem_of_app. left.
      apply routes_by_tag_elem_of; [done| |done]. by apply elem_of_sorted_items.
    + eapply image_elem_of_inventory; [done..|].
      rewrite image_routes_readable by done. right. apply elem_of_app. right.
      by left.
Qed.

(** * Closed instances *)

Example sha256_empty :
  hexdigest hashlib_sha256
  = "e3b0c44298fc1c149afbf4c8996fb92427ae41e4649b934ca495991b7852b855".
Proof. vm_compute. reflexivity. Qed.

Example sha256_abc :
  hexdigest (update hashlib_sha256 (String.list_byte_of_string "abc"))
  = "ba7816bf8f01cfea414140de5dae2223b00361a396177a9cb410ff61f20015ad".
Proof. vm_compute. reflexivity. Qed.

Example sha256_two_blocks :
  hexdigest (update hashlib_sha256 (String.list_byte_of_string
    "abcdbcdecdefdefgefghfghighijhijkijkljklmklmnlmnomnopnopq"))
  = "248d6a61d20638b8e5c026930c3e6039a33ce45964ff2167f6ecedd419db06c1".
Proof. vm_compute. reflexivity. Qed.

Example strip_examples :
  strip slash "/foo/" = "foo" ∧ strip slash "//a/b//" = "a/b"
  ∧ strip slash "///" = EmptyString ∧ lstrip slash "//a/" = "a/".
Proof. by vm_compute. Qed.

Example find_images_tree_app :
  find_images (H:=table_json) tree_app []
  = Gen [("app", "v2", DOCKER_MANIFEST_V2); ("app", "v1", DOCKER_MANIFEST_V2)] None.
Proof. vm_compute. reflexivity. Qed.

Example find_images_tree_two_images :
  find_images (H:=table_json) tree_two_images [] = Gen found_two_images None.
Proof. vm_compute. reflexivity. Qed.

(** The scenario of the specification: [app/v1] and [app/v2] with the same
    manifest give one tag list, two tag-addressed routes, one
    digest-addressed route (for [v1]), the comment for [v2], and one blob
    route that tries [v1/$1] and then [v2/$1]; [lib] gives nothing. *)
Example create_config_tree_app :
  let d := "7963a62f67054e11ff206bbec689aded4126f79cc13fb089ee37563bbb8d7aea" in
  create_config_fragments (H:=table_json) tree_app tree_app [] "/srv" "/"
    false false
  = Gen [TagsList "app" EmptyString
           ("{" +:+ dq +:+ "name" +:+ dq +:+ ": " +:+ dq +:+ "app" +:+ dq +:+ ", "
            +:+ dq +:+ "tags" +:+ dq +:+ ": [" +:+ dq +:+ "v1" +:+ dq +:+ ", "
            +:+ dq +:+ "v2" +:+ dq +:+ "]}");
         ManifestByTag "app" "v1" DOCKER_MANIFEST_V2 EmptyString d "/srv";
         ManifestByDigest "app" "v1" DOCKER_MANIFEST_V2 EmptyString d "/srv";
         ManifestByTag "app" "v2" DOCKER_MANIFEST_V2 EmptyString d "/srv";
         DigestAlreadyServed "app" "v2";
         Blobs EmptyString "/srv" "app" "v1/$1 v2/$1"] None.
Proof. vm_compute. reflexivity. Qed.

Lemma all_readable_two_images : all_readable tree_two_images [] images_two.
Proof.
  intros name tags tag mt Hn Ht.
  pose proof (collect_images_lookup _ _ _ _ _ Hn Ht) as Hin.
  unfold found_two_images in Hin. rewrite !elem_of_cons, elem_of_nil in Hin.
  exists oci_digest. destruct_or!; simplify_eq; try done; vm_compute; reflexivity.
Qed.

Lemma images_two_bar : images_two !! "bar" = Some tags_bar.
Proof. vm_compute. reflexivity. Qed.

Lemma digest_routes_deduplicated_witness :
  all_readable tree_two_images [] images_two
  ∧ raised (inventory_routes (H:=table_json) tree_two_images [] "/srv" "/"
              images_two) = None.
Proof.
  split; [exact all_readable_two_images|].
  exact (proj1 (digest_routes_deduplicated (H:=table_json) tree_two_images []
                  "/srv" "/" images_two all_readable_two_images)).
Defined.

Lemma blob_route_per_image_witness :
  all_readable tree_two_images [] images_two
  ∧ images_two !! "bar" = Some tags_bar
  ∧ filter (is_blob_route "bar")
      (yielded (inventory_routes (H:=table_json) tree_two_images [] "/srv" "/"
                  images_two))
    = [Blobs (lstrip slash "/") "/srv" "bar"
         (join " " ((λ tag, tag +:+ "/$1") <$> sorted_keys tags_bar))].
Proof.
  split; [exact all_readable_two_images|]. split; [exact images_two_bar|].
  exact (proj1 (blob_route_per_image (H:=table_json) tree_two_images []
                  "/srv" "/" images_two "bar" tags_bar
                  all_readable_two_images images_two_bar)).
Defined.

Lemma manifest_routes_serving_witness :
  all_readable tree_two_images [] images_two
  ∧ images_two !! "bar" = Some tags_bar
  ∧ ∃ before, render Constants = before +:+ handler_404_tag.
Proof.
  split; [exact all_readable_two_images|]. split; [exact images_two_bar|].
  exact (proj2 (proj2 (manifest_routes_serving (H:=table_json) tree_two_images []
                         "/srv" "/" images_two "bar" tags_bar
                         all_readable_two_images images_two_bar))).
Defined.


Lemma create_config_deterministic_witness :
  raised (find_images (H:=table_json) tree_app [])
  = raised (find_images (H:=table_json) tree_app_relisted [])
  ∧ yielded (find_images (H:=table_json) tree_app [])
    ≡ₚ yielded (find_images (H:=table_json) tree_app_relisted [])
  ∧ create_config (H:=table_json) tree_app tree_app [] "/srv" "/" true false
    = create_config (H:=table_json) tree_app_relisted tree_app_relisted []
        "/srv" "/" true false.
Proof.
  assert (yielded (find_images (H:=table_json) tree_app [])
          ≡ₚ yielded (find_images (H:=table_json) tree_app_relisted []))
    as Hperm.
  { vm_compute. apply perm_swap. }
  assert (∀ name tag media_type,
            (name, tag, media_type) ∈ yielded (find_images (H:=table_json) tree_app []) →
            digest_of tree_app [] name tag = digest_of tree_app_relisted [] name tag)
    as Hdigest.
  { intros name tag mt Hin. rewrite find_images_tree_app in Hin.
    cbn [yielded] in Hin. rewrite !elem_of_cons, elem_of_nil in Hin.
    destruct_or!; simplify_eq; try done; vm_compute; reflexivity. }
  split; [reflexivity|]. split; [exact Hperm|].
  exact (proj1 (create_config_deterministic (H:=table_json) [] "/srv" "/"
                  tree_app tree_app_relisted true false eq_refl Hperm Hdigest)).
Defined.

Lemma digest_failure_stops_emission_witness :
  raised (find_images (H:=table_json) tree_app []) = None
  ∧ ("app", "v2", DOCKER_MANIFEST_V2)
      ∈ yielded (find_images (H:=table_json) tree_app [])
  ∧ open_read tree_app_v2_gone (os_path_join [] ["app"; "v2"; MANIFEST_JSON])
    = Raise FileNotFoundError
  ∧ is_Some (raised (create_config_fragments (H:=table_json) tree_app
                       tree_app_v2_gone [] "/srv" "/" true false)).
Proof.
  assert (("app", "v2", DOCKER_MANIFEST_V2)
            ∈ yielded (find_images (H:=table_json) tree_app [])) as Hin.
  { vm_compute. left. }
  split; [reflexivity|]. split; [exact Hin|]. split; [reflexivity|].
  exact (proj1 (proj2 (digest_failure_stops_emission (H:=table_json) [] "/srv" "/"
                         tree_app tree_app_v2_gone true "app" "v2"
                         DOCKER_MANIFEST_V2 FileNotFoundError
                         eq_refl Hin eq_refl))).
Defined.

Lemma name_prefix_normalized_witness :
  strip slash "/foo/" ≠ EmptyString
  ∧ lstrip slash (main_name_prefix (args_prefix (Some "/foo/")))
    = strip slash "/foo/" +:+ "/".
Proof.
  assert (strip slash "/foo/" ≠ EmptyString) as Hq by (vm_compute; discriminate).
  split; [exact Hq|].
  exact (proj1 (name_prefix_normalized (H:=table_json)
                  (args_prefix (Some "/foo/")) "/foo/" eq_refl Hq)).
Defined.

Lemma empty_name_prefix_witness :
  (arg_name_prefix (args_prefix None) = None
   ∨ arg_name_prefix (args_prefix None) = Some EmptyString)
  ∧ main_name_prefix (args_prefix None) = "/".
Proof.
  split; [left; reflexivity|].
  exact (proj1 (empty_name_prefix (H:=table_json) (args_prefix None)
                  (or_introl eq_refl))).
Defined.

Lemma find_images_non_object_raises_witness :
  json_load (JsonLib:=table_json) (String.list_byte_of_string "[1]")
  = Loaded (PyList [PyInt 1])
  ∧ truthy (PyList [PyInt 1]) = true
  ∧ find_images (H:=table_json) tree_array_manifest []
    = Gen [] (Some AttributeError).
Proof.
  split; [reflexivity|]. split; [reflexivity|].
  exact (proj1 (find_images_non_object_raises (H:=table_json)
                  (String.list_byte_of_string "[1]") (PyList [PyInt 1])
                  eq_refl eq_refl
                  (λ items (Heq : PyList [PyInt 1] = PyDict items),
                     eq_ind (PyList [PyInt 1])
                       (λ v, match v with PyList _ => True | _ => False end)
                       I (PyDict items) Heq))).
Defined.

(** [--omit-constants] on [tree_app]: discovery returns, the tree is the
    same when the routes are written, and the route of [app:v2] is among
    what [main] writes. *)
Lemma constants_flags_witness :
  raised (find_images (H:=table_json) tree_app []) = None
  ∧ ("app", "v2", DOCKER_MANIFEST_V2)
      ∈ yielded (find_images (H:=table_json) tree_app [])
  ∧ all_readable tree_app []
      (collect_images (yielded (find_images (H:=table_json) tree_app [])))
  ∧ ∃ d keys,
      digest_of tree_app [] "app" "v2" = Ok d
      ∧ StronglySorted String.le keys ∧ NoDup keys
      ∧ (∀ tag', tag' ∈ keys ↔
           ∃ media_type',
             ("app", tag', media_type')
               ∈ yielded (find_images (H:=table_json) tree_app []))
      ∧ TagsList "app" EmptyString (json_dumps_tag_list (H:=table_json) "app" keys)
          ∈ yielded (discovered_routes (H:=table_json) tree_app tree_app []
                       "/srv" "/")
      ∧ ManifestByTag "app" "v2" DOCKER_MANIFEST_V2 EmptyString d "/srv"
          ∈ yielded (discovered_routes (H:=table_json) tree_app tree_app []
                       "/srv" "/")
      ∧ Blobs EmptyString "/srv" "app"
          (join " " ((λ tag', tag' +:+ "/$1") <$> keys))
          ∈ yielded (discovered_routes (H:=table_json) tree_app tree_app []
                       "/srv" "/").
Proof.
  assert (("app", "v2", DOCKER_MANIFEST_V2)
            ∈ yielded (find_images (H:=table_json) tree_app [])) as Hin.
  { vm_compute. left. }
  destruct (constants_flags (H:=table_json)
              (CliArgs None true false (Some "/srv") []) tree_app tree_app)
    as (_ & _ & _ & _ & Hreadable & Hroutes).
  split; [reflexivity|]. split; [exact Hin|].
  split; [exact (Hreadable eq_refl eq_refl)|].
  exact (proj2 (Hroutes eq_refl (Hreadable eq_refl eq_refl))
           "app" "v2" DOCKER_MANIFEST_V2 Hin).
Defined.

(** [--only-constants] on a tree on which discovery raises: the constants
    are written and the run returns. *)
Example only_constants_no_discovery :
  raised (find_images (H:=table_json) tree_array_manifest [])
  = Some AttributeError
  ∧ main (H:=table_json) (CliArgs None false true None [])
      tree_array_manifest tree_array_manifest
    = Some (Gen [CONSTANTS] None).
Proof. split; vm_compute; reflexivity. Qed.

(** C8 fails for the prefix ["/"]: it is not empty, but nothing is left of
    it once the slashes are stripped, and the routes of image [bar] are at
    [/v2/bar/...], where the claim has them at [/v2//bar/...]. *)
Lemma name_prefix_slash_counterexample :
  ¬ name_prefix_claim_as_stated (H:=table_json) "/".
Proof.
  intros Hclaim.
  destruct (Hclaim ltac:(discriminate) tree_two_images tree_two_images []
              "/srv" false false
              (Blobs EmptyString "/srv" "bar" "v1/$1 v2/$1")
              "/v2/bar/blobs/sha256:([a-f0-9]{64})")
    as (name & rest & Hname & Huri).
  - vm_compute. do 5 right. left.
  - reflexivity.
  - vm_compute in Huri. discriminate.
Qed.

Example slash_prefix_routes :
  yielded (create_config_fragments (H:=table_json) tree_two_images
             tree_two_images [] "/srv" (main_name_prefix (args_prefix (Some "/")))
             false false)
  = yielded (create_config_fragments (H:=table_json) tree_two_images
               tree_two_images [] "/srv" EmptyString false false).
Proof. vm_compute. reflexivity. Qed.

(** [2.0 == 2] holds in Python, [True == 2] and ['2' == 2] do not. *)
Example py_eq_int_examples :
  py_eq_int (PyFloat (SpecFloat.S754_finite false 4503599627370496 (-51))) 2 = true
  ∧ py_eq_int (PyInt 2) 2 = true
  ∧ py_eq_int (PyBool true) 2 = false
  ∧ py_eq_int (PyStr "2") 2 = false.
Proof. by vm_compute. Qed.

(** The digest that [foo:v1], [bar:v1] and [bar:v2] share has its route in
    each of the two images, for the first tag. *)
Example two_images_share_digest :
  let out := yielded (inventory_routes (H:=table_json) tree_two_images []
                        "/srv" "/" images_two) in
  filter (is_digest_route "bar" oci_digest) out
  = [ManifestByDigest "bar" "v1" OCI_MANIFEST_V1 EmptyString oci_digest "/srv"]
  ∧ filter (is_digest_route "foo" oci_digest) out
    = [ManifestByDigest "foo" "v1" OCI_MANIFEST_V1 EmptyString oci_digest "/srv"]
  ∧ DigestAlreadyServed "bar" "v2" ∈ out.
Proof. vm_compute. split_and!; [done..|]. do 4 right. left. Qed.

(** A manifest that disappeared after discovery: the run stops with the
    error before any route is written for [app:v2]. *)
Example create_config_manifest_gone :
  let d := "7963a62f67054e11ff206bbec689aded4126f79cc13fb089ee37563bbb8d7aea" in
  create_config_fragments (H:=table_json) tree_app tree_app_v2_gone [] "/srv" "/"
    true false
  = Gen [Constants;
         TagsList "app" EmptyString
           ("{" +:+ dq +:+ "name" +:+ dq +:+ ": " +:+ dq +:+ "app" +:+ dq +:+ ", "
            +:+ dq +:+ "tags" +:+ dq +:+ ": [" +:+ dq +:+ "v1" +:+ dq +:+ ", "
            +:+ dq +:+ "v2" +:+ dq +:+ "]}");
         ManifestByTag "app" "v1" DOCKER_MANIFEST_V2 EmptyString d "/srv";
         ManifestByDigest "app" "v1" DOCKER_MANIFEST_V2 EmptyString d "/srv"]
        (Some FileNotFoundError).
Proof. vm_compute. reflexivity. Qed.

(** * Further properties of the script *)

(** ** Discovery *)

Lemma raised_gen_for_Some {A B} (l : list A) (body : A → gen B) e :
  raised (gen_for l body) = Some e → ∃ x, x ∈ l ∧ raised (body x) = Some e.
Proof.
  induction l as [|x l IH]; [done|]. cbn [gen_for]. unfold gen_seq.
  destruct (raised (body x)) as [e'|] eqn:Hx.
  - rewrite Hx. intros [= ->]. exists x. split; [by left|done].
  - cbn [raised]. intros (y & Hy & He)%IH. exists y. split; [by right|done].
Qed.

Lemma NoDup_prefix {A} (l1 l2 : list A) :
  l1 `prefix_of` l2 → NoDup l2 → NoDup l1.
Proof. intros [k ->]. by intros [? _]%NoDup_app. Qed.

Section discovery.
Context `{JsonLib}.
Variables (fs : node) (root : path).

Lemma find_images_tag_sound name tag x :
  x ∈ yielded (find_images_tag fs root name tag) →
  ∃ media_type,
    x = (name, tag, media_type)
    ∧ os_path_isdir fs (os_path_join root [name; tag]) = true
    ∧ ∃ content data,
        open_read fs (os_path_join root [name; tag; MANIFEST_JSON]) = Ok content
        ∧ json_load content = Loaded data
        ∧ valid_manifest data media_type.
Proof.
  unfold find_images_tag, load_manifest. rewrite manifest_path_join.
  destruct (os_path_isdir fs (os_path_join root [name; tag])) eqn:Hdir;
    cbn [negb]; [|by intros ?%elem_of_nil].
  destruct (os_path_isfile fs _) eqn:Hfile; cbn [negb];
    [|by intros ?%elem_of_nil].
  apply isfile_open_read in Hfile as [content Hopen]. rewrite Hopen.
  destruct (json_load content) as [data| |e] eqn:Hjson;
    [|by intros ?%elem_of_nil..].
  destruct (truthy data) eqn:Htruthy; cbn [negb]; [|by intros ?%elem_of_nil].
  destruct data as [| | | | | |items]; cbn [py_get];
    try by intros ?%elem_of_nil.
  destruct (py_eq_int _ 2) eqn:Hschema; cbn [negb]; [|by intros ?%elem_of_nil].
  destruct (py_in_strs _ _) as [mt|] eqn:Hmedia; [|by intros ?%elem_of_nil].
  apply py_in_strs_Some in Hmedia as [Hmt Hin].
  intros ->%list_elem_of_singleton. exists mt. split_and!; [done..|].
  exists content, (PyDict items). split_and!; [done..|].
  split; [done|]. exists items. split_and!; [done..| |done].
  destruct (dict_lookup "mediaType" items); simpl in Hmt; by subst.
Qed.

Lemma find_images_listed x :
  x ∈ yielded (find_images fs root) →
  (∃ names, os_listdir fs root = Ok names ∧ x.1.1 ∈ names)
  ∧ os_path_isdir fs (os_path_join root [x.1.1]) = true
  ∧ (∃ tags, os_listdir fs (os_path_join root [x.1.1]) = Ok tags ∧ x.1.2 ∈ tags).
Proof.
  unfold find_images. destruct (os_listdir fs root) as [names|e];
    [|by intros ?%elem_of_nil].
  intros (name & Hname & Hx)%elem_of_yielded_gen_for.
  unfold find_images_name in Hx.
  destruct (os_path_isdir fs (os_path_join root [name])) eqn:Hdir;
    cbn [negb] in Hx; [|by apply elem_of_nil in Hx].
  destruct (os_listdir fs (os_path_join root [name])) as [tags|e] eqn:Htags;
    [|by apply elem_of_nil in Hx].
  apply elem_of_yielded_gen_for in Hx as (tag & Htag & Hx).
  destruct (find_images_tag_yielded _ _ _ _ _ Hx) as (_ & <- & <-).
  rewrite Hdir, Htags. split_and!; eauto.
Qed.

(** X1: whatever discovery yields - also in a run that an exception ends
    later - is an entry of the tree: the name is listed in the root and is
    a directory, the tag is listed in it and is a directory, and its
    [manifest.json] is a file that parses to a truthy object with
    [schemaVersion == 2] and that supported media type. *)
Theorem find_images_sound (name tag media_type : string) :
  (name, tag, media_type) ∈ yielded (find_images fs root) →
  (∃ names, os_listdir fs root = Ok names ∧ name ∈ names)
  ∧ (∃ tags, os_listdir fs (os_path_join root [name]) = Ok tags ∧ tag ∈ tags)
  ∧ discoverable fs root name tag media_type
  ∧ media_type ∈ [DOCKER_MANIFEST_V2; OCI_MANIFEST_V1].
Proof.
  intros Hx. destruct (find_images_listed _ Hx) as (Hnames & Hdir & Htags).
  apply find_images_elem_of, find_images_tag_sound in Hx
    as (mt & [= <-] & Hdir' & content & data & Hopen & Hjson & Hvalid).
  cbn [fst snd] in *. split_and!; [done..| |].
  - split_and!; [done..|]. eauto.
  - by destruct Hvalid as (_ & items & _ & _ & _ & ?).
Qed.

(** X2: where no manifest makes [json.load] raise anything but
    [JSONDecodeError] and none parses to a truthy value that is not an
    object, discovery returns, and yields exactly the entries described in
    X1. *)
Theorem find_images_exact (names : list string) :
  os_listdir fs root = Ok names → objects_only fs root →
  raised (find_images fs root) = None
  ∧ ∀ name tag media_type,
      (name, tag, media_type) ∈ yielded (find_images fs root) ↔
      name ∈ names
      ∧ (∃ tags, os_listdir fs (os_path_join root [name]) = Ok tags ∧ tag ∈ tags)
      ∧ discoverable fs root name tag media_type.
Proof. apply find_images_objects_only. Qed.

Lemma find_images_tag_raised name tag e :
  raised (find_images_tag fs root name tag) = Some e →
  ∃ content,
    open_read fs (os_path_join root [name; tag; MANIFEST_JSON]) = Ok content
    ∧ (json_load content = LoadRaises e
       ∨ e = AttributeError
         ∧ ∃ data, json_load content = Loaded data ∧ truthy data = true
                   ∧ ∀ items, data ≠ PyDict items).
Proof.
  unfold find_images_tag, load_manifest. rewrite manifest_path_join.
  destruct (os_path_isdir fs (os_path_join root [name; tag])); cbn [negb]; [|done].
  destruct (os_path_isfile fs _) eqn:Hfile; cbn [negb]; [|done].
  apply isfile_open_read in Hfile as [content Hopen]. rewrite Hopen.
  intros Hraised. exists content. split; [done|].
  destruct (json_load content) as [data| |e'] eqn:Hjson; [|done|].
  - destruct (truthy data) eqn:Htruthy; cbn [negb] in Hraised; [|done].
    destruct data as [| | | | | |items]; cbn [py_get] in Hraised.
    1-6: right; split; [cbn in Hraised; congruence|]; eexists; by split_and!.
    destruct (py_eq_int _ 2); cbn [negb] in Hraised; [|done].
    by destruct (py_in_strs _ _).
  - cbn in Hraised. simplify_eq. by left.
Qed.

(** X3: discovery ends with an exception only when the root cannot be
    listed, or when [json.load] raises something else than
    [JSONDecodeError] on a manifest, or, with [AttributeError], when a
    manifest parses to a truthy value that is not an object. *)
Theorem find_images_raises (e : exn) :
  raised (find_images fs root) = Some e →
  os_listdir fs root = Raise e
  ∨ ∃ name tag content,
      open_read fs (os_path_join root [name; tag; MANIFEST_JSON]) = Ok content
      ∧ (json_load content = LoadRaises e
         ∨ e = AttributeError
           ∧ ∃ data, json_load content = Loaded data ∧ truthy data = true
                     ∧ ∀ items, data ≠ PyDict items).
Proof.
  unfold find_images. destruct (os_listdir fs root) as [names|e'] eqn:Hroot.
  2:{ cbn. intros [= ->]. by left. }
  intros (name & _ & Hname)%raised_gen_for_Some. right.
  unfold find_images_name in Hname.
  destruct (os_path_isdir fs (os_path_join root [name])) eqn:Hdir;
    cbn [negb] in Hname; [|done].
  destruct (os_listdir fs (os_path_join root [name])) as [tags|e'] eqn:Htags.
  - apply raised_gen_for_Some in Hname as (tag & _ & Htag).
    apply find_images_tag_raised in Htag as (content & ? & ?). eauto.
  - unfold os_path_isdir in Hdir. unfold os_listdir in Htags.
    by destruct (resolve fs (os_path_join root [name])) as [[]|].
Qed.

(** X4: in a tree whose directories list every name once, discovery
    yields every (name, tag) pair at most once. *)
Theorem find_images_NoDup :
  listed_once fs root →
  (∀ name, listed_once fs (os_path_join root [name])) →
  NoDup (found_key <$> yielded (find_images fs root)).
Proof.
  intros Hroot Hsub.
  apply NoDup_fmap_2_strong.
  { intros x y Hx Hy Hkey. by apply (find_images_functional fs root). }
  unfold find_images. destruct (os_listdir fs root) as [names|e] eqn:Hnames;
    [|constructor].
  eapply NoDup_prefix; [apply yielded_gen_for_prefix|].
  apply NoDup_bind; [| |by apply Hroot].
  - intros name1 name2 x _ _ Hx1 Hx2.
    assert (∀ name, x ∈ yielded (find_images_name fs root name) → x.1.1 = name)
      as Hname.
    { intros name Hx. unfold find_images_name in Hx.
      destruct (os_path_isdir fs (os_path_join root [name]));
        cbn [negb] in Hx; [|by apply elem_of_nil in Hx].
      destruct (os_listdir fs (os_path_join root [name]));
        [|by apply elem_of_nil in Hx].
      apply elem_of_yielded_gen_for in Hx as (tag & _ & Hx).
      by destruct (find_images_tag_yielded _ _ _ _ _ Hx) as (_ & ? & _). }
    by rewrite <-(Hname _ Hx1), <-(Hname _ Hx2).
  - intros name _. unfold find_images_name.
    destruct (os_path_isdir fs (os_path_join root [name])); cbn [negb];
      [|constructor].
    destruct (os_listdir fs (os_path_join root [name])) as [tags|e] eqn:Htags;
      [|constructor].
    eapply NoDup_prefix; [apply yielded_gen_for_prefix|].
    apply NoDup_bind; [| |by eapply Hsub].
    + intros tag1 tag2 x _ _ Hx1 Hx2.
      destruct (find_images_tag_yielded _ _ _ _ _ Hx1) as (_ & _ & <-).
      by destruct (find_images_tag_yielded _ _ _ _ _ Hx2) as (_ & _ & <-).
    + intros tag _.
      destruct (yielded (find_images_tag fs root name tag)) as [|x l] eqn:Hy;
        [constructor|].
      destruct (find_images_tag_yielded fs root name tag x) as (Hy' & _).
      { rewrite Hy. by left. }
      rewrite Hy in Hy'. rewrite Hy'. apply NoDup_singleton.
Qed.
End discovery.

(** ** The inventory *)

(** X5: the dictionary [images] holds what was discovered and nothing
    else: for a discovery result that gives every (name, tag) pair one
    media type, [images[name][tag]] is [media_type] exactly when the
    triple was discovered; and no image of the dictionary is without a
    tag. *)
Theorem collect_images_spec (found : list (string * string * string)) :
  functional_found found →
  (∀ name tag media_type,
     (∃ tags, collect_images found !! name = Some tags
              ∧ tags !! tag = Some media_type)
     ↔ (name, tag, media_type) ∈ found)
  ∧ (∀ name tags, collect_images found !! name = Some tags → tags ≠ ∅).
Proof.
  intros Hfun. split.
  - intros name tag mt. split.
    + intros (tags & Hname & Htag). by eapply collect_images_lookup.
    + intros Hin. destruct (collect_images_elem_of _ _ _ _ Hin)
        as (tags & Hname & [mt' Htag]).
      exists tags. split; [done|].
      pose proof (collect_images_lookup _ _ _ _ _ Hname Htag) as Hin'.
      by injection (Hfun _ _ Hin' Hin eq_refl) as <-.
  - intros name tags (tag & mt & Htag)%collect_images_nonempty ->.
    by rewrite lookup_empty in Htag.
Qed.

Section output.
Context `{JsonLib}.
Variables (fs_scan fs_emit : node) (root : path) (server_root name_prefix : string).

(** The fragments of [create_config] besides the constants are those of
    the images. *)
Lemma create_config_fragments_elem_of with_constants only_constants f :
  f ∈ yielded (create_config_fragments fs_scan fs_emit root server_root
                 name_prefix with_constants only_constants) →
  f = Constants
  ∨ raised (find_images fs_scan root) = None
    ∧ ∃ name tags,
        collect_images (yielded (find_images fs_scan root)) !! name = Some tags
        ∧ f ∈ yielded (image_routes fs_emit root server_root name_prefix
                         (name, tags)).
Proof.
  rewrite create_config_fragments_unfold. cbn zeta. intros Hf.
  assert (f = Constants
          ∨ f ∈ yielded (discovered_routes fs_scan fs_emit root server_root
                           name_prefix)) as [->|Hd]; [|by left|].
  { destruct with_constants, only_constants; cbn [yielded gen_return] in Hf;
      rewrite ?elem_of_cons, ?elem_of_nil in Hf; destruct_or?; auto; done. }
  right. unfold discovered_routes in Hd.
  destruct (raised (find_images fs_scan root)); [by apply elem_of_nil in Hd|].
  split; [done|].
  apply elem_of_yielded_gen_for in Hd as ([name tags] & Hin & Hf').
  apply elem_of_sorted_items in Hin. eauto.
Qed.

Lemma image_routes_elem_of name (tags : gmap string string) f :
  f ∈ yielded (image_routes fs_emit root server_root name_prefix (name, tags)) →
  f = TagsList name (lstrip slash name_prefix)
        (json_dumps_tag_list name (sorted_keys tags))
  ∨ f = Blobs (lstrip slash name_prefix) server_root name
          (join " " ((λ tag, tag +:+ "/$1") <$> sorted_keys tags))
  ∨ ∃ tag media_type d,
      tags !! tag = Some media_type
      ∧ digest_of fs_emit root name tag = Ok d
      ∧ (f = ManifestByTag name tag media_type (lstrip slash name_prefix) d
               server_root
         ∨ f = ManifestByDigest name tag media_type (lstrip slash name_prefix) d
                 server_root
         ∨ f = DigestAlreadyServed name tag).
Proof.
  rewrite image_routes_unfold. cbn zeta. intros Hf.
  assert (f ∈ yielded (manifest_routes fs_emit root server_root name_prefix name
                         (sorted_items tags) ∅) →
          ∃ tag media_type d,
            tags !! tag = Some media_type
            ∧ digest_of fs_emit root name tag = Ok d
            ∧ (f = ManifestByTag name tag media_type (lstrip slash name_prefix) d
                     server_root
               ∨ f = ManifestByDigest name tag media_type
                       (lstrip slash name_prefix) d server_root
               ∨ f = DigestAlreadyServed name tag)) as Hroutes.
  { intros ([tag mt] & d & Hin%elem_of_sorted_items & Hd & Hf')%routes_elem_of.
    exists tag, mt, d. by split_and!. }
  destruct (raised _); cbn [yielded] in Hf;
    rewrite ?elem_of_cons, ?elem_of_app, ?list_elem_of_singleton in Hf;
    destruct_or!; auto.
Qed.

(** X6: every fragment written for an image is about an image that was
    discovered, and a fragment about a tag is about a discovered tag of
    that image; a tag list and a blob route list exactly the discovered
    tags of their image, once each, in order.  An image without a valid
    tag gets nothing, not even an empty tag list. *)
Theorem fragments_of_discovered (with_constants only_constants : bool)
    (f : fragment) (name : string) :
  f ∈ yielded (create_config_fragments fs_scan fs_emit root server_root
                 name_prefix with_constants only_constants) →
  frag_name f = Some name →
  let found := yielded (find_images fs_scan root) in
  (∃ tag media_type, (name, tag, media_type) ∈ found)
  ∧ (∀ tag, frag_tag f = Some tag → ∃ media_type, (name, tag, media_type) ∈ found)
  ∧ ∃ keys,
      StronglySorted String.le keys ∧ NoDup keys
      ∧ (∀ tag, tag ∈ keys ↔ ∃ media_type, (name, tag, media_type) ∈ found)
      ∧ match f with
        | TagsList _ _ payload => payload = json_dumps_tag_list name keys
        | Blobs _ _ _ paths => paths = join " " ((λ tag, tag +:+ "/$1") <$> keys)
        | _ => True
        end.
Proof.
  intros Hf Hname. cbn zeta.
  apply create_config_fragments_elem_of in Hf
    as [->|(Hscan & name' & tags & Himage & Hf)]; [done|].
  pose proof (image_routes_name _ _ _ _ _ _ _ Hf) as Hname'.
  assert (name' = name) as -> by congruence.
  assert (∀ tag, is_Some (tags !! tag)
                 ↔ ∃ mt, (name, tag, mt) ∈ yielded (find_images fs_scan root))
    as Htags.
  { intros tag. split.
    - intros [mt Htag]. exists mt. by eapply collect_images_lookup.
    - intros [mt (tags' & Himage' & Htag)%collect_images_elem_of].
      by simplify_eq. }
  split_and!.
  - destruct (collect_images_nonempty _ _ _ Himage) as (tag & mt & Htag).
    exists tag, mt. by eapply collect_images_lookup.
  - intros tag Htag. apply Htags.
    apply image_routes_elem_of in Hf
      as [->|[->|(tag' & mt & d & Htag' & _ & [->|[->| ->]])]];
      simplify_eq/=; eauto.
  - exists (sorted_keys tags). split_and!.
    + apply sorted_keys_sorted.
    + apply sorted_keys_NoDup.
    + intros tag. by rewrite elem_of_sorted_keys.
    + apply image_routes_elem_of in Hf
        as [->|[->|(tag' & mt & d & _ & _ & [->|[->| ->]])]]; done.
Qed.

(** X7: a manifest route never carries anything but what belongs to its
    own tag: the media type is the one discovery recorded for that image
    and tag (one of the two supported ones), the digest is the one computed
    from that tag's manifest file when the route was written, and the
    server root and the stripped name prefix are those given. *)
Theorem manifest_route_fields (with_constants only_constants : bool)
    (f : fragment) :
  f ∈ yielded (create_config_fragments fs_scan fs_emit root server_root
                 name_prefix with_constants only_constants) →
  match f with
  | ManifestByTag name tag media_type p d s
  | ManifestByDigest name tag media_type p d s =>
      (name, tag, media_type) ∈ yielded (find_images fs_scan root)
      ∧ media_type ∈ [DOCKER_MANIFEST_V2; OCI_MANIFEST_V1]
      ∧ digest_of fs_emit root name tag = Ok d
      ∧ p = lstrip slash name_prefix ∧ s = server_root
  | _ => True
  end.
Proof.
  intros [->|(Hscan & name & tags & Himage & Hf)]%create_config_fragments_elem_of;
    [done|].
  apply image_routes_elem_of in Hf
    as [->|[->|(tag & mt & d & Htag & Hd & [->|[->| ->]])]]; try done.
  all: pose proof (collect_images_lookup _ _ _ _ _ Himage Htag) as Hin.
  all: split_and!; try done.
  all: apply find_images_elem_of, find_images_tag_sound in Hin
         as (mt' & [= <-] & _ & _ & _ & _ & _ & _ & ? & _ & _ & _ & ?); done.
Qed.

(** X9: on a tree that nobody touches, [create_config] ends as discovery
    does: with the exception of [find_images], or normally - computing a
    digest never fails there. *)
Theorem create_config_unchanged_tree (fs : node) (with_constants : bool) :
  raised (create_config fs fs root server_root name_prefix with_constants false)
  = raised (find_images fs root).
Proof.
  destruct (raised (find_images fs root)) as [e|] eqn:Hfind.
  - unfold create_config. cbn [raised].
    rewrite create_config_fragments_unfold. cbn zeta.
    rewrite (discovered_routes_raised _ _ _ _ _ e) by done.
    by destruct with_constants.
  - by apply create_config_unchanged_returns.
Qed.
End output.

Section unchanged_tree.
Context `{JsonLib}.
Variables (fs : node) (root : path) (server_root name_prefix : string).

(** X8: when the tree is the same at discovery and when the routes are
    written, the digest of every manifest route is the SHA-256 of the very
    bytes whose parse made discovery accept the tag with the media type
    that the route declares. *)
Theorem manifest_route_digest_validated (with_constants only_constants : bool)
    (f : fragment) :
  f ∈ yielded (create_config_fragments fs fs root server_root name_prefix
                 with_constants only_constants) →
  match f with
  | ManifestByTag name tag media_type _ d _
  | ManifestByDigest name tag media_type _ d _ =>
      ∃ content data,
        open_read fs (os_path_join root [name; tag; MANIFEST_JSON]) = Ok content
        ∧ json_load content = Loaded data
        ∧ valid_manifest data media_type
        ∧ d = SHA256.hexdigest content
  | _ => True
  end.
Proof.
  intros [->|(Hscan & name & tags & Himage & Hf)]%create_config_fragments_elem_of;
    [done|].
  apply image_routes_elem_of in Hf
    as [->|[->|(tag & mt & d & Htag & Hd & [->|[->| ->]])]]; try done.
  all: pose proof (collect_images_lookup _ _ _ _ _ Himage Htag) as Hin.
  all: apply find_images_elem_of, find_images_tag_sound in Hin
         as (mt' & [= <-] & _ & content & data & Hopen & Hjson & Hvalid).
  all: cbn [fst snd] in *; exists content, data; split_and!; try done.
  all: unfold digest_of in Hd; rewrite (compute_digest_content _ _ content) in Hd
         by done; congruence.
Qed.
End unchanged_tree.

(** ** The name prefix given twice *)

Lemma rstrip_snoc c s : rstrip c (s +:+ String c EmptyString) = rstrip c s.
Proof.
  induction s as [|a s IH].
  - change (rstrip c (String c EmptyString) = EmptyString). cbn. by case_decide.
  - rewrite string_app_cons. cbn [rstrip]. by rewrite IH.
Qed.

Lemma rstrip_id c s : ¬ ends_with c s → rstrip c s = s.
Proof.
  induction s as [|a s IH]; [done|]. cbn [rstrip ends_with].
  destruct s as [|b s].
  - cbn. intros ?. by case_decide.
  - intros Hs. by rewrite (IH Hs).
Qed.

Lemma strip_strip_slash c s :
  strip c (strip c s +:+ String c EmptyString) = strip c s.
Proof.
  pose proof (strip_not_starts_with c s) as Hstart.
  pose proof (strip_not_ends_with c s) as Hend.
  destruct (strip c s) as [|a q] eqn:Hq.
  - change (strip c (String c EmptyString) = EmptyString).
    unfold strip. cbn. by case_decide.
  - unfold strip at 1. rewrite lstrip_app_nonempty by done.
    by rewrite rstrip_snoc, rstrip_id.
Qed.

(** X10: the normalisation of the name prefix in [main] is idempotent:
    giving the prefix that [main] computed as [--name-prefix] yields that
    prefix again, and so the same output. *)
Theorem main_name_prefix_idempotent `{JsonLib} (args : cli_args)
    (fs_scan fs_emit : node) :
  let args' := with_name_prefix (Some (main_name_prefix args)) args in
  main_name_prefix args' = main_name_prefix args
  ∧ main args' fs_scan fs_emit = main args fs_scan fs_emit.
Proof.
  cbn zeta.
  assert (main_name_prefix (with_name_prefix (Some (main_name_prefix args)) args)
          = main_name_prefix args) as Hp.
  { exact (f_equal (λ q, q +:+ "/")
             (strip_strip_slash slash (or_empty (arg_name_prefix args)))). }
  split; [done|]. unfold main. rewrite Hp. by destruct args.
Qed.

(** ** Closed instances of the further properties *)

Lemma objects_only_tree_app : objects_only (H:=table_json) tree_app [].
Proof.
  intros name tag content Hopen.
  assert (content = String.list_byte_of_string (manifest_text DOCKER_MANIFEST_V2))
    as ->; [|by vm_compute; eauto].
  unfold open_read, os_path_join, tree_app in Hopen.
  cbn [app resolve dir_lookup] in Hopen.
  repeat (case_decide; cbn [resolve dir_lookup] in Hopen); simplify_eq;
    try done; unfold manifest_file in Hopen; by simplify_eq.
Qed.

Lemma listed_once_tree_app :
  listed_once tree_app [] ∧ ∀ name, listed_once tree_app (os_path_join [] [name]).
Proof.
  split.
  - intros names [= <-]. by apply (bool_decide_unpack _).
  - intros name names. unfold os_listdir, os_path_join, tree_app.
    cbn [app resolve dir_lookup].
    repeat (case_decide; cbn [resolve dir_lookup]); intros [= <-];
      by apply (bool_decide_unpack _).
Qed.

Lemma find_images_sound_witness :
  ("app", "v2", DOCKER_MANIFEST_V2)
    ∈ yielded (find_images (H:=table_json) tree_app [])
  ∧ discoverable (H:=table_json) tree_app [] "app" "v2" DOCKER_MANIFEST_V2.
Proof.
  assert (("app", "v2", DOCKER_MANIFEST_V2)
            ∈ yielded (find_images (H:=table_json) tree_app [])) as Hin.
  { vm_compute. left. }
  split; [exact Hin|].
  exact (proj1 (proj2 (proj2 (find_images_sound (H:=table_json) tree_app []
                                "app" "v2" DOCKER_MANIFEST_V2 Hin)))).
Defined.

Lemma find_images_exact_witness :
  os_listdir tree_app [] = Ok ["app"; "lib"]
  ∧ objects_only (H:=table_json) tree_app []
  ∧ raised (find_images (H:=table_json) tree_app []) = None.
Proof.
  split; [reflexivity|]. split; [exact objects_only_tree_app|].
  exact (proj1 (find_images_exact (H:=table_json) tree_app [] ["app"; "lib"]
                  eq_refl objects_only_tree_app)).
Defined.

Lemma find_images_raises_witness :
  raised (find_images (H:=table_json) tree_array_manifest []) = Some AttributeError
  ∧ (os_listdir tree_array_manifest [] = Raise AttributeError
     ∨ ∃ name tag content,
         open_read tree_array_manifest (os_path_join [] [name; tag; MANIFEST_JSON])
         = Ok content
         ∧ (json_load (JsonLib:=table_json) content = LoadRaises AttributeError
            ∨ AttributeError = AttributeError
              ∧ ∃ data, json_load (JsonLib:=table_json) content = Loaded data
                        ∧ truthy data = true
                        ∧ ∀ items, data ≠ PyDict items)).
Proof.
  split; [reflexivity|].
  exact (find_images_raises (H:=table_json) tree_array_manifest []
           AttributeError eq_refl).
Defined.

Lemma find_images_NoDup_witness :
  listed_once tree_app []
  ∧ (∀ name, listed_once tree_app (os_path_join [] [name]))
  ∧ NoDup (found_key <$> yielded (find_images (H:=table_json) tree_app [])).
Proof.
  split; [exact (proj1 listed_once_tree_app)|].
  split; [exact (proj2 listed_once_tree_app)|].
  exact (find_images_NoDup (H:=table_json) tree_app []
           (proj1 listed_once_tree_app) (proj2 listed_once_tree_app)).
Defined.

Lemma functional_found_two_images : functional_found found_two_images.
Proof.
  change found_two_images with (yielded (Gen found_two_images None)).
  rewrite <-find_images_tree_two_images. apply find_images_functional.
Qed.

Lemma collect_images_spec_witness :
  functional_found found_two_images
  ∧ ∀ name tags, collect_images found_two_images !! name = Some tags → tags ≠ ∅.
Proof.
  split; [exact functional_found_two_images|].
  exact (proj2 (collect_images_spec found_two_images functional_found_two_images)).
Defined.

Lemma blobs_app_yielded :
  Blobs EmptyString "/srv" "app" "v1/$1 v2/$1"
    ∈ yielded (create_config_fragments (H:=table_json) tree_app tree_app []
                 "/srv" "/" false false).
Proof. rewrite create_config_tree_app. cbn [yielded]. set_solver. Qed.

Lemma fragments_of_discovered_witness :
  Blobs EmptyString "/srv" "app" "v1/$1 v2/$1"
    ∈ yielded (create_config_fragments (H:=table_json) tree_app tree_app []
                 "/srv" "/" false false)
  ∧ frag_name (Blobs EmptyString "/srv" "app" "v1/$1 v2/$1") = Some "app"
  ∧ ∃ tag media_type,
      ("app", tag, media_type) ∈ yielded (find_images (H:=table_json) tree_app []).
Proof.
  split; [exact blobs_app_yielded|]. split; [reflexivity|].
  exact (proj1 (fragments_of_discovered (H:=table_json) tree_app tree_app []
                  "/srv" "/" false false
                  (Blobs EmptyString "/srv" "app" "v1/$1 v2/$1") "app"
                  blobs_app_yielded eq_refl)).
Defined.

Lemma by_digest_app_yielded :
  ManifestByDigest "app" "v1" DOCKER_MANIFEST_V2 EmptyString
    "7963a62f67054e11ff206bbec689aded4126f79cc13fb089ee37563bbb8d7aea" "/srv"
    ∈ yielded (create_config_fragments (H:=table_json) tree_app tree_app []
                 "/srv" "/" false false).
Proof. rewrite create_config_tree_app. cbn [yielded]. set_solver. Qed.

Lemma manifest_route_fields_witness :
  ManifestByDigest "app" "v1" DOCKER_MANIFEST_V2 EmptyString
    "7963a62f67054e11ff206bbec689aded4126f79cc13fb089ee37563bbb8d7aea" "/srv"
    ∈ yielded (create_config_fragments (H:=table_json) tree_app tree_app []
                 "/srv" "/" false false)
  ∧ ("app", "v1", DOCKER_MANIFEST_V2)
      ∈ yielded (find_images (H:=table_json) tree_app []).
Proof.
  split; [exact by_digest_app_yielded|].
  exact (proj1 (manifest_route_fields (H:=table_json) tree_app tree_app []
                  "/srv" "/" false false _ by_digest_app_yielded)).
Defined.

Lemma manifest_route_digest_validated_witness :
  ManifestByDigest "app" "v1" DOCKER_MANIFEST_V2 EmptyString
    "7963a62f67054e11ff206bbec689aded4126f79cc13fb089ee37563bbb8d7aea" "/srv"
    ∈ yielded (create_config_fragments (H:=table_json) tree_app tree_app []
                 "/srv" "/" false false)
  ∧ ∃ content data,
      open_read tree_app (os_path_join [] ["app"; "v1"; MANIFEST_JSON]) = Ok content
      ∧ json_load (JsonLib:=table_json) content = Loaded data
      ∧ valid_manifest data DOCKER_MANIFEST_V2
      ∧ "7963a62f67054e11ff206bbec689aded4126f79cc13fb089ee37563bbb8d7aea"
        = SHA256.hexdigest content.
Proof.
  split; [exact by_digest_app_yielded|].
  exact (manifest_route_digest_validated (H:=table_json) tree_app []
           "/srv" "/" false false _ by_digest_app_yielded).
Defined.

(** * The older script *)

Lemma gen_for_omap {A B C} (f : B → option C) (l : list A)
    (body1 : A → gen B) (body2 : A → gen C) :
  (∀ x, x ∈ l → raised (body2 x) = raised (body1 x)
                ∧ yielded (body2 x) = omap f (yielded (body1 x))) →
  raised (gen_for l body2) = raised (gen_for l body1)
  ∧ yielded (gen_for l body2) = omap f (yielded (gen_for l body1)).
Proof.
  induction l as [|x l IH]; [done|]. intros Hb.
  destruct (Hb x ltac:(by left)) as [Hr Hy].
  destruct IH as [IHr IHy]; [intros ??; apply Hb; by right|].
  cbn [gen_for]. unfold gen_seq. rewrite Hr.
  destruct (raised (body1 x)); cbn [raised yielded]; [apply Hb; by left|].
  split; [done|]. by rewrite omap_app, Hy, IHy.
Qed.

Section legacy_discovery.
Context `{JsonLib}.
Variable locale_load : list byte → load_result.
Hypothesis utf8_locale : ∀ content, locale_load content = json_load content.
Variables (fs : node) (root : path).

Lemma legacy_find_images_tag name tag :
  raised (Legacy.find_images_tag locale_load fs root name tag)
  = raised (find_images_tag fs root name tag)
  ∧ yielded (Legacy.find_images_tag locale_load fs root name tag)
    = omap docker_only (yielded (find_images_tag fs root name tag)).
Proof.
  unfold Legacy.find_images_tag, find_images_tag, Legacy.load_manifest,
    load_manifest.
  destruct (negb (os_path_isdir fs (os_path_join root [name; tag]))); [done|].
  destruct (negb (os_path_isfile fs _)); [done|].
  destruct (open_read fs _) as [content|e]; [|done].
  rewrite utf8_locale.
  destruct (json_load content) as [data| |e]; [|done..].
  destruct (negb (truthy data)); [done|].
  destruct (py_get data "schemaVersion") as [v|e]; [|done].
  destruct (negb (py_eq_int v 2)); [done|].
  destruct (py_get data "mediaType") as [[| | | |s| |]|e]; try done.
  unfold py_in_strs, Legacy.py_ne_str.
  destruct (decide (s = DOCKER_MANIFEST_V2)) as [->|Hs].
  - by rewrite bool_decide_eq_true_2 by set_solver.
  - rewrite (bool_decide_eq_false_2 (s = _)) by done. cbn [negb].
    case_bool_decide; [|done]. cbn. unfold docker_only. cbn.
    by rewrite decide_False.
Qed.

Lemma legacy_find_images :
  raised (Legacy.find_images locale_load fs root) = raised (find_images fs root)
  ∧ yielded (Legacy.find_images locale_load fs root)
    = omap docker_only (yielded (find_images fs root)).
Proof.
  unfold Legacy.find_images, find_images.
  destruct (os_listdir fs root) as [names|e]; [|done].
  apply gen_for_omap. intros name _.
  unfold Legacy.find_images_name, find_images_name.
  destruct (negb (os_path_isdir fs (os_path_join root [name]))); [done|].
  destruct (os_listdir fs _) as [tags|e]; [|done].
  apply gen_for_omap. intros tag _. apply legacy_find_images_tag.
Qed.
End legacy_discovery.

(** X11: in a UTF-8 locale the older script discovers what the current one
    does, less the entries that are not Docker manifests and less the
    media types, in the same order; and it ends as the current one does,
    with the same exception if any. *)
Theorem legacy_find_images_docker_only `{JsonLib}
    (locale_load : list byte → load_result) (fs : node) (root : path) :
  (∀ content, locale_load content = json_load content) →
  raised (Legacy.find_images locale_load fs root) = raised (find_images fs root)
  ∧ yielded (Legacy.find_images locale_load fs root)
    = omap docker_only (yielded (find_images fs root))
  ∧ ∀ name tag,
      (name, tag) ∈ yielded (Legacy.find_images locale_load fs root)
      ↔ (name, tag, DOCKER_MANIFEST_V2) ∈ yielded (find_images fs root).
Proof.
  intros Hlocale.
  destruct (legacy_find_images locale_load Hlocale fs root) as [Hr Hy].
  split_and!; [done..|]. intros name tag. rewrite Hy, list_elem_of_omap.
  unfold docker_only. split.
  - intros ([[n t] mt] & Hin & Hx). cbn in Hx. case_decide; by simplify_eq.
  - intros Hin. exists (name, tag, DOCKER_MANIFEST_V2). split; [done|].
    cbn. by rewrite decide_True.
Qed.

(** ** The dictionary of the older script *)

Lemma elem_of_first_occurrences l x : x ∈ first_occurrences l ↔ x ∈ l.
Proof.
  induction l as [|y l IH]; [done|]. cbn [first_occurrences].
  rewrite !elem_of_cons, list_elem_of_filter, IH.
  destruct (decide (x = y)); naive_solver.
Qed.

Lemma NoDup_first_occurrences l : NoDup (first_occurrences l).
Proof.
  induction l as [|y l IH]; cbn [first_occurrences]; [constructor|].
  apply NoDup_cons. split; [|by apply NoDup_filter].
  rewrite list_elem_of_filter. naive_solver.
Qed.

Lemma first_occurrences_snoc l x :
  first_occurrences (l ++ [x])
  = if decide (x ∈ l) then first_occurrences l else first_occurrences l ++ [x].
Proof.
  induction l as [|y l IH]; [done|].
  rewrite <-app_comm_cons. cbn [first_occurrences]. rewrite IH.
  destruct (decide (x ∈ l)) as [Hx|Hx].
  - rewrite decide_True by (by right). done.
  - rewrite filter_app. destruct (decide (x = y)) as [->|Hxy].
    + rewrite decide_True by left.
      by rewrite filter_cons_False, filter_nil, app_nil_r by naive_solver.
    + rewrite decide_False by (rewrite elem_of_cons; naive_solver).
      by rewrite filter_cons_True.
Qed.

Lemma tags_found_snoc found n t name :
  tags_found (found ++ [(n, t)]) name
  = if decide (n = name) then {[t]} ∪ tags_found found name
    else tags_found found name.
Proof.
  unfold tags_found. rewrite omap_app, list_to_set_app_L. cbn.
  case_decide; cbn; set_solver.
Qed.

Lemma tags_found_not_found found name :
  name ∉ found.*1 → tags_found found name = ∅.
Proof.
  intros Hname. unfold tags_found.
  induction found as [|[n t] found IH]; [done|].
  rewrite fmap_cons, not_elem_of_cons in Hname. destruct Hname as [Hn Hname].
  cbn. rewrite decide_False by done. by apply IH.
Qed.

Lemma elem_of_tags_found found name tag :
  tag ∈ tags_found found name ↔ (name, tag) ∈ found.
Proof.
  unfold tags_found. rewrite elem_of_list_to_set, list_elem_of_omap. split.
  - intros ([n t] & Hin & Hx). cbn in Hx. case_decide; by simplify_eq.
  - intros Hin. exists (name, tag). split; [done|]. cbn. by rewrite decide_True.
Qed.

(** Adding to a dictionary that was written from its keys. *)
Lemma legacy_add_image_keys (g : string → gset string) (ks : list string) n t :
  NoDup ks →
  Legacy.add_image ((λ k, (k, g k)) <$> ks) n t
  = if decide (n ∈ ks)
    then (λ k, (k, if decide (n = k) then {[t]} ∪ g k else g k)) <$> ks
    else ((λ k, (k, g k)) <$> ks) ++ [(n, {[t]})].
Proof.
  induction ks as [|k ks IH]; [done|]. intros [Hk Hks]%NoDup_cons.
  cbn [fmap list_fmap Legacy.add_image]. destruct (decide (k = n)) as [->|Hkn].
  - rewrite decide_True by left. cbn [fmap list_fmap].
    rewrite decide_True by done. f_equal.
    apply list_fmap_ext. intros i k' Hk'%list_elem_of_lookup_2.
    rewrite decide_False; [done|]. by intros ->.
  - rewrite (IH Hks). destruct (decide (n ∈ ks)) as [Hn|Hn].
    + rewrite decide_True by (by right). cbn [fmap list_fmap].
      by rewrite decide_False by done.
    + rewrite decide_False by (rewrite elem_of_cons; naive_solver). done.
Qed.

(** The dictionary [images] of the older script: the names in the order
    in which discovery came upon them first, each with the set of its
    tags. *)
Lemma legacy_collect_images found :
  Legacy.collect_images found
  = (λ name, (name, tags_found found name)) <$> first_occurrences found.*1.
Proof.
  induction found as [|[n t] found IH] using rev_ind; [done|].
  unfold Legacy.collect_images in *. rewrite fold_left_app. cbn [fold_left fst snd].
  rewrite IH, fmap_app. change ([(n, t)].*1) with [n].
  rewrite first_occurrences_snoc.
  rewrite legacy_add_image_keys by apply NoDup_first_occurrences.
  rewrite (decide_ext _ (n ∈ found.*1)) by apply elem_of_first_occurrences.
  destruct (decide (n ∈ found.*1)) as [Hn|Hn].
  - apply list_fmap_ext. intros i k _. by rewrite tags_found_snoc.
  - rewrite fmap_app. cbn [fmap list_fmap]. f_equal.
    + apply list_fmap_ext. intros i k Hk%list_elem_of_lookup_2.
      rewrite tags_found_snoc, decide_False; [done|].
      intros ->. apply Hn. by apply elem_of_first_occurrences.
    + rewrite tags_found_snoc, decide_True by done.
      rewrite tags_found_not_found by done. f_equal. f_equal. set_solver.
Qed.

Lemma legacy_sorted_tags_spec (tags : gset string) :
  StronglySorted String.le (Legacy.sorted_tags tags)
  ∧ NoDup (Legacy.sorted_tags tags)
  ∧ ∀ tag, tag ∈ Legacy.sorted_tags tags ↔ tag ∈ tags.
Proof.
  unfold Legacy.sorted_tags. split_and!.
  - apply StronglySorted_merge_sort; apply _.
  - rewrite merge_sort_Permutation. apply NoDup_elements.
  - intros tag. by rewrite merge_sort_Permutation, elem_of_elements.
Qed.

Section legacy_output.
Context `{JsonLib}.
Variable locale_load : list byte → load_result.
Variables (fs : node) (root : path) (server_root name_prefix : string).

Lemma legacy_image_routes image :
  Legacy.image_routes server_root name_prefix image
  = Gen [Legacy.TagsList image.1 (lstrip slash name_prefix)
           (json_dumps_tag_list image.1 (Legacy.sorted_tags image.2));
         Legacy.Blobs (lstrip slash name_prefix) server_root image.1
           (join " " ((λ tag, tag +:+ "/$1") <$> Legacy.sorted_tags image.2))]
        None.
Proof. by destruct image. Qed.

Lemma legacy_create_config_unfold :
  let found := Legacy.find_images locale_load fs root in
  Legacy.create_config_fragments locale_load fs root server_root name_prefix
  = Gen (Legacy.Constants :: Legacy.ManifestsLocation server_root name_prefix
         :: match raised found with
            | Some _ => []
            | None =>
                first_occurrences (yielded found).*1 ≫= λ name,
                  yielded (Legacy.image_routes server_root name_prefix
                             (name, tags_found (yielded found) name))
            end)
        (raised found).
Proof.
  cbn zeta. unfold Legacy.create_config_fragments. rewrite !gen_seq_yield.
  destruct (raised (Legacy.find_images locale_load fs root)) as [e|]; [done|].
  assert (raised (gen_for (Legacy.collect_images
                             (yielded (Legacy.find_images locale_load fs root)))
                    (Legacy.image_routes server_root name_prefix)) = None)
    as Hnone.
  { apply raised_gen_for_None, Forall_forall. intros image _.
    by rewrite legacy_image_routes. }
  rewrite (yielded_gen_for_None _ _ Hnone), Hnone, legacy_collect_images.
  by rewrite list_fmap_bind.
Qed.

(** X12: the older script writes its constants and the location of the
    manifests before it looks at the tree, so they are written also when
    discovery fails; it ends as discovery does; and when discovery
    returns, every image gets its tag list and its blob route, one image
    after the other in the order in which discovery first came upon the
    names - which is the order of the directory listing, not the order of
    the names -, the tags of an image being those discovered for it, each
    once and in order. *)
Theorem legacy_create_config_order :
  let found := Legacy.find_images locale_load fs root in
  let out :=
    Legacy.create_config_fragments locale_load fs root server_root name_prefix in
  raised out = raised found
  ∧ yielded out
    = Legacy.Constants :: Legacy.ManifestsLocation server_root name_prefix
      :: match raised found with
         | Some _ => []
         | None =>
             first_occurrences (yielded found).*1 ≫= λ name,
               let tags := Legacy.sorted_tags (tags_found (yielded found) name) in
               [Legacy.TagsList name (lstrip slash name_prefix)
                  (json_dumps_tag_list name tags);
                Legacy.Blobs (lstrip slash name_prefix) server_root name
                  (join " " ((λ tag, tag +:+ "/$1") <$> tags))]
         end
  ∧ ∀ name,
      let tags := Legacy.sorted_tags (tags_found (yielded found) name) in
      StronglySorted String.le tags ∧ NoDup tags
      ∧ ∀ tag, tag ∈ tags ↔ (name, tag) ∈ yielded found.
Proof.
  cbn zeta. rewrite legacy_create_config_unfold. cbn zeta. cbn [raised yielded].
  split_and!; [done..|]. intros name.
  destruct (legacy_sorted_tags_spec
              (tags_found (yielded (Legacy.find_images locale_load fs root)) name))
    as (? & ? & Hin).
  split_and!; [done..|]. intros tag. by rewrite Hin, elem_of_tags_found.
Qed.
End legacy_output.

(** ** The older script and the current one *)

Section docker_only_found.
Variable found : list (string * string * string).
Hypothesis docker : ∀ x, x ∈ found → x.2 = DOCKER_MANIFEST_V2.

Lemma elem_of_docker_only name tag :
  (name, tag) ∈ omap docker_only found ↔ ∃ media_type, (name, tag, media_type) ∈ found.
Proof.
  rewrite list_elem_of_omap. unfold docker_only. split.
  - intros ([[n t] mt] & Hin & Hx). cbn in Hx. case_decide; simplify_eq. eauto.
  - intros [mt Hin]. exists (name, tag, mt). split; [done|].
    rewrite decide_True; [done|]. by apply docker in Hin.
Qed.

Lemma docker_only_names name :
  name ∈ (omap docker_only found).*1
  ↔ ∃ tags, collect_images found !! name = Some tags.
Proof.
  rewrite list_elem_of_fmap. split.
  - intros ([n tag] & -> & [mt Hin]%elem_of_docker_only).
    destruct (collect_images_elem_of _ _ _ _ Hin) as (tags & ? & _). eauto.
  - intros [tags Himage].
    destruct (collect_images_nonempty _ _ _ Himage) as (tag & mt & Htag).
    exists (name, tag). split; [done|]. apply elem_of_docker_only.
    exists mt. by eapply collect_images_lookup.
Qed.

(** The set of tags of the older script, sorted, is the sorted keys of
    the dictionary of tags of the current one. *)
Lemma legacy_sorted_tags_current name tags :
  collect_images found !! name = Some tags →
  Legacy.sorted_tags (tags_found (omap docker_only found) name) = sorted_keys tags.
Proof.
  intros Himage.
  destruct (legacy_sorted_tags_spec (tags_found (omap docker_only found) name))
    as (Hsorted & Hnodup & Hin).
  apply (StronglySorted_unique String.le);
    [done|apply sorted_keys_sorted|].
  apply NoDup_Permutation; [done|apply sorted_keys_NoDup|].
  intros tag. rewrite Hin, elem_of_tags_found, elem_of_docker_only.
  by rewrite elem_of_sorted_keys, (collect_images_tags found name tags).
Qed.
End docker_only_found.

Section legacy_current.
Context `{JsonLib}.
Variable locale_load : list byte → load_result.
Variables (fs : node) (root : path) (server_root name_prefix : string).

(** On an unchanged tree the current script writes the tag list and the
    blob route of every image of its dictionary. *)
Lemma image_fragment_yielded with_constants name tags f :
  raised (find_images fs root) = None →
  collect_images (yielded (find_images fs root)) !! name = Some tags →
  f = TagsList name (lstrip slash name_prefix)
        (json_dumps_tag_list name (sorted_keys tags))
  ∨ f = Blobs (lstrip slash name_prefix) server_root name
          (join " " ((λ tag, tag +:+ "/$1") <$> sorted_keys tags)) →
  f ∈ yielded (create_config_fragments fs fs root server_root name_prefix
                 with_constants false).
Proof.
  intros Hfind Himage Hf.
  assert (f ∈ yielded (discovered_routes fs fs root server_root name_prefix))
    as Hd.
  { rewrite discovered_routes_found by done.
    rewrite inventory_yielded by apply discovered_all_readable.
    apply list_elem_of_bind. exists (name, tags).
    split; [|by apply elem_of_sorted_items].
    rewrite image_routes_readable.
    - cbn [yielded]. rewrite elem_of_cons, elem_of_app, list_elem_of_singleton.
      naive_solver.
    - apply image_readable. intros tag mt Htag.
      by eapply discovered_all_readable. }
  rewrite create_config_fragments_unfold. cbn zeta.
  destruct with_constants; [by right|done].
Qed.

Lemma image_fragment_elem_of with_constants f :
  f ∈ yielded (create_config_fragments fs fs root server_root name_prefix
                 with_constants false) →
  match f with
  | TagsList name p payload =>
      ∃ tags, collect_images (yielded (find_images fs root)) !! name = Some tags
              ∧ raised (find_images fs root) = None
              ∧ f = TagsList name (lstrip slash name_prefix)
                      (json_dumps_tag_list name (sorted_keys tags))
  | Blobs p s name paths =>
      ∃ tags, collect_images (yielded (find_images fs root)) !! name = Some tags
              ∧ raised (find_images fs root) = None
              ∧ f = Blobs (lstrip slash name_prefix) server_root name
                      (join " " ((λ tag, tag +:+ "/$1") <$> sorted_keys tags))
  | _ => True
  end.
Proof.
  intros [->|(Hscan & name & tags & Himage & Hf)]%create_config_fragments_elem_of;
    [done|].
  apply image_routes_elem_of in Hf
    as [->|[->|(tag & mt & d & _ & _ & [->|[->| ->]])]]; eauto.
Qed.

(** X13: for a tree in which discovery finds Docker manifests only, and in
    a UTF-8 locale, the tag list and the blob route that the older script
    writes for an image are, to the letter, those that the current script
    writes for it, and the other way round: the current script added the
    routes of the manifests and the order of the names, nothing else. *)
Theorem legacy_image_fragments_current (with_constants : bool)
    (lf : Legacy.fragment) (f : fragment) :
  (∀ content, locale_load content = json_load content) →
  (∀ x, x ∈ yielded (find_images fs root) → x.2 = DOCKER_MANIFEST_V2) →
  current_fragment lf = Some f →
  Legacy.render lf = render f
  ∧ (lf ∈ yielded (Legacy.create_config_fragments locale_load fs root
                     server_root name_prefix)
     ↔ f ∈ yielded (create_config_fragments fs fs root server_root name_prefix
                      with_constants false)).
Proof.
  intros Hlocale Hdocker Hf.
  split; [by destruct lf; simplify_eq/=|].
  destruct (legacy_find_images locale_load Hlocale fs root) as [Hr Hy].
  rewrite legacy_create_config_unfold. cbn zeta. cbn [yielded].
  rewrite Hr, Hy.
  destruct (raised (find_images fs root)) as [e|] eqn:Hfind.
  { split.
    - rewrite !elem_of_cons, elem_of_nil. by destruct lf; naive_solver.
    - intros Hin%image_fragment_elem_of.
      destruct lf; simplify_eq/=; naive_solver. }
  rewrite !elem_of_cons, list_elem_of_bind. split.
  - intros [->|[->|(name & Hin & Hname)]]; [done..|].
    apply elem_of_first_occurrences, (docker_only_names _ Hdocker) in Hname
      as [tags Himage].
    rewrite legacy_image_routes in Hin. cbn [fst snd yielded] in Hin.
    rewrite (legacy_sorted_tags_current _ Hdocker name tags) in Hin by done.
    apply (image_fragment_yielded with_constants name tags); [done..|].
    rewrite !elem_of_cons, elem_of_nil in Hin.
    destruct Hin as [->|[->|[]]]; simplify_eq/=; auto.
  - intros Hin%image_fragment_elem_of. right. right.
    destruct lf as [| |name p payload|p s name paths]; try done;
      injection Hf as <-; destruct Hin as (tags & Himage & _ & Heq);
      exists name; (split;
        [|by apply elem_of_first_occurrences, (docker_only_names _ Hdocker); eauto]);
      rewrite legacy_image_routes; cbn [fst snd yielded];
      rewrite (legacy_sorted_tags_current _ Hdocker name tags) by done;
      simplify_eq; rewrite !elem_of_cons; auto.
Qed.
End legacy_current.

(** ** Closed instances for the older script *)

(** The older script on [tree_mixed]: [zoo] comes before [app], as in the
    listing, and [app:b], an OCI manifest, is not there. *)
Example legacy_create_config_tree_mixed :
  Legacy.create_config_fragments (H:=table_json) table_json_load tree_mixed []
    "/srv" "/"
  = Gen [Legacy.Constants;
         Legacy.ManifestsLocation "/srv" "/";
         Legacy.TagsList "zoo" EmptyString
           ("{" +:+ dq +:+ "name" +:+ dq +:+ ": " +:+ dq +:+ "zoo" +:+ dq +:+ ", "
            +:+ dq +:+ "tags" +:+ dq +:+ ": [" +:+ dq +:+ "1" +:+ dq +:+ "]}");
         Legacy.Blobs EmptyString "/srv" "zoo" "1/$1";
         Legacy.TagsList "app" EmptyString
           ("{" +:+ dq +:+ "name" +:+ dq +:+ ": " +:+ dq +:+ "app" +:+ dq +:+ ", "
            +:+ dq +:+ "tags" +:+ dq +:+ ": [" +:+ dq +:+ "a" +:+ dq +:+ "]}");
         Legacy.Blobs EmptyString "/srv" "app" "a/$1"] None.
Proof. vm_compute. reflexivity. Qed.

Example find_images_tree_mixed :
  find_images (H:=table_json) tree_mixed []
  = Gen [("zoo", "1", DOCKER_MANIFEST_V2); ("app", "b", OCI_MANIFEST_V1);
         ("app", "a", DOCKER_MANIFEST_V2)] None.
Proof. vm_compute. reflexivity. Qed.

Lemma legacy_find_images_docker_only_witness :
  (∀ content, table_json_load content = json_load (JsonLib:=table_json) content)
  ∧ yielded (Legacy.find_images table_json_load tree_mixed [])
    = omap docker_only (yielded (find_images (H:=table_json) tree_mixed [])).
Proof.
  split; [exact (λ content, eq_refl)|].
  exact (proj1 (proj2 (legacy_find_images_docker_only (H:=table_json)
                         table_json_load tree_mixed []
                         (λ content, eq_refl)))).
Defined.

Lemma docker_only_tree_app x :
  x ∈ yielded (find_images (H:=table_json) tree_app []) →
  x.2 = DOCKER_MANIFEST_V2.
Proof.
  rewrite find_images_tree_app. cbn [yielded].
  rewrite !elem_of_cons, elem_of_nil. by intros [->|[->|[]]].
Qed.

Lemma legacy_image_fragments_current_witness :
  (∀ content, table_json_load content = json_load (JsonLib:=table_json) content)
  ∧ (∀ x, x ∈ yielded (find_images (H:=table_json) tree_app []) →
          x.2 = DOCKER_MANIFEST_V2)
  ∧ current_fragment (Legacy.Blobs EmptyString "/srv" "app" "v1/$1 v2/$1")
    = Some (Blobs EmptyString "/srv" "app" "v1/$1 v2/$1")
  ∧ (Legacy.Blobs EmptyString "/srv" "app" "v1/$1 v2/$1"
       ∈ yielded (Legacy.create_config_fragments (H:=table_json) table_json_load
                    tree_app [] "/srv" "/")
     ↔ Blobs EmptyString "/srv" "app" "v1/$1 v2/$1"
         ∈ yielded (create_config_fragments (H:=table_json) tree_app tree_app []
                      "/srv" "/" true false)).
Proof.
  split; [exact (λ content, eq_refl)|]. split; [exact docker_only_tree_app|].
  split; [reflexivity|].
  exact (proj2 (legacy_image_fragments_current (H:=table_json) table_json_load
                  tree_app [] "/srv" "/" true
                  (Legacy.Blobs EmptyString "/srv" "app" "v1/$1 v2/$1")
                  (Blobs EmptyString "/srv" "app" "v1/$1 v2/$1")
                  (λ content, eq_refl) docker_only_tree_app eq_refl)).
Defined.

(** * A run that fails writes the beginning of the right output *)

Lemma cut_short_seq {A} (g1 g2 h1 h2 : gen A) :
  cut_short g1 g2 → cut_short h1 h2 → cut_short (g1 ;;; h1) (g2 ;;; h2).
Proof.
  intros [->|[[e He] Hg]] Hh.
  - unfold gen_seq. destruct (raised g2) as [e|] eqn:Hr; [by left|].
    destruct Hh as [->|[Hsome Hh]]; [by left|].
    right. split; [done|]. by apply prefix_app.
  - assert (g1 ;;; h1 = g1) as -> by (unfold gen_seq; by rewrite He).
    right. split; [by rewrite He|].
    unfold gen_seq. destruct (raised g2); [done|]. by apply prefix_app_r.
Qed.

Lemma cut_short_gen_for {A B} (l : list A) (body1 body2 : A → gen B) :
  (∀ x, x ∈ l → cut_short (body1 x) (body2 x)) →
  cut_short (gen_for l body1) (gen_for l body2).
Proof.
  induction l as [|x l IH]; [by left|]. intros Hb. cbn [gen_for].
  apply cut_short_seq; [apply Hb; by left|].
  apply IH. intros ??. apply Hb. by right.
Qed.

Lemma cut_short_fmap {A B} (f : A → B) (g1 g2 : gen A) :
  cut_short g1 g2 →
  cut_short (Gen (f <$> yielded g1) (raised g1)) (Gen (f <$> yielded g2) (raised g2)).
Proof.
  intros [->|[Hsome [k Hk]]]; [by left|]. right. split; [done|].
  cbn [yielded]. rewrite Hk, fmap_app. by eexists.
Qed.

Section cut_short.
Context `{JsonLib}.
Variables (fs_scan fs_emit : node) (root : path).
Variables (server_root name_prefix : string).

Lemma manifest_routes_cut_short name items seen :
  (∀ item d, item ∈ items → digest_of fs_emit root name item.1 = Ok d →
             digest_of fs_scan root name item.1 = Ok d) →
  cut_short (manifest_routes fs_emit root server_root name_prefix name items seen)
    (manifest_routes fs_scan root server_root name_prefix name items seen).
Proof.
  revert seen. induction items as [|[tag mt] items IH]; intros seen Hd;
    [by left|].
  cbn [manifest_routes].
  pose proof (Hd (tag, mt)) as Hd'. unfold digest_of in Hd'. cbn [fst] in Hd'.
  destruct (compute_digest fs_emit _) as [d|e].
  - rewrite (Hd' d) by (done || left).
    apply cut_short_seq; [by left|]. apply cut_short_seq; [by left|].
    apply IH. intros item d' ?. apply Hd. by right.
  - right. split; [by eexists|]. apply prefix_nil.
Qed.

(** X14: when the manifests of the discovered entries that can still be
    opened while the routes are written have the bytes they had at
    discovery - files may have gone, none has changed -, a run that fails
    has written the beginning of what the run on the unchanged tree
    writes, and a run that returns has written all of it. *)
Theorem create_config_cut_short (with_constants only_constants : bool) :
  (∀ name tag media_type content,
     (name, tag, media_type) ∈ yielded (find_images fs_scan root) →
     open_read fs_emit (os_path_join root [name; tag; MANIFEST_JSON]) = Ok content →
     open_read fs_scan (os_path_join root [name; tag; MANIFEST_JSON]) = Ok content) →
  let partial := create_config fs_scan fs_emit root server_root name_prefix
                   with_constants only_constants in
  let full := create_config fs_scan fs_scan root server_root name_prefix
                with_constants only_constants in
  cut_short partial full
  ∧ (raised partial = None → partial = full)
  ∧ yielded partial `prefix_of` yielded full.
Proof.
  intros Hsame. cbn zeta.
  assert (cut_short
            (create_config fs_scan fs_emit root server_root name_prefix
               with_constants only_constants)
            (create_config fs_scan fs_scan root server_root name_prefix
               with_constants only_constants)) as Hcut.
  { unfold create_config. apply cut_short_fmap.
    unfold create_config_fragments.
    apply cut_short_seq; [by left|]. destruct only_constants; [by left|].
    unfold discovered_routes.
    destruct (raised (find_images fs_scan root)); [by left|].
    apply cut_short_gen_for. intros [name tags] Himage%elem_of_sorted_items.
    unfold image_routes. apply cut_short_seq; [by left|].
    apply cut_short_seq; [|by left].
    apply manifest_routes_cut_short.
    intros [tag mt] d Hin%elem_of_sorted_items. cbn [fst]. unfold digest_of.
    intros Hd.
    destruct (open_read fs_emit (os_path_join root [name; tag; MANIFEST_JSON]))
      as [content|e] eqn:Hopen.
    - rewrite (compute_digest_content _ _ content) in Hd by done.
      rewrite (compute_digest_content _ _ content); [done|].
      eapply Hsame; [|done]. by eapply collect_images_lookup.
    - by rewrite (compute_digest_raise _ _ e) in Hd. }
  split; [done|]. destruct Hcut as [->|[[e He] Hprefix]]; [done|].
  split; [congruence|done].
Qed.
End cut_short.

Lemma manifests_kept_tree_app name tag media_type content :
  (name, tag, media_type) ∈ yielded (find_images (H:=table_json) tree_app []) →
  open_read tree_app_v2_gone (os_path_join [] [name; tag; MANIFEST_JSON])
  = Ok content →
  open_read tree_app (os_path_join [] [name; tag; MANIFEST_JSON]) = Ok content.
Proof.
  rewrite find_images_tree_app. cbn [yielded].
  rewrite !elem_of_cons, elem_of_nil. intros [?|[?|[]]]; by simplify_eq.
Qed.

Lemma create_config_cut_short_witness :
  (∀ name tag media_type content,
     (name, tag, media_type) ∈ yielded (find_images (H:=table_json) tree_app []) →
     open_read tree_app_v2_gone (os_path_join [] [name; tag; MANIFEST_JSON])
     = Ok content →
     open_read tree_app (os_path_join [] [name; tag; MANIFEST_JSON]) = Ok content)
  ∧ yielded (create_config (H:=table_json) tree_app tree_app_v2_gone [] "/srv"
               "/" true false)
    `prefix_of` yielded (create_config (H:=table_json) tree_app tree_app []
                           "/srv" "/" true false).
Proof.
  split; [exact manifests_kept_tree_app|].
  exact (proj2 (proj2 (create_config_cut_short (H:=table_json) tree_app
                         tree_app_v2_gone [] "/srv" "/" true false
                         manifests_kept_tree_app))).
Defined.
